(** * Convert_timesheet: the converter and the discrepancy analyser

    A shallow embedding of [local_convert_timesheet.py] and
    [analyze_discrepancies.py], and the properties their specification
    states about them.

    Python values are modelled as follows.
    - A [str] is a list of characters; a character is a code point below
      256 (the Latin-1 range), which covers every character the two
      programs test for.
    - A CSV row ([dict[str, str]]) is a finite map from column names to
      texts; [r.get(k, "")] is [get_col r k].
    - [decimal.Decimal] is modelled after the standard library's
      [_pydecimal] under the default context (precision 28, half-even
      rounding, Emax 999999, traps on InvalidOperation and Overflow).
    - An operation that can raise returns a [result]. *)

From Stdlib Require Import ZArith QArith Qreduction Lia Ascii String List Bool.
From stdpp Require Import base list gmap strings.
Import ListNotations.

Local Close Scope Q_scope.
Local Open Scope list_scope.

(** ** Python strings *)

Module Str.

Definition str := list ascii.

(** A literal of the source. *)
Definition lit (s : string) : str := list_ascii_of_string s.

Definition code (c : ascii) : nat := nat_of_ascii c.

(** [str.isspace] on one character, which is also what [str.strip()] removes
    and what the regular expression [\s] matches: TAB..CR, FS..US, space,
    NEL and the no-break space. *)
Definition isspace (c : ascii) : bool :=
  let n := code c in
  ((9 <=? n) && (n <=? 13)) || ((28 <=? n) && (n <=? 32))
  || (n =? 133) || (n =? 160).

Definition isdigit (c : ascii) : bool :=
  let n := code c in (48 <=? n) && (n <=? 57).

Definition eqc (a b : ascii) : bool := Ascii.eqb a b.

Fixpoint dropwhile (p : ascii -> bool) (s : str) : str :=
  match s with
  | [] => []
  | c :: r => if p c then dropwhile p r else s
  end.

Definition lstrip (s : str) : str := dropwhile isspace s.
Definition rstrip (s : str) : str := rev (dropwhile isspace (rev s)).

(** [s.strip()] *)
Definition strip (s : str) : str := rstrip (lstrip s).

(** [s.rstrip(c)] for a one-character argument. *)
Definition rstrip_char (c : ascii) (s : str) : str :=
  rev (dropwhile (eqc c) (rev s)).

(** [re.sub(r"\s+", " ", s)]: every maximal run of white space becomes one
    space. [in_run] says that the previous character was white space, whose
    replacement is already written. *)
Fixpoint sub_ws (in_run : bool) (s : str) : str :=
  match s with
  | [] => []
  | c :: r =>
      if isspace c
      then (if in_run then sub_ws true r else " "%char :: sub_ws true r)
      else c :: sub_ws false r
  end.

Fixpoint eqs (a b : str) : bool :=
  match a, b with
  | [], [] => true
  | x :: a', y :: b' => eqc x y && eqs a' b'
  | _, _ => false
  end.

(** [s.startswith(p)] *)
Fixpoint startswith (p s : str) : bool :=
  match p, s with
  | [], _ => true
  | x :: p', y :: s' => eqc x y && startswith p' s'
  | _ :: _, [] => false
  end.

(** [p in s] *)
Fixpoint contains (p s : str) : bool :=
  startswith p s ||
  match s with
  | [] => false
  | _ :: s' => contains p s'
  end.

(** [c in s] for one character. *)
Definition has_char (c : ascii) (s : str) : bool := existsb (eqc c) s.

(** [s.replace(c, "")] for one character. *)
Definition remove_char (c : ascii) (s : str) : str :=
  List.filter (fun x => negb (eqc c x)) s.

(** [s.split(c)]: the fields between the occurrences of [c]; never empty. *)
Fixpoint split (c : ascii) (s : str) : list str :=
  match s with
  | [] => [[]]
  | x :: r =>
      if eqc c x then [] :: split c r
      else match split c r with
           | f :: fs => (x :: f) :: fs
           | [] => [[x]]
           end
  end.

(** [s.zfill(w)]: zeros on the left up to width [w], after a leading sign. *)
Definition zfill (w : nat) (s : str) : str :=
  let pad := repeat "0"%char (w - length s) in
  match s with
  | c :: r => if eqc c "+" || eqc c "-" then c :: pad ++ r else pad ++ s
  | [] => pad
  end.

(** [s.lower()] on the Latin-1 range. *)
Definition lower_char (c : ascii) : ascii :=
  let n := code c in
  if ((65 <=? n) && (n <=? 90))
     || ((192 <=? n) && (n <=? 222) && negb (n =? 215))
  then ascii_of_nat (n + 32) else c.

Definition lower (s : str) : str := map lower_char s.

End Str.
Import Str.

(** ** The normaliser of [local_convert_timesheet.py] *)

(** [_norm_spaces]: [s = (s or "").strip(); s = re.sub(r"\s+", " ", s)]. *)
Definition _norm_spaces (s : str) : str := sub_ws false (strip s).

(** [_desc]: [f"{prefix} - {client} - {job}"] over the normalised parts. *)
Definition _desc (prefix client job : str) : str :=
  _norm_spaces prefix ++ lit " - " ++ _norm_spaces client ++ lit " - "
  ++ _norm_spaces job.

(** The shape of a normalised text. *)
Definition no_leading_ws (s : str) : bool :=
  match s with
  | [] => true
  | c :: _ => negb (isspace c)
  end.

Definition no_trailing_ws (s : str) : bool := no_leading_ws (rev s).

Fixpoint no_double_ws (s : str) : bool :=
  match s with
  | c :: ((d :: _) as r) => negb (isspace c && isspace d) && no_double_ws r
  | _ => true
  end.

(** ** Exceptions *)

Inductive exn := InvalidOperation | Overflow | ValueError.

Inductive result (A : Type) :=
| Ok (a : A)
| Raise (e : exn).
Arguments Ok {A} a.
Arguments Raise {A} e.

Definition bind {A B : Type} (r : result A) (k : A -> result B) : result B :=
  match r with
  | Ok a => k a
  | Raise e => Raise e
  end.

Notation "'do' x <- r ; k" := (bind r (fun x => k))
  (at level 10, x name, r at level 100, k at level 200).

(** ** The date normaliser of [analyze_discrepancies.py] *)

(** ['-' in s and len(s) == 10 and s[4] == '-'] *)
Definition iso_shaped (s : str) : bool :=
  has_char "-" s && (length s =? 10)
  && match nth_error s 4 with
     | Some c => eqc c "-"
     | None => false
     end.

(** [f"{year}-{month.zfill(2)}-{day.zfill(2)}"], the year prefixed with
    ["20"] when it has two characters. *)
Definition reassemble (day month year : str) : str :=
  let year' := if length year =? 2 then lit "20" ++ year else year in
  year' ++ lit "-" ++ zfill 2 month ++ lit "-" ++ zfill 2 day.

(** [parse_date]; [None] is Python's [None]. *)
Definition parse_date (date_str : str) : option str :=
  match date_str with
  | [] => None
  | _ =>
      let s := strip date_str in
      if iso_shaped s then Some s
      else match split "/" s with
           | [day; month; year] => Some (reassemble day month year)
           | _ => Some s
           end
  end.

(** ** [decimal.Decimal]

    The standard library's decimal numbers, after [_pydecimal]: a finite
    number is a sign, a coefficient kept as its text of digits ([_int]) and
    an exponent ([_exp]); the special values are the infinities and the
    quiet and signalling NaNs with their diagnostic digits. The context is
    the default one, which the programs never change. Signals the default
    context does not trap (Rounded, Inexact, Subnormal, Underflow, Clamped)
    only set flags that the programs never read, and are left out. *)

Module Dec.

Local Open Scope Z_scope.

Inductive decimal :=
| Finite (sign : bool) (coeff : str) (exp : Z)
| Infinity (sign : bool)
| NaN (signaling : bool) (sign : bool) (payload : str).

Definition prec : Z := 28.
Definition Emax : Z := 999999.
Definition Emin : Z := -999999.
Definition Etiny : Z := Emin - prec + 1.
Definition Etop : Z := Emax - prec + 1.

Definition zeros (n : Z) : str := repeat "0"%char (Z.to_nat n).
Definition len (s : str) : Z := Z.of_nat (length s).

(** [str(int(s))] for a text of digits: leading zeros removed, ["0"] when
    nothing is left. *)
Definition strip_leading_zeros (s : str) : str :=
  match dropwhile (eqc "0") s with
  | [] => lit "0"
  | r => r
  end.

Definition digit_val (c : ascii) : Z := Z.of_nat (code c) - 48.

(** [int(s)] for a text of digits. *)
Definition int_of_digits (s : str) : Z :=
  fold_left (fun acc c => 10 * acc + digit_val c) s 0.

(** The longest prefix of digits and what follows it. *)
Fixpoint span_digits (s : str) : str * str :=
  match s with
  | c :: r =>
      if isdigit c then let '(d, rest) := span_digits r in (c :: d, rest)
      else ([], s)
  | [] => ([], [])
  end.

(** Comparison of texts ignoring case, against a lower-case pattern. *)
Definition eqs_nocase (pat s : str) : bool := eqs pat (lower s).

(** The exponent part [E[-+]?\d+] up to the end of the text; [Some 0] when
    there is none. *)
Definition parse_exponent (s : str) : option Z :=
  match s with
  | [] => Some 0
  | c :: r =>
      if eqc (lower_char c) "e" then
        let '(neg, r') :=
          match r with
          | x :: r1 => if eqc x "-" then (true, r1)
                       else if eqc x "+" then (false, r1) else (false, r)
          | [] => (false, r)
          end in
        match span_digits r' with
        | ((_ :: _) as ds, []) =>
            Some (if neg then - int_of_digits ds else int_of_digits ds)
        | _ => None
        end
      else None
  end.

(** The finite branch of the grammar: digits, an optional point and
    fraction, an optional exponent, with at least one digit before the
    exponent. *)
Definition parse_finite (sign : bool) (s : str) : option decimal :=
  let '(intpart, r) := span_digits s in
  let '(fracpart, r') :=
    match r with
    | c :: r1 => if eqc c "." then span_digits r1 else ([], r)
    | [] => ([], r)
    end in
  match intpart ++ fracpart with
  | [] => None
  | ds =>
      match parse_exponent r' with
      | Some e => Some (Finite sign (strip_leading_zeros ds) (e - len fracpart))
      | None => None
      end
  end.

(** The special branches: [Inf(inity)?] and [s?NaN\d*], ignoring case. *)
Definition parse_special (sign : bool) (s : str) : option decimal :=
  if eqs_nocase (lit "inf") s || eqs_nocase (lit "infinity") s
  then Some (Infinity sign)
  else
    let '(signaling, r) :=
      match s with
      | c :: r1 => if eqc (lower_char c) "s" then (true, r1) else (false, s)
      | [] => (false, s)
      end in
    if eqs_nocase (lit "nan") (firstn 3 r) then
      match span_digits (skipn 3 r) with
      | (diag, []) => Some (NaN signaling sign (dropwhile (eqc "0") diag))
      | _ => None
      end
    else None.

(** [Decimal(value)] for a text: white space trimmed, underscores removed,
    an optional sign, then a number or a special value. [None] is the
    ConversionSyntax condition, which the default context raises as
    InvalidOperation. *)
Definition of_str (value : str) : option decimal :=
  let s := remove_char "_" (strip value) in
  let '(sign, r) :=
    match s with
    | c :: r1 => if eqc c "-" then (true, r1)
                 else if eqc c "+" then (false, r1) else (false, s)
    | [] => (false, s)
    end in
  match parse_finite sign r with
  | Some d => Some d
  | None => parse_special sign r
  end.

(** [Decimal(0)] *)
Definition zero : decimal := Finite false (lit "0") 0.

(** [bool(d)]: false for the zeros only. *)
Definition nonzero (d : decimal) : bool :=
  match d with
  | Finite _ c _ => negb (eqs c (lit "0"))
  | _ => true
  end.

(** [d.adjusted()] of a finite number. *)
Definition adjusted (c : str) (e : Z) : Z := e + len c - 1.

(** Lexicographic [a < b] on texts. *)
Fixpoint str_ltb (a b : str) : bool :=
  match a, b with
  | _, [] => false
  | [], _ :: _ => true
  | x :: a', y :: b' =>
      if (code x <? code y)%nat then true
      else if (code y <? code x)%nat then false
      else str_ltb a' b'
  end.

Definition sgn (sign : bool) : Z := if sign then -1 else 1.

(** [_isinfinity]: 1, -1 or 0. *)
Definition isinfinity (d : decimal) : Z :=
  match d with
  | Infinity s => sgn s
  | _ => 0
  end.

(** [d._cmp(other)] for operands that are not NaN: -1, 0 or 1. *)
Definition _cmp (a b : decimal) : Z :=
  match a, b with
  | Finite sa ca ea, Finite sb cb eb =>
      if negb (nonzero a) then
        (if negb (nonzero b) then 0 else - sgn sb)
      else if negb (nonzero b) then sgn sa
      else if negb sb && sa then -1
      else if negb sa && sb then 1
      else
        let aa := adjusted ca ea in
        let ab := adjusted cb eb in
        if aa =? ab then
          let pa := ca ++ zeros (ea - eb) in
          let pb := cb ++ zeros (eb - ea) in
          if eqs pa pb then 0
          else if str_ltb pa pb then - sgn sa
          else sgn sa
        else if ab <? aa then sgn sa
        else - sgn sa
  | _, _ =>
      match Z.compare (isinfinity a) (isinfinity b) with
      | Eq => 0
      | Lt => -1
      | Gt => 1
      end
  end.

Definition is_snan (d : decimal) : bool :=
  match d with NaN true _ _ => true | _ => false end.

Definition is_nan (d : decimal) : bool :=
  match d with NaN _ _ _ => true | _ => false end.

(** [a == b]: a signalling NaN raises InvalidOperation, a quiet NaN equals
    nothing. *)
Definition eq (a b : decimal) : result bool :=
  if is_snan a || is_snan b then Raise InvalidOperation
  else if is_nan a || is_nan b then Ok false
  else Ok (_cmp a b =? 0).

(** [a != b], which Python derives from [==]. *)
Definition ne (a b : decimal) : result bool :=
  do r <- eq a b; Ok (negb r).

(** [_round_half_even(prec)] on the coefficient [c]: 1 to round away from
    zero, 0 when the dropped digits are all zero, -1 to truncate. *)
Definition in_chars (set : str) (c : ascii) : bool := existsb (eqc c) set.

Definition _round_half_up (c : str) (p : nat) : Z :=
  match nth_error c p with
  | Some x =>
      if in_chars (lit "56789") x then 1
      else if forallb (eqc "0") (skipn p c) then 0 else -1
  | None => 0
  end.

Definition _exact_half (c : str) (p : nat) : bool :=
  match skipn p c with
  | x :: r => eqc x "5" && forallb (eqc "0") r
  | [] => false
  end.

Definition _round_half_even (c : str) (p : nat) : Z :=
  if _exact_half c p
     && match p with
        | O => true
        | S q => match nth_error c q with
                 | Some x => in_chars (lit "02468") x
                 | None => false
                 end
        end
  then -1
  else _round_half_up c p.

(** [str(int(c) + 1)] for a text of digits. *)
Fixpoint incr_rev (rd : str) : str :=
  match rd with
  | [] => [ "1"%char ]
  | x :: r =>
      if eqc x "9" then "0"%char :: incr_rev r
      else ascii_of_nat (S (code x)) :: r
  end.

Definition incr (c : str) : str := rev (incr_rev (rev (strip_leading_zeros c))).

(** [_fix_nan]: the diagnostic digits cut to the precision. *)
Definition _fix_nan (signaling sign : bool) (payload : str) : decimal :=
  if prec <? len payload
  then NaN signaling sign
         (dropwhile (eqc "0") (skipn (Z.to_nat (len payload - prec)) payload))
  else NaN signaling sign payload.

(** [_fix]: round to the context's precision and exponent range. *)
Definition _fix (d : decimal) : result decimal :=
  match d with
  | NaN sg s p => Ok (_fix_nan sg s p)
  | Infinity _ => Ok d
  | Finite s c e =>
      if negb (nonzero d) then
        let new_exp := Z.min (Z.max e Etiny) Emax in
        if new_exp =? e then Ok d else Ok (Finite s (lit "0") new_exp)
      else
        let exp_min := len c + e - prec in
        if Etop <? exp_min then Raise Overflow
        else
          let exp_min := if exp_min <? Etiny then Etiny else exp_min in
          if e <? exp_min then
            let digits := len c + e - exp_min in
            let '(c1, digits) :=
              if digits <? 0 then (lit "1", 0) else (c, digits) in
            let changed := _round_half_even c1 (Z.to_nat digits) in
            let coeff :=
              match firstn (Z.to_nat digits) c1 with
              | [] => lit "0"
              | r => r
              end in
            let '(coeff, exp_min) :=
              if 0 <? changed then
                let coeff' := incr coeff in
                if prec <? len coeff' then (removelast coeff', exp_min + 1)
                else (coeff', exp_min)
              else (coeff, exp_min) in
            if Etop <? exp_min then Raise Overflow
            else Ok (Finite s coeff exp_min)
          else Ok d
  end.

(** The loop of [normalize]: drop trailing zeros of the coefficient, given
    reversed, while the exponent is below Emax. *)
Fixpoint drop_trailing_zeros (rc : str) (e : Z) : str * Z :=
  match rc with
  | x :: r =>
      if eqc x "0" && (e <? Emax) then drop_trailing_zeros r (e + 1)
      else (rc, e)
  | [] => ([], e)
  end.

(** [d.normalize()] *)
Definition normalize (d : decimal) : result decimal :=
  match d with
  | NaN true _ _ => Raise InvalidOperation
  | NaN false s p => Ok (_fix_nan false s p)
  | _ =>
      do dup <- _fix d;
      match dup with
      | Finite s c e =>
          if negb (nonzero dup) then Ok (Finite s (lit "0") 0)
          else let '(rc, e') := drop_trailing_zeros (rev c) e in
               Ok (Finite s (rev rc) e')
      | _ => Ok dup
      end
  end.

Definition sign_text (sign : bool) : str := if sign then lit "-" else [].

(** [format(d, "f")] *)
Definition format_f (d : decimal) : str :=
  match d with
  | Infinity s => sign_text s ++ lit "Infinity"
  | NaN sg s p => sign_text s ++ (if sg then lit "sNaN" else lit "NaN") ++ p
  | Finite s c e =>
      let '(c, e) :=
        if negb (nonzero d) && (0 <? e) then (lit "0", 0) else (c, e) in
      let dotplace := e + len c in
      let '(intpart, fracpart) :=
        if dotplace <? 0 then (lit "0", zeros (- dotplace) ++ c)
        else if len c <? dotplace then (c ++ zeros (dotplace - len c), [])
        else (match firstn (Z.to_nat dotplace) c with
              | [] => lit "0"
              | r => r
              end, skipn (Z.to_nat dotplace) c) in
      sign_text s ++ intpart
      ++ match fracpart with
         | [] => []
         | _ => lit "." ++ fracpart
         end
  end.

(** A coefficient as the constructor leaves it: digits only, at least
    one, and no leading zero except for the lone ["0"]. *)
Definition wf_coeff (c : str) : bool :=
  forallb isdigit c
  && match c with
     | [] => false
     | x :: r => negb (eqc x "0") || eqs r []
     end.

(** The decimals the default context holds without rounding: the zeros,
    the infinities, and the finite numbers of at most [prec] digits whose
    exponent is at least Etiny and whose adjusted exponent is at most
    Emax. *)
Definition representable (d : decimal) : bool :=
  match d with
  | Finite s c e =>
      wf_coeff c
      && (negb (nonzero d)
          || ((len c <=? prec) && (Etiny <=? e) && (adjusted c e <=? Emax)))
  | Infinity _ => true
  | NaN _ _ _ => false
  end.

End Dec.

(** ** The numeric normalisers of [local_convert_timesheet.py] *)

(** [_parse_decimal] *)
Definition _parse_decimal (s : str) : Dec.decimal :=
  let s := strip s in
  match s with
  | [] => Dec.zero
  | _ =>
      match Dec.of_str (remove_char "," s) with
      | Some d => d
      | None => Dec.zero
      end
  end.

(** [_fmt_decimal] *)
Definition _fmt_decimal (x : Dec.decimal) : result str :=
  do n <- Dec.normalize x;
  let s := Dec.format_f n in
  let s := if has_char "." s then rstrip_char "." (rstrip_char "0" s) else s in
  Ok (match s with
      | [] => lit "0"
      | _ => s
      end).

(** ** [datetime]: the two [strptime] formats, [date] and [isoformat]

    [strptime] compiles a format into a regular expression, matches it at
    the start of the text, and raises ValueError when the match fails or
    does not reach the end of the text, or when the fields are no date of
    the calendar. A failure is [None] here. *)

Module Cal.

Local Open Scope Z_scope.

Record date := Date { year : Z; month : Z; day : Z }.

Definition is_leap (y : Z) : bool :=
  (y mod 4 =? 0) && (negb (y mod 100 =? 0) || (y mod 400 =? 0)).

Definition days_in_month (y m : Z) : Z :=
  if m =? 2 then (if is_leap y then 29 else 28)
  else if (m =? 4) || (m =? 6) || (m =? 9) || (m =? 11) then 30
  else 31.

(** [datetime.date(y, m, d)], which raises ValueError outside the years
    1..9999 and outside the calendar. *)
Definition make_date (y m d : Z) : option date :=
  if (1 <=? y) && (y <=? 9999) && (1 <=? m) && (m <=? 12)
     && (1 <=? d) && (d <=? days_in_month y m)
  then Some (Date y m d) else None.

Definition digit_char (n : Z) : ascii := ascii_of_nat (48 + Z.to_nat (n mod 10)).

(** ["%04d-%02d-%02d"] *)
Definition isoformat (d : date) : str :=
  [digit_char (year d / 1000); digit_char (year d / 100);
   digit_char (year d / 10); digit_char (year d)]
  ++ lit "-" ++ [digit_char (month d / 10); digit_char (month d)]
  ++ lit "-" ++ [digit_char (day d / 10); digit_char (day d)].

(** One alternative of a group: a character class per position. *)
Definition pattern := list (ascii -> bool).

Definition between (lo hi : ascii) (c : ascii) : bool :=
  ((code lo <=? code c) && (code c <=? code hi))%nat.

(** Match a pattern at the start of a text: the matched part and the rest. *)
Fixpoint match_pattern (p : pattern) (s : str) : option (str * str) :=
  match p, s with
  | [], _ => Some ([], s)
  | cls :: p', c :: s' =>
      if cls c then
        match match_pattern p' s' with
        | Some (m, rest) => Some (c :: m, rest)
        | None => None
        end
      else None
  | _ :: _, [] => None
  end.

(** The matches of an alternation, in the order the engine tries them. *)
Definition alternation (ps : list pattern) (s : str) : list (str * str) :=
  flat_map (fun p => match match_pattern p s with
                     | Some r => [r]
                     | None => []
                     end) ps.

(** [%d]: [3[0-1]|[1-2]\d|0[1-9]|[1-9]| [1-9]] *)
Definition group_d : list pattern :=
  [ [eqc "3"; between "0" "1"]; [between "1" "2"; isdigit];
    [eqc "0"; between "1" "9"]; [between "1" "9"];
    [eqc " "; between "1" "9"] ].

(** [%m]: [1[0-2]|0[1-9]|[1-9]] *)
Definition group_m : list pattern :=
  [ [eqc "1"; between "0" "2"]; [eqc "0"; between "1" "9"];
    [between "1" "9"] ].

(** [%Y]: [\d\d\d\d], and [%y]: [\d\d] *)
Definition group_Y : list pattern := [ [isdigit; isdigit; isdigit; isdigit] ].
Definition group_y : list pattern := [ [isdigit; isdigit] ].

(** A literal character of the format. *)
Definition literal (c : ascii) (s : str) : list str :=
  match s with
  | x :: r => if eqc c x then [r] else []
  | [] => []
  end.

(** The expression of [%d/%m/<year>]: the first match the backtracking
    engine finds, as the three groups and the text left over. *)
Definition match_dmy (gy : list pattern) (s : str)
  : option (str * str * str * str) :=
  head (flat_map (fun '(d, r1) =>
        flat_map (fun r2 =>
        flat_map (fun '(m, r3) =>
        flat_map (fun r4 =>
        map (fun '(y, r5) => (d, m, y, r5)) (alternation gy r4))
          (literal "/" r3)) (alternation group_m r2))
          (literal "/" r1)) (alternation group_d s)).

(** [int(text)] of a matched group; leading white space is skipped. *)
Definition int_of_group (t : str) : Z := Dec.int_of_digits (dropwhile isspace t).

(** [datetime.strptime(s, "%d/%m/%Y").date()] *)
Definition strptime_dmY (s : str) : option date :=
  match match_dmy group_Y s with
  | Some (d, m, y, []) =>
      make_date (int_of_group y) (int_of_group m) (int_of_group d)
  | _ => None
  end.

(** [datetime.strptime(s, "%d/%m/%y").date()]: the years up to 68 are taken
    in the 2000s, the others in the 1900s. *)
Definition strptime_dmy (s : str) : option date :=
  match match_dmy group_y s with
  | Some (d, m, y, []) =>
      let yy := int_of_group y in
      make_date (if yy <=? 68 then yy + 2000 else yy + 1900)
                (int_of_group m) (int_of_group d)
  | _ => None
  end.

(** [date.fromisoformat(s)] on the calendar form [YYYY-MM-DD], the one form
    every Python 3 version accepts. *)
Definition fromisoformat (s : str) : option date :=
  match s with
  | [y1; y2; y3; y4; h1; m1; m2; h2; d1; d2] =>
      if forallb isdigit [y1; y2; y3; y4; m1; m2; d1; d2]
         && eqc h1 "-" && eqc h2 "-"
      then make_date (Dec.int_of_digits [y1; y2; y3; y4])
                     (Dec.int_of_digits [m1; m2]) (Dec.int_of_digits [d1; d2])
      else None
  | _ => None
  end.

End Cal.

(** [_parse_weekending] *)
Definition _parse_weekending (s : str) : str :=
  let s := strip s in
  match s with
  | [] => []
  | _ =>
      match Cal.strptime_dmY s with
      | Some d => Cal.isoformat d
      | None =>
          match Cal.strptime_dmy s with
          | Some d => Cal.isoformat d
          | None =>
              match Cal.fromisoformat s with
              | Some d => Cal.isoformat d
              | None => s
              end
          end
      end
  end.

(** ** [float]

    Python's floats are the binary64 numbers. A finite float other than
    zero is kept as its exact value [m * 2 ^ e]; [float(text)] rounds the
    decimal value of the text to the nearest such number, ties to the even
    mantissa, as the interpreter's correctly rounded conversion does. *)

Module Flt.

Local Open Scope Z_scope.

Inductive float :=
| Zero (sign : bool)
| Finite (sign : bool) (m : Z) (e : Z)
| Inf (sign : bool)
| NaN.

(** The quotient [n / d] rounded to the nearest integer, ties to even. *)
Definition round_half_even (n d : Z) : Z :=
  let q := n / d in
  match Z.compare (2 * (n mod d)) d with
  | Lt => q
  | Gt => q + 1
  | Eq => if Z.even q then q else q + 1
  end.

(** [p / q / 2 ^ e] as a fraction of integers. *)
Definition scaled (p q e : Z) : Z * Z :=
  if 0 <=? e then (p, q * 2 ^ e) else (p * 2 ^ (- e), q).

(** The binary64 number nearest to the positive fraction [p / q]: the
    exponent is the one that leaves 53 bits of mantissa, and at least
    -1074, the exponent of the subnormal numbers. *)
Definition of_ratio (sign : bool) (p q : Z) : float :=
  let e0 := Z.max (Z.log2 p - Z.log2 q - 53) (-1074) in
  let '(n0, d0) := scaled p q e0 in
  let e := if 2 ^ 53 <=? n0 / d0 then e0 + 1 else e0 in
  let '(n, d) := scaled p q e in
  let m := round_half_even n d in
  if m =? 0 then Zero sign
  else if 2 ^ 1024 <=? m * 2 ^ e then Inf sign
  else Finite sign m e.

(** The float of a positive rational, taken in lowest terms. *)
Definition of_Q (sign : bool) (x : Q) : float :=
  let r := Qred x in of_ratio sign (Qnum r) (Zpos (Qden r)).

(** The value [m * 10 ^ e]. *)
Definition decimal_value (m e : Z) : Q :=
  if 0 <=? e then Qmake (m * 10 ^ e) 1 else Qmake m (Z.to_pos (10 ^ (- e))).

(** The float of the decimal [c * 10 ^ e], [c] a text of digits. Values
    of 1e309 and more are infinite and values below 1e-324 are zero,
    whatever the exponent. *)
Definition of_decimal (sign : bool) (c : str) (e : Z) : float :=
  let m := Dec.int_of_digits c in
  if m =? 0 then Zero sign
  else if 309 <=? e + Dec.len c - 1 then Inf sign
  else if e + Dec.len c <=? -324 then Zero sign
  else of_Q sign (decimal_value m e).

(** The white space [float()] trims: that of [str.strip()] without the
    separators FS..US. *)
Definition isspace_float (c : ascii) : bool :=
  isspace c && negb ((28 <=? code c) && (code c <=? 31))%nat.

(** An underscore must stand between two digits. *)
Fixpoint underscores_ok (prev : option ascii) (s : str) : bool :=
  match s with
  | [] =>
      match prev with
      | Some p => negb (eqc p "_")
      | None => true
      end
  | c :: r =>
      (if eqc c "_" then
         match prev with
         | Some p => isdigit p
         | None => false
         end
       else
         match prev with
         | Some p => negb (eqc p "_") || isdigit c
         | None => true
         end)
      && underscores_ok (Some c) r
  end.

(** [float(text)]; [None] is ValueError. *)
Definition of_str (text : str) : option float :=
  let s := rev (dropwhile isspace_float (rev (dropwhile isspace_float text))) in
  if underscores_ok None s then
    let s := remove_char "_" s in
    let '(sign, r) :=
      match s with
      | c :: r1 => if eqc c "-" then (true, r1)
                   else if eqc c "+" then (false, r1) else (false, s)
      | [] => (false, s)
      end in
    match Dec.parse_finite sign r with
    | Some (Dec.Finite sg c e) => Some (of_decimal sg c e)
    | Some _ => None
    | None =>
        if Dec.eqs_nocase (lit "inf") r || Dec.eqs_nocase (lit "infinity") r
        then Some (Inf sign)
        else if Dec.eqs_nocase (lit "nan") r then Some NaN
        else None
    end
  else None.

(** Comparison of a float with an integer; a NaN compares with nothing. *)
Definition compare_int (f : float) (n : Z) : option comparison :=
  match f with
  | NaN => None
  | Zero _ => Some (0 ?= n)
  | Inf s => Some (if s then Lt else Gt)
  | Finite s m e =>
      let v := if s then - m else m in
      Some (if 0 <=? e then (v * 2 ^ e ?= n) else (v ?= n * 2 ^ (- e)))
  end.

(** [f > n], [f <= n] and [f == n] *)
Definition gt_int (f : float) (n : Z) : bool :=
  match compare_int f n with
  | Some Gt => true
  | _ => false
  end.

Definition le_int (f : float) (n : Z) : bool :=
  match compare_int f n with
  | Some Lt | Some Eq => true
  | _ => false
  end.

Definition eq_int (f : float) (n : Z) : bool :=
  match compare_int f n with
  | Some Eq => true
  | _ => false
  end.

End Flt.

(** ** The conversion engine: [convert_rows] *)

(** A row of [csv.DictReader]: the texts by column name. *)
Abbreviation row := (gmap string str).

(** [r.get(k, "")] *)
Definition get_col (r : row) (k : string) : str := default [] (r !! k).

Definition is_empty (s : str) : bool :=
  match s with
  | [] => true
  | _ => false
  end.

(** [x != 0] on decimals. *)
Definition ne0 (x : Dec.decimal) : result bool := Dec.ne x Dec.zero.

(** The validity check on the identity fields and the week-ending. *)
Definition valid_detail_row (r : row) : bool :=
  let employeeid := _norm_spaces (get_col r "Candidate RefNo") in
  let firstname := _norm_spaces (get_col r "Candidate Forename") in
  let surname := _norm_spaces (get_col r "Candidate Surname") in
  let weekending := _parse_weekending (get_col r "Weekending") in
  negb (is_empty employeeid || is_empty firstname || is_empty surname
        || is_empty weekending)
  && negb (eqs (lower employeeid) (lit "candidate refno")).

(** One hours line, written when both driving values are not zero; the
    rate is compared only when the hours are not zero. *)
Definition hours_lines (prefix : str) (ident : list str) (client job : str)
    (hours rate : Dec.decimal) (weekending : str) : result (list (list str)) :=
  do h <- ne0 hours;
  do both <- (if h then ne0 rate else Ok false);
  if both then
    do a <- _fmt_decimal hours;
    do b <- _fmt_decimal rate;
    Ok [ident ++ [_desc prefix client job; a; b; weekending; lit "hours"]]
  else Ok [].

(** The body of the loop of [convert_rows]: the lines one row adds to the
    output, in the order they are appended. *)
Definition convert_row (r : row) : result (list (list str)) :=
  let employeeid := _norm_spaces (get_col r "Candidate RefNo") in
  let firstname := _norm_spaces (get_col r "Candidate Forename") in
  let surname := _norm_spaces (get_col r "Candidate Surname") in
  let client := get_col r "Client Name" in
  let job := get_col r "Contract JobTitle" in
  let weekending := _parse_weekending (get_col r "Weekending") in
  if is_empty employeeid || is_empty firstname || is_empty surname
     || is_empty weekending
  then Ok []
  else if eqs (lower employeeid) (lit "candidate refno") then Ok []
  else
    let std_hours := _parse_decimal (get_col r "Std1 Hrs") in
    let ot1_hours := _parse_decimal (get_col r "OT1 Hrs") in
    let std_rate := _parse_decimal (get_col r "Std Rate") in
    let ot1_rate := _parse_decimal (get_col r "OT1 Rate") in
    let expenses := _parse_decimal (get_col r "Expenses") in
    let ident := [employeeid; firstname; surname] in
    do e <- ne0 expenses;
    do exp_lines <-
      (if e then
         do x <- _fmt_decimal expenses;
         Ok [ident ++ [_desc (lit "Expenses") client job; lit "1"; x;
                       weekending; lit "expense"]]
       else Ok []);
    do std_lines <-
      hours_lines (lit "Std Hrs") ident client job std_hours std_rate weekending;
    do ot1_lines <-
      hours_lines (lit "OT1 Hrs") ident client job ot1_hours ot1_rate weekending;
    Ok (exp_lines ++ std_lines ++ ot1_lines).

(** [convert_rows]: the lines of all rows, in order; an exception of one
    row ends the whole conversion. *)
Fixpoint convert_rows (rows : list row) : result (list (list str)) :=
  match rows with
  | [] => Ok []
  | r :: rs =>
      do a <- convert_row r;
      do b <- convert_rows rs;
      Ok (a ++ b)
  end.

(** The numeric columns hold decimals the context keeps unrounded. *)
Definition numeric_ok (r : row) : bool :=
  forallb (fun k => Dec.representable (_parse_decimal (get_col r k)))
    ["Std1 Hrs"; "OT1 Hrs"; "Std Rate"; "OT1 Rate"; "Expenses"]%string.

(** What the claim says of the Expenses line: present exactly when the
    expenses are not zero, with amount "1" and a rate that is the expenses
    value. *)
Definition expense_part (ident : list str) (client job weekending : str)
    (expenses : Dec.decimal) (L : list (list str)) : Prop :=
  if Dec.nonzero expenses then
    exists x : str,
      L = [ident ++ [_desc (lit "Expenses") client job; lit "1"; x;
                     weekending; lit "expense"]]
      /\ Dec.eq (_parse_decimal x) expenses = Ok true
  else L = [].

(** What the claim says of an hours line: present exactly when hours and
    rate are both not zero, with the hours as amount and the rate as rate. *)
Definition hours_part (prefix : str) (ident : list str)
    (client job weekending : str) (hours rate : Dec.decimal)
    (L : list (list str)) : Prop :=
  if Dec.nonzero hours && Dec.nonzero rate then
    exists a b : str,
      L = [ident ++ [_desc prefix client job; a; b; weekending; lit "hours"]]
      /\ Dec.eq (_parse_decimal a) hours = Ok true
      /\ Dec.eq (_parse_decimal b) rate = Ok true
  else L = [].

(** A row for the examples. *)
Definition mk_row (cols : list (string * string)) : row :=
  list_to_map (map (fun '(k, v) => (k, lit v)) cols).

Definition sample_identity : list (string * string) :=
  [("Candidate RefNo", "E1"); ("Candidate Forename", "Ann");
   ("Candidate Surname", "Lee"); ("Client Name", "Acme  Ltd");
   ("Contract JobTitle", "Fitter"); ("Weekending", "05/03/25")]%string.

(** The record of the specification's example: expenses 25.50, 37.5
    standard hours at 12, no overtime hours. *)
Definition sample_row : row :=
  mk_row (sample_identity ++
          [("Std1 Hrs", "37.5"); ("Std Rate", "12"); ("OT1 Hrs", "0");
           ("OT1 Rate", "18"); ("Expenses", "25.50")]%string).

(** A record whose expenses carry thirty significant digits. *)
Definition long_expenses_row : row :=
  mk_row (sample_identity ++
          [("Expenses", "1.00000000000000000000000000001")]%string).

(** A record whose expenses column holds a signalling NaN. *)
Definition snan_expenses_row : row :=
  mk_row (sample_identity ++ [("Expenses", "sNaN")]%string).

(** A record with negative expenses and nothing else. *)
Definition negative_expenses_row : row :=
  mk_row (sample_identity ++ [("Expenses", "-5")]%string).

(** ** The analyser: [analyze_discrepancies.py] *)

(** [parse_num]: the float of a text, and 0.0 for an empty text or one that
    is no number. *)
Definition parse_num (val : str) : Flt.float :=
  match val with
  | [] => Flt.Zero false
  | _ =>
      match Flt.of_str (remove_char "," (strip val)) with
      | Some f => f
      | None => Flt.Zero false
      end
  end.

(** [row.get(k1) or row.get(k2) or ... or dflt]: the first text that is
    present and not empty. *)
Fixpoint first_truthy (r : row) (ks : list string) (dflt : str) : str :=
  match ks with
  | [] => dflt
  | k :: ks' =>
      match r !! k with
      | Some (c :: t) => c :: t
      | _ => first_truthy r ks' dflt
      end
  end.

(** A number of an expected line: the integer 1 of an expense line, or a
    float. *)
Inductive pynum :=
| PInt (n : Z)
| PFloat (f : Flt.float).

(** One expected line, the dictionary [analyze_input] appends. *)
Record expected_line := Expected {
  e_employeeid : str;
  e_firstname : str;
  e_surname : str;
  e_description : str;
  e_amount : pynum;
  e_rate : Flt.float;
  e_weekending : option str;
  e_unit : str;
  e_input_row : nat;
  e_type : str
}.

(** One potential issue of the input. Its text is the template "OT1 Rate =
    ... but OT1 Hrs = 0" around the rate, which is kept as a number. *)
Record input_issue := InputIssue {
  ii_row : nat;
  ii_refno : str;
  ii_name : str;
  ii_ot1_rate : Flt.float
}.

(** The body of the loop of [analyze_input] for the row numbered [i]. *)
Definition analyze_row (i : nat) (r : row)
  : list expected_line * list input_issue :=
  let refno := strip (get_col r "Candidate RefNo") in
  let client := strip (get_col r "Client Name") in
  let job_title := strip (get_col r "Contract JobTitle") in
  let forename := strip (get_col r "Candidate Forename") in
  let surname := strip (get_col r "Candidate Surname") in
  let weekending := strip (get_col r "Weekending") in
  let std_hrs := parse_num (first_truthy r ["Std1 Hrs"; "Std Hrs"]%string (lit "0")) in
  let ot1_hrs := parse_num (first_truthy r ["OT1 Hrs"; "OT1 HR"]%string (lit "0")) in
  let std_rate := parse_num (first_truthy r ["Std Rate"; "Rate"]%string (lit "0")) in
  let ot1_rate := parse_num (first_truthy r ["OT1 Rate"]%string (lit "0")) in
  let expenses := parse_num (first_truthy r ["Expenses"]%string (lit "0")) in
  if is_empty refno || is_empty forename || is_empty surname
     || is_empty weekending
  then ([], [])
  else
    let weekending_formatted := parse_date weekending in
    let line prefix amount rate unit :=
      Expected refno forename surname
        (prefix ++ lit " - " ++ client ++ lit " - " ++ job_title)
        amount rate weekending_formatted unit i prefix in
    ((if Flt.gt_int expenses 0
      then [line (lit "Expenses") (PInt 1) expenses (lit "expense")] else [])
     ++ (if Flt.gt_int std_hrs 0 && Flt.gt_int std_rate 0
         then [line (lit "Std Hrs") (PFloat std_hrs) std_rate (lit "hours")]
         else [])
     ++ (if Flt.gt_int ot1_hrs 0 && Flt.gt_int ot1_rate 0
         then [line (lit "OT1 Hrs") (PFloat ot1_hrs) ot1_rate (lit "hours")]
         else []),
     if Flt.gt_int ot1_rate 0 && Flt.eq_int ot1_hrs 0
     then [InputIssue i refno (forename ++ lit " " ++ surname) ot1_rate]
     else []).

Fixpoint analyze_from (i : nat) (rows : list row)
  : list expected_line * list input_issue :=
  match rows with
  | [] => ([], [])
  | r :: rs =>
      let '(e1, i1) := analyze_row i r in
      let '(e2, i2) := analyze_from (S i) rs in
      (e1 ++ e2, i1 ++ i2)
  end.

(** [analyze_input] on the rows read from the input file; the first data
    row is numbered 2. *)
Definition analyze_input (rows : list row)
  : list expected_line * list input_issue :=
  analyze_from 2 rows.

(** *** Dictionaries of lists, in insertion order *)

Section Grouping.

Context {K V : Type} (eqk : K -> K -> bool).

(** [d[k].append(v)], the key being added at the end when it is new. *)
Fixpoint group_add (k : K) (v : V) (g : list (K * list V)) : list (K * list V) :=
  match g with
  | [] => [(k, [v])]
  | (k', vs) :: g' =>
      if eqk k' k then (k', vs ++ [v]) :: g' else (k', vs) :: group_add k v g'
  end.

Definition group_by (key : V -> K) (vs : list V) : list (K * list V) :=
  fold_left (fun g v => group_add (key v) v g) vs [].

(** [d.get(k, [])] *)
Fixpoint group_get (k : K) (g : list (K * list V)) : list V :=
  match g with
  | [] => []
  | (k', vs) :: g' => if eqk k' k then vs else group_get k g'
  end.

(** The number of values filed under the keys that satisfy [P]. *)
Definition weight (P : K -> bool) (g : list (K * list V)) : nat :=
  list_sum (map (fun kv => if P (fst kv) then length (snd kv) else O) g).

End Grouping.

(** *** [compare_outputs] *)

(** The type of a line, from the start of its description. *)
Definition line_type (desc : str) : str :=
  if startswith (lit "Std Hrs") desc then lit "Std Hrs"
  else if startswith (lit "OT1 Hrs") desc then lit "OT1 Hrs"
  else if startswith (lit "OT2 Hrs") desc then lit "OT2 Hrs"
  else if startswith (lit "OT3 Hrs") desc then lit "OT3 Hrs"
  else if startswith (lit "Expenses") desc then lit "Expenses"
  else lit "Unknown".

Definition key3 : Type := str * str * str.

Definition eq_key3 (a b : key3) : bool :=
  let '(a1, a2, a3) := a in
  let '(b1, b2, b3) := b in
  eqs a1 b1 && eqs a2 b2 && eqs a3 b3.

Definition actual_key (r : row) : key3 :=
  (strip (get_col r "employeeid"), strip (get_col r "weekending"),
   line_type (get_col r "description")).

(** [e['weekending'] == we], the left side being a text or [None]. *)
Definition opt_eqs (o : option str) (s : str) : bool :=
  match o with
  | Some t => eqs t s
  | None => false
  end.

(** The test of the comprehension [matching_expected]. *)
Definition matches_key (k : key3) (e : expected_line) : bool :=
  let '(emp_id, we, lt) := k in
  eqs (e_employeeid e) emp_id && opt_eqs (e_weekending e) we
  && eqs (e_type e) lt.

(** One discrepancy, the dictionary [compare_outputs] appends. *)
Record discrepancy := Discrepancy {
  d_type : str;
  d_employeeid : str;
  d_description : str;
  d_amount : str;
  d_rate : str;
  d_weekending : str;
  d_issue : str
}.

Definition extra_line (label emp_id : str) (al : row) : discrepancy :=
  Discrepancy (lit "EXTRA_LINE") emp_id (get_col al "description")
    (get_col al "amount") (get_col al "rate") (get_col al "weekending")
    (lit "Line exists in " ++ label ++ lit " but shouldn't based on input").

(** [compare_outputs], on the rows read from the actual file. *)
Definition compare_outputs (expected : list expected_line)
    (actual_rows : list row) (label : str) : list discrepancy :=
  flat_map
    (fun '(key, actual_lines) =>
       let matching_expected := List.filter (matches_key key) expected in
       match matching_expected, actual_lines with
       | [], _ :: _ => map (extra_line label (fst (fst key))) actual_lines
       | _, _ => []
       end)
    (group_by eq_key3 actual_key actual_rows).

(** An actual key that no expected line matches. *)
Definition unmatched (expected : list expected_line) (k : key3) : bool :=
  match List.filter (matches_key k) expected with
  | [] => true
  | _ => false
  end.

(** *** The checks of [main] on the output rows *)

(** The text of a finding: its template and the numbers it quotes. *)
Inductive issue_text :=
| OT1_without_hours (ot1_rate : Flt.float)
| Expenses_without_expenses (ot1_rate : Flt.float)
| Amount_rate_swapped (amt rt : Flt.float).

Record finding := Finding {
  f_employeeid : str;
  f_name : str;
  f_issue : issue_text;
  f_output_line : str;
  f_severity : str
}.

Definition key2 : Type := str * option str.

Definition eq_key2 (a b : key2) : bool :=
  eqs (fst a) (fst b)
  && match snd a, snd b with
     | Some x, Some y => eqs x y
     | None, None => true
     | _, _ => false
     end.

Definition input_key (r : row) : key2 :=
  (strip (get_col r "Candidate RefNo"),
   parse_date (strip (get_col r "Weekending"))).

(** [inp.get(k, '0')] *)
Definition get_or_zero (r : row) (k : string) : str :=
  default (lit "0") (r !! k).

(** The thresholds of the swapped-columns check. *)
Definition amount_threshold : Z := 100.
Definition rate_threshold : Z := 10.

(** The three checks of one output row against one input row sharing its
    key, in the order they are made. A float that cannot be read skips the
    third check. *)
Definition check_against (out inp : row) : list finding :=
  let emp_id := strip (get_col out "employeeid") in
  let desc := get_col out "description" in
  let amount := strip (get_col out "amount") in
  let rate := strip (get_col out "rate") in
  let ot1_hrs := parse_num (get_or_zero inp "OT1 Hrs") in
  let ot1_rate := parse_num (get_or_zero inp "OT1 Rate") in
  let expenses := parse_num (get_or_zero inp "Expenses") in
  let found issue :=
    Finding emp_id (get_col out "firstname" ++ lit " " ++ get_col out "surname")
      issue (desc ++ lit ", amount=" ++ amount ++ lit ", rate=" ++ rate)
      (lit "CRITICAL") in
  (if contains (lit "OT1 Hrs") desc && Flt.eq_int ot1_hrs 0
   then [found (OT1_without_hours ot1_rate)] else [])
  ++ (if contains (lit "Expenses") desc && Flt.eq_int expenses 0
      then [found (Expenses_without_expenses ot1_rate)] else [])
  ++ match Flt.of_str amount with
     | Some amt =>
         match Flt.of_str rate with
         | Some rt =>
             if Flt.gt_int amt amount_threshold
                && Flt.le_int rt rate_threshold
                && contains (lit "Hrs") desc
             then [found (Amount_rate_swapped amt rt)] else []
         | None => []
         end
     | None => []
     end.

(** The input rows sharing the key of an output row. *)
Definition input_data (input_rows : list row) (out : row) : list row :=
  group_get eq_key2
    (strip (get_col out "employeeid"), Some (strip (get_col out "weekending")))
    (group_by eq_key2 input_key input_rows).

(** The findings of one output row, and of all of them. *)
Definition check_row (input_rows : list row) (out : row) : list finding :=
  flat_map (check_against out) (input_data input_rows out).

Definition find_issues (input_rows wrong_output : list row) : list finding :=
  flat_map (check_row input_rows) wrong_output.

(** The kinds the specification gives to the findings. *)
Definition is_zero_driver (f : finding) : bool :=
  match f_issue f with
  | OT1_without_hours _ | Expenses_without_expenses _ => true
  | Amount_rate_swapped _ _ => false
  end.

Definition is_swapped (f : finding) : bool :=
  match f_issue f with
  | Amount_rate_swapped _ _ => true
  | _ => false
  end.



(** The input rows that share the key of an output row. *)
Definition shares_key (out inp : row) : bool :=
  eq_key2 (input_key inp)
    (strip (get_col out "employeeid"), Some (strip (get_col out "weekending"))).

(** An output row of the sample employee and week. *)
Definition output_row (description amount rate : string) : row :=
  mk_row [("employeeid", "E1"); ("firstname", "Ann"); ("surname", "Lee");
          ("description", description); ("amount", amount); ("rate", rate);
          ("weekending", "2025-03-05"); ("unit", "hours")]%string.

(** An input record with an overtime rate but no overtime hours and no
    expenses. *)
Definition no_overtime_row : row :=
  mk_row (sample_identity ++
          [("Std1 Hrs", "37.5"); ("Std Rate", "12"); ("OT1 Hrs", "0");
           ("OT1 Rate", "18"); ("Expenses", "0")]%string).

(** The characters [format_f] writes for a finite number. *)
Definition plain_char (c : ascii) : bool :=
  isdigit c || eqc c "-" || eqc c ".".

(** ** Records on which the two programs can be compared *)




(** A week-ending that is blank, or that [parse_date] and
    [_parse_weekending] turn into the same text. *)
Definition dates_agree (we : str) : bool :=
  is_empty (strip we)
  || opt_eqs (parse_date (strip we)) (_parse_weekending we).





(** Two plain records: the specification's example with a single-spaced
    client, and a line of totals without identity. *)
Definition plain_sample_row : row :=
  mk_row [("Candidate RefNo", "E1"); ("Candidate Forename", "Ann");
          ("Candidate Surname", "Lee"); ("Client Name", " Acme Ltd");
          ("Contract JobTitle", "Fitter"); ("Weekending", "05/03/25");
          ("Std1 Hrs", "37.5"); ("Std Rate", "1,200"); ("OT1 Hrs", "0");
          ("OT1 Rate", "18"); ("Expenses", "25.50")]%string.

Definition totals_row : row :=
  mk_row [("Std1 Hrs", "75"); ("Expenses", "51.00")]%string.

(** ** Rows and lines for the further properties *)

(** A text of white space only, the empty text included. *)
Definition blank (s : str) : bool := forallb isspace s.

(** The header [main] writes above the lines of [convert_rows]. *)
Definition header : list str :=
  [lit "employeeid"; lit "firstname"; lit "surname"; lit "description";
   lit "amount"; lit "rate"; lit "weekending"; lit "unit"].

(** A record with a blank surname and a signalling NaN for expenses. *)
Definition blank_surname_row : row :=
  mk_row [("Candidate RefNo", "E1"); ("Candidate Forename", "Ann");
          ("Candidate Surname", "  "); ("Weekending", "05/03/25");
          ("Expenses", "sNaN")]%string.

(** What every line of [convert_rows] has: eight fields, a non-empty
    employee, forename, surname, week-ending, amount and rate, and either
    the unit "expense" with the amount "1" and a description of the type
    Expenses, or the unit "hours" with a description of the type Std Hrs
    or OT1 Hrs. *)
Definition output_line_ok (l : list str) : Prop :=
  exists id fn sn desc amount rate we unit : str,
    l = [id; fn; sn; desc; amount; rate; we; unit]
    /\ id <> [] /\ fn <> [] /\ sn <> [] /\ we <> []
    /\ amount <> [] /\ rate <> []
    /\ ((unit = lit "expense" /\ amount = lit "1"
         /\ line_type desc = lit "Expenses")
        \/ (unit = lit "hours"
            /\ (line_type desc = lit "Std Hrs"
                \/ line_type desc = lit "OT1 Hrs"))).

(** What every expected line of [analyze_input] has: a non-empty employee,
    forename, surname and week-ending, a rate above zero, a description
    that [compare_outputs] files under the line's own type, and either an
    expense of amount 1 or hours above zero. *)
Definition expected_line_ok (e : expected_line) : Prop :=
  e_employeeid e <> [] /\ e_firstname e <> [] /\ e_surname e <> []
  /\ (exists w : str, e_weekending e = Some w /\ w <> [])
  /\ Flt.gt_int (e_rate e) 0 = true
  /\ line_type (e_description e) = e_type e
  /\ ((e_type e = lit "Expenses" /\ e_unit e = lit "expense"
       /\ e_amount e = PInt 1)
      \/ ((e_type e = lit "Std Hrs" \/ e_type e = lit "OT1 Hrs")
          /\ e_unit e = lit "hours"
          /\ exists f : Flt.float,
               e_amount e = PFloat f /\ Flt.gt_int f 0 = true)).

(** *** The date check of [main] on the expected result *)

(** One line the date check prints: the employee, the week-ending of the
    row of the expected result, the date of birth it appears to come from,
    and the normalised week-ending of the input. *)
Record date_report := DateReport {
  dr_employeeid : str;
  dr_weekending : str;
  dr_dob : str;
  dr_input_we : option str
}.

(** The check of one row of the expected result against an input row of
    its employee: when the week-endings differ and the date of birth has
    at least two parts, the row is reported if its week-ending is the day
    and month of the date of birth in the year 2025. *)
Definition date_check (inp out : row) : list date_report :=
  let emp_id := strip (get_col out "employeeid") in
  let we := strip (get_col out "weekending") in
  let input_we := parse_date (get_col inp "Weekending") in
  if opt_eqs input_we we then []
  else
    let dob := get_col inp "Candidate DOB" in
    match dob with
    | [] => []
    | _ =>
        match split "/" dob with
        | d0 :: d1 :: _ =>
            if eqs we (lit "2025-" ++ zfill 2 d1 ++ lit "-" ++ zfill 2 d0)
            then [DateReport emp_id we dob input_we]
            else []
        | _ => []
        end
    end.

(** The loop over the expected result: each row is checked against the
    first input row with its employee reference, and against no other. *)
Definition date_issues (input_rows expected_result : list row)
  : list date_report :=
  flat_map
    (fun out =>
       match List.find
               (fun inp => eqs (strip (get_col inp "Candidate RefNo"))
                             (strip (get_col out "employeeid")))
               input_rows with
       | Some inp => date_check inp out
       | None => []
       end)
    expected_result.

(** An input record with a date of birth, and a row of the expected result
    that carries its day and month in 2025 as week-ending. *)
Definition dob_row : row :=
  mk_row (sample_identity ++ [("Candidate DOB", "7/11/1990")]%string).

Definition dob_result_row : row :=
  mk_row [("employeeid", "E1"); ("weekending", "2025-11-07")]%string.

(** A record that repeats the header in its employee reference, with
    hours and a rate. *)
Definition header_like_row : row :=
  mk_row [("Candidate RefNo", "Candidate RefNo"); ("Candidate Forename", "Ann");
          ("Candidate Surname", "Lee"); ("Weekending", "05/03/25");
          ("Std1 Hrs", "8"); ("Std Rate", "12")]%string.

(** An input record whose overtime hours are no number. *)
Definition unreadable_hours_row : row :=
  mk_row (sample_identity ++
          [("OT1 Hrs", "n/a"); ("OT1 Rate", "18")]%string).

(** The types of the lines of one record: at most one Expenses, one Std
    Hrs and one OT1 Hrs, in this order. *)
Definition component_shape (types : list str) : Prop :=
  exists be bs bo : bool,
    types = (if be then [lit "Expenses"] else [])
            ++ (if bs then [lit "Std Hrs"] else [])
            ++ (if bo then [lit "OT1 Hrs"] else []).

(** The types of output lines, read from their descriptions. *)
Definition line_types (L : list (list str)) : list str :=
  map (fun l => line_type (nth 3 l [])) L.


(** * Properties *)

(** ** White space *)

Lemma dropwhile_snoc_keep (p : ascii -> bool) (a : str) (c : ascii) :
  p c = false -> dropwhile p (a ++ [c]) = dropwhile p a ++ [c].
Proof.
  intros Hc. induction a as [|x a IH]; simpl.
  - now rewrite Hc.
  - destruct (p x); [exact IH | reflexivity].
Qed.

Lemma dropwhile_head (p : ascii -> bool) (s : str) :
  match dropwhile p s with [] => True | c :: _ => p c = false end.
Proof.
  induction s as [|x s IH]; simpl; [exact I|].
  destruct (p x) eqn:E; [exact IH | exact E].
Qed.

Lemma dropwhile_id (p : ascii -> bool) (s : str) :
  match s with [] => True | c :: _ => p c = false end -> dropwhile p s = s.
Proof. destruct s as [|c s]; simpl; [reflexivity|]. now intros ->. Qed.

Lemma no_leading_ws_spec (s : str) :
  no_leading_ws s = true <->
  match s with [] => True | c :: _ => isspace c = false end.
Proof.
  destruct s as [|c s]; simpl; [tauto|].
  destruct (isspace c); simpl; split; congruence.
Qed.

Lemma lstrip_no_leading (s : str) : no_leading_ws (lstrip s) = true.
Proof. apply no_leading_ws_spec, dropwhile_head. Qed.

Lemma rstrip_no_trailing (s : str) : no_trailing_ws (rstrip s) = true.
Proof.
  unfold no_trailing_ws, rstrip. rewrite rev_involutive.
  apply no_leading_ws_spec, dropwhile_head.
Qed.

Lemma rstrip_cons_keep (c : ascii) (s : str) :
  isspace c = false -> rstrip (c :: s) = c :: rstrip s.
Proof.
  intros Hc. unfold rstrip. simpl rev.
  rewrite dropwhile_snoc_keep by exact Hc.
  now rewrite rev_app_distr.
Qed.

Lemma rstrip_no_leading (s : str) :
  no_leading_ws s = true -> no_leading_ws (rstrip s) = true.
Proof.
  destruct s as [|c s]; [reflexivity|]. simpl. intros H.
  rewrite rstrip_cons_keep; simpl; destruct (isspace c); easy.
Qed.

Lemma strip_no_leading (s : str) : no_leading_ws (strip s) = true.
Proof. apply rstrip_no_leading, lstrip_no_leading. Qed.

Lemma strip_no_trailing (s : str) : no_trailing_ws (strip s) = true.
Proof. apply rstrip_no_trailing. Qed.

Lemma strip_fixed (s : str) :
  no_leading_ws s = true -> no_trailing_ws s = true -> strip s = s.
Proof.
  intros Hl Ht. unfold strip, lstrip, rstrip.
  rewrite (dropwhile_id isspace s) by now apply no_leading_ws_spec.
  rewrite (dropwhile_id isspace (rev s)) by now apply no_leading_ws_spec.
  apply rev_involutive.
Qed.

Lemma sub_ws_true_no_leading (s : str) : no_leading_ws (sub_ws true s) = true.
Proof.
  induction s as [|c s IH]; simpl; [reflexivity|].
  destruct (isspace c) eqn:E; simpl; [exact IH | now rewrite E].
Qed.

Lemma sub_ws_no_leading (b : bool) (s : str) :
  no_leading_ws s = true -> no_leading_ws (sub_ws b s) = true.
Proof.
  destruct s as [|c s]; simpl; [reflexivity|].
  destruct (isspace c) eqn:E; simpl; [discriminate | now rewrite E].
Qed.

Lemma sub_ws_snoc (b : bool) (u : str) (c : ascii) :
  isspace c = false -> sub_ws b (u ++ [c]) = sub_ws b u ++ [c].
Proof.
  intros Hc. revert b. induction u as [|x u IH]; intros b; simpl.
  - now rewrite Hc.
  - destruct (isspace x); [destruct b|]; simpl; now rewrite IH.
Qed.

Lemma sub_ws_no_trailing (b : bool) (s : str) :
  no_trailing_ws s = true -> no_trailing_ws (sub_ws b s) = true.
Proof.
  unfold no_trailing_ws. intros H.
  destruct (rev s) as [|c u] eqn:E.
  - apply (f_equal (@rev ascii)) in E. rewrite rev_involutive in E.
    subst s. reflexivity.
  - apply (f_equal (@rev ascii)) in E. rewrite rev_involutive in E.
    simpl in E. subst s. simpl in H.
    assert (Hc : isspace c = false) by now destruct (isspace c).
    rewrite sub_ws_snoc by exact Hc.
    rewrite rev_app_distr. simpl. now rewrite Hc.
Qed.

Lemma no_double_ws_cons2 (c d : ascii) (r : str) :
  no_double_ws (c :: d :: r)
  = negb (isspace c && isspace d) && no_double_ws (d :: r).
Proof. reflexivity. Qed.

Lemma sub_ws_no_double (b : bool) (s : str) : no_double_ws (sub_ws b s) = true.
Proof.
  revert b. induction s as [|c s IH]; intros b; [reflexivity|].
  simpl. destruct (isspace c) eqn:E.
  - destruct b; [apply IH|].
    pose proof (sub_ws_true_no_leading s) as Hl. specialize (IH true).
    destruct (sub_ws true s) as [|d r]; [reflexivity|].
    simpl in Hl. rewrite no_double_ws_cons2, IH.
    destruct (isspace d); [discriminate|]. now rewrite andb_false_r.
  - specialize (IH false).
    destruct (sub_ws false s) as [|d r]; [reflexivity|].
    rewrite no_double_ws_cons2, IH. now rewrite E.
Qed.

Lemma sub_ws_true_false (s : str) :
  no_leading_ws s = true -> sub_ws true s = sub_ws false s.
Proof.
  destruct s as [|c s]; simpl; [reflexivity|].
  destruct (isspace c); [discriminate | reflexivity].
Qed.

Lemma sub_ws_fixed (b : bool) (s : str) :
  sub_ws false (sub_ws b s) = sub_ws b s.
Proof.
  revert b. induction s as [|c s IH]; intros b; [reflexivity|].
  simpl. destruct (isspace c) eqn:E.
  - destruct b; [apply IH|].
    change (sub_ws false (" "%char :: sub_ws true s))
      with (" "%char :: sub_ws true (sub_ws true s)).
    rewrite sub_ws_true_false by apply sub_ws_true_no_leading.
    now rewrite IH.
  - simpl. now rewrite E, IH.
Qed.

(** C9: [_norm_spaces] is idempotent, and its result has no leading or
    trailing white space and no two adjacent white-space characters. *)
Theorem norm_spaces_idempotent_clean (s : str) :
  _norm_spaces (_norm_spaces s) = _norm_spaces s
  /\ no_leading_ws (_norm_spaces s) = true
  /\ no_trailing_ws (_norm_spaces s) = true
  /\ no_double_ws (_norm_spaces s) = true.
Proof.
  assert (Hl : no_leading_ws (_norm_spaces s) = true)
    by apply sub_ws_no_leading, strip_no_leading.
  assert (Ht : no_trailing_ws (_norm_spaces s) = true)
    by apply sub_ws_no_trailing, strip_no_trailing.
  repeat split; try assumption.
  - unfold _norm_spaces at 1. rewrite strip_fixed by assumption.
    apply sub_ws_fixed.
  - apply sub_ws_no_double.
Qed.

(** ** The analyser's date normaliser *)

Example parse_date_unvalidated :
  parse_date (lit "99/99/2024") = Some (lit "2024-99-99").
Proof. reflexivity. Qed.

Example parse_date_two_digit_year :
  parse_date (lit " 5/3/25 ") = Some (lit "2025-03-05").
Proof. reflexivity. Qed.

(** C10, as stated, fails: the text "01/2-/2024" has exactly three parts
    between slashes, yet it is ten characters long with a hyphen at index
    4, so the ISO guard returns it unchanged before any splitting. *)
Lemma parse_date_three_parts_counterexample :
  split "/" (strip (lit "01/2-/2024")) = [lit "01"; lit "2-"; lit "2024"]
  /\ parse_date (lit "01/2-/2024") = Some (lit "01/2-/2024")
  /\ parse_date (lit "01/2-/2024")
     <> Some (reassemble (lit "01") (lit "2-") (lit "2024")).
Proof. repeat split; try reflexivity. discriminate. Qed.

(** C10 (amended): [parse_date] returns [None] for the empty text, and for
    a text whose trimmed form is not ISO-shaped and has exactly three parts
    between slashes it returns year-month-day, month and day filled with
    zeros to two characters, a two-character year prefixed with "20", the
    parts not being validated. *)
Theorem parse_date_reassembles (s day month year : str) :
  split "/" (strip s) = [day; month; year] ->
  iso_shaped (strip s) = false ->
  parse_date [] = None
  /\ parse_date s = Some (reassemble day month year).
Proof.
  intros Hsplit Hiso. split; [reflexivity|].
  destruct s as [|c s]; [discriminate Hsplit|].
  unfold parse_date. now rewrite Hiso, Hsplit.
Qed.

Lemma parse_date_reassembles_witness :
  parse_date [] = None
  /\ parse_date (lit "99/99/2024")
     = Some (reassemble (lit "99") (lit "99") (lit "2024")).
Proof.
  apply (parse_date_reassembles (lit "99/99/2024")); reflexivity.
Defined.

(** ** Characters and texts *)

Lemma eqc_eq (a b : ascii) : eqc a b = true <-> a = b.
Proof. apply Ascii.eqb_eq. Qed.

Lemma eqc_refl (a : ascii) : eqc a a = true.
Proof. apply Ascii.eqb_refl. Qed.

Lemma eqs_eq (a b : str) : eqs a b = true <-> a = b.
Proof.
  revert b. induction a as [|x a IH]; intros [|y b]; simpl; try easy.
  rewrite andb_true_iff, eqc_eq, IH.
  split; [intros [-> ->] | intros [= -> ->]]; auto.
Qed.

Lemma eqs_refl (a : str) : eqs a a = true.
Proof. now apply eqs_eq. Qed.

(** A property of characters checked on all 256 of them. *)
Lemma ascii_forall (P : ascii -> bool) :
  forallb P (map ascii_of_nat (seq 0 256)) = true -> forall c, P c = true.
Proof.
  intros H c. rewrite forallb_forall in H. apply H.
  apply in_map_iff. exists (nat_of_ascii c). split.
  - apply ascii_nat_embedding.
  - apply in_seq. pose proof (nat_ascii_bounded c). lia.
Qed.

Lemma dropwhile_all (p : ascii -> bool) (s : str) :
  forallb p s = true -> dropwhile p s = [].
Proof.
  induction s as [|c s IH]; simpl; [reflexivity|].
  destruct (p c); simpl; [exact IH | discriminate].
Qed.

Lemma dropwhile_nil_all (p : ascii -> bool) (s : str) :
  dropwhile p s = [] -> forallb p s = true.
Proof.
  induction s as [|c s IH]; simpl; [reflexivity|].
  destruct (p c); simpl; [exact IH | discriminate].
Qed.



Lemma rstrip_nil_all (s : str) : rstrip s = [] -> forallb isspace s = true.
Proof.
  unfold rstrip. intros H.
  apply (f_equal (@rev ascii)) in H. rewrite rev_involutive in H. simpl in H.
  apply dropwhile_nil_all in H.
  rewrite forallb_forall in *. intros x Hx. apply H. now apply in_rev in Hx.
Qed.


Lemma strip_idempotent (s : str) : strip (strip s) = strip s.
Proof. apply strip_fixed; [apply strip_no_leading | apply strip_no_trailing]. Qed.




(** ** [_parse_decimal] *)


Lemma forallb_rev (P : ascii -> bool) (s : str) :
  forallb P (rev s) = forallb P s.
Proof.
  induction s as [|c s IH]; [reflexivity|].
  simpl. rewrite forallb_app, IH. simpl. rewrite andb_true_r. apply andb_comm.
Qed.



Lemma remove_char_fixed (c : ascii) (s : str) :
  forallb (fun x => negb (eqc c x)) s = true -> remove_char c s = s.
Proof.
  unfold remove_char. induction s as [|x s IH]; [reflexivity|].
  simpl. intros H. apply andb_true_iff in H as [Hx Hs].
  now rewrite Hx, IH.
Qed.


Lemma of_str_nil : Dec.of_str [] = None.
Proof. reflexivity. Qed.




(** ** Plain decimal texts *)

Local Open Scope Z_scope.

Lemma plain_char_facts (c : ascii) :
  plain_char c = true ->
  isspace c = false /\ eqc "," c = false /\ eqc "_" c = false.
Proof.
  intros H.
  pose proof (ascii_forall
    (fun c => implb (plain_char c)
                (negb (isspace c) && negb (eqc "," c) && negb (eqc "_" c)))
    eq_refl c) as F.
  cbv beta in F. rewrite H in F. cbn [implb] in F.
  destruct (isspace c), (eqc "," c), (eqc "_" c); try discriminate F; auto.
Qed.

Lemma isdigit_facts (c : ascii) :
  isdigit c = true ->
  eqc c "-" = false /\ eqc c "+" = false /\ eqc c "." = false
  /\ plain_char c = true.
Proof.
  intros H.
  pose proof (ascii_forall
    (fun c => implb (isdigit c)
                (negb (eqc c "-") && negb (eqc c "+") && negb (eqc c ".")
                 && plain_char c))
    eq_refl c) as F.
  cbv beta in F. rewrite H in F. cbn [implb] in F.
  destruct (eqc c "-"), (eqc c "+"), (eqc c "."), (plain_char c);
    try discriminate F; auto.
Qed.

Lemma forallb_impl (P Q : ascii -> bool) (s : str) :
  (forall c, P c = true -> Q c = true) ->
  forallb P s = true -> forallb Q s = true.
Proof.
  intros HPQ. rewrite !forallb_forall. auto.
Qed.

Lemma strip_plain (t : str) : forallb plain_char t = true -> strip t = t.
Proof.
  intros H.
  assert (Hn : forall u, forallb plain_char u = true -> no_leading_ws u = true).
  { intros [|c u]; simpl; [reflexivity|]. intros Hu.
    apply andb_true_iff in Hu as [Hc _].
    apply plain_char_facts in Hc as [-> _]. reflexivity. }
  apply strip_fixed; [now apply Hn|].
  unfold no_trailing_ws. apply Hn. now rewrite forallb_rev.
Qed.

Lemma remove_plain (c : ascii) (t : str) :
  (c = "," \/ c = "_")%char ->
  forallb plain_char t = true -> remove_char c t = t.
Proof.
  intros Hc H. apply remove_char_fixed. revert H. apply forallb_impl.
  intros x Hx. apply plain_char_facts in Hx as (_ & H1 & H2).
  destruct Hc as [-> | ->]; [now rewrite H1 | now rewrite H2].
Qed.

Lemma span_digits_app (ds r : str) :
  forallb isdigit ds = true ->
  match r with [] => True | c :: _ => isdigit c = false end ->
  Dec.span_digits (ds ++ r) = (ds, r).
Proof.
  intros Hds Hr. induction ds as [|d ds IH]; cbn [app Dec.span_digits].
  - destruct r as [|c r]; [reflexivity|].
    cbn [Dec.span_digits]. now rewrite Hr.
  - cbn [forallb] in Hds. apply andb_true_iff in Hds as [Hd Hds].
    now rewrite Hd, IH.
Qed.

Lemma span_digits_all (ds : str) :
  forallb isdigit ds = true -> Dec.span_digits ds = (ds, []).
Proof.
  intros H. rewrite <- (app_nil_r ds) at 1. now apply span_digits_app.
Qed.

(** The text of a sign, digits and an optional fraction parses to the
    number it writes. *)
Lemma parse_decimal_plain (s : bool) (ip fp : str) :
  forallb isdigit ip = true -> forallb isdigit fp = true -> ip <> [] ->
  _parse_decimal
    (Dec.sign_text s ++ ip ++ match fp with [] => [] | _ => lit "." ++ fp end)
  = Dec.Finite s (Dec.strip_leading_zeros (ip ++ fp)) (- Dec.len fp).
Proof.
  intros Hip Hfp Hne.
  set (tail := match fp with [] => [] | _ => lit "." ++ fp end).
  assert (Hplain_ds : forall u, forallb isdigit u = true ->
                                forallb plain_char u = true).
  { intros u. apply forallb_impl. intros c Hc. now apply isdigit_facts in Hc. }
  assert (Htail : forallb plain_char tail = true).
  { unfold tail. destruct fp; [reflexivity|].
    rewrite forallb_app, (Hplain_ds _ Hfp). reflexivity. }
  assert (Hplain : forallb plain_char (Dec.sign_text s ++ ip ++ tail) = true).
  { rewrite !forallb_app, (Hplain_ds _ Hip), Htail. now destruct s. }
  unfold _parse_decimal. rewrite (strip_plain _ Hplain).
  rewrite (remove_plain "," _ (or_introl eq_refl) Hplain).
  unfold Dec.of_str. rewrite (strip_plain _ Hplain).
  rewrite (remove_plain "_" _ (or_intror eq_refl) Hplain).
  destruct ip as [|d ip]; [congruence|]. clear Hne.
  pose proof Hip as Hip'. simpl in Hip'.
  apply andb_true_iff in Hip' as [Hd _].
  destruct (isdigit_facts d Hd) as (Hm & Hp & _ & _).
  assert (Hpf : Dec.parse_finite s ((d :: ip) ++ tail)
                = Some (Dec.Finite s (Dec.strip_leading_zeros ((d :: ip) ++ fp))
                          (- Dec.len fp))).
  { unfold Dec.parse_finite.
    rewrite (span_digits_app (d :: ip) tail Hip).
    2:{ unfold tail. destruct fp; [exact I | reflexivity]. }
    unfold tail. destruct fp as [|f fp].
    - rewrite app_nil_r. reflexivity.
    - change (lit "." ++ f :: fp) with ("."%char :: f :: fp).
      cbv beta iota. change (eqc "." ".") with true. cbv iota.
      rewrite (span_digits_all _ Hfp). reflexivity. }
  destruct s.
  - change (Dec.sign_text true ++ (d :: ip) ++ tail)
      with ("-"%char :: (d :: ip) ++ tail).
    cbv beta iota. rewrite eqc_refl. rewrite Hpf.
    destruct (Dec.sign_text true ++ (d :: ip) ++ tail) eqn:E; [discriminate E|].
    reflexivity.
  - change (Dec.sign_text false ++ (d :: ip) ++ tail)
      with (d :: ip ++ tail).
    cbv beta iota. rewrite Hm, Hp.
    change (d :: ip ++ tail) with ((d :: ip) ++ tail). rewrite Hpf.
    reflexivity.
Qed.
(** ** Normalisation of a representable number *)

Local Open Scope Z_scope.

Lemma zeros_nonpos (n : Z) : n <= 0 -> Dec.zeros n = [].
Proof.
  intros H. unfold Dec.zeros.
  replace (Z.to_nat n) with O by lia. reflexivity.
Qed.

Lemma zeros_add (a b : Z) :
  0 <= a -> 0 <= b -> Dec.zeros (a + b) = Dec.zeros a ++ Dec.zeros b.
Proof.
  intros Ha Hb. unfold Dec.zeros.
  rewrite Z2Nat.inj_add by assumption. apply repeat_app.
Qed.

Lemma zeros_of_nat (k : nat) : Dec.zeros (Z.of_nat k) = repeat "0"%char k.
Proof. unfold Dec.zeros. now rewrite Nat2Z.id. Qed.

Lemma len_app (a b : str) : Dec.len (a ++ b) = Dec.len a + Dec.len b.
Proof. unfold Dec.len. rewrite length_app. lia. Qed.

Lemma len_zeros (n : Z) : 0 <= n -> Dec.len (Dec.zeros n) = n.
Proof. intros H. unfold Dec.len, Dec.zeros. rewrite repeat_length. lia. Qed.

Lemma len_nonneg (a : str) : 0 <= Dec.len a.
Proof. unfold Dec.len. lia. Qed.

(** A well-formed coefficient other than "0" starts with a digit that is
    not zero. *)
Lemma wf_nonzero_head (s : bool) (c : str) (e : Z) :
  Dec.wf_coeff c = true -> Dec.nonzero (Dec.Finite s c e) = true ->
  exists x r, c = x :: r /\ eqc x "0" = false /\ forallb isdigit c = true.
Proof.
  unfold Dec.wf_coeff, Dec.nonzero. intros Hwf Hnz.
  apply andb_true_iff in Hwf as [Hd Hh].
  destruct c as [|x r]; [discriminate|].
  exists x, r. repeat split; [|exact Hd].
  destruct (eqc x "0") eqn:E; [|reflexivity].
  simpl in Hh. apply eqs_eq in Hh. subst r.
  apply eqc_eq in E. subst x. discriminate Hnz.
Qed.

Lemma nonzero_head (s : bool) (x : ascii) (r : str) (e : Z) :
  eqc x "0" = false -> Dec.nonzero (Dec.Finite s (x :: r) e) = true.
Proof.
  intros H. unfold Dec.nonzero.
  change (lit "0") with [ "0"%char ]. cbn [eqs]. now rewrite H.
Qed.

Lemma fix_unchanged (s : bool) (c : str) (e : Z) :
  Dec.nonzero (Dec.Finite s c e) = true ->
  Dec.len c <= Dec.prec -> Dec.Etiny <= e -> Dec.adjusted c e <= Dec.Emax ->
  Dec._fix (Dec.Finite s c e) = Ok (Dec.Finite s c e).
Proof.
  intros Hnz Hlen Hlo Hhi. unfold Dec._fix. rewrite Hnz. cbn [negb].
  unfold Dec.adjusted, Dec.Etop, Dec.Etiny, Dec.Emin, Dec.Emax, Dec.prec in *.
  destruct (Z.ltb_spec (999999 - 28 + 1) (Dec.len c + e - 28)); [lia|].
  destruct (Z.ltb_spec (Dec.len c + e - 28) (-999999 - 28 + 1)).
  - destruct (Z.ltb_spec e (-999999 - 28 + 1)); [lia | reflexivity].
  - destruct (Z.ltb_spec e (Dec.len c + e - 28)); [lia | reflexivity].
Qed.

Lemma drop_trailing_zeros_spec (rc : str) (e : Z) :
  exists k : nat,
    rc = repeat "0"%char k ++ fst (Dec.drop_trailing_zeros rc e)
    /\ snd (Dec.drop_trailing_zeros rc e) = e + Z.of_nat k
    /\ match fst (Dec.drop_trailing_zeros rc e) with
       | [] => True
       | x :: _ => eqc x "0" = false
                   \/ Dec.Emax <= snd (Dec.drop_trailing_zeros rc e)
       end.
Proof.
  revert e. induction rc as [|x r IH]; intros e.
  - exists O. simpl. repeat split. lia.
  - cbn [Dec.drop_trailing_zeros].
    destruct (eqc x "0") eqn:Ex; cbn [andb].
    + destruct (Z.ltb_spec e Dec.Emax) as [Hlt|Hge].
      * destruct (IH (e + 1)) as (k & H1 & H2 & H3).
        exists (S k). apply eqc_eq in Ex. subst x. repeat split.
        -- cbn [repeat app]. now rewrite <- H1.
        -- rewrite H2. lia.
        -- exact H3.
      * exists O. cbn [fst snd repeat app]. repeat split; [lia|now right].
    + exists O. cbn [fst snd repeat app]. repeat split; [lia|now left].
Qed.

(** [normalize] on a representable number other than zero only moves
    trailing zeros of the coefficient into the exponent. *)
Lemma normalize_representable (s : bool) (c : str) (e : Z) :
  Dec.wf_coeff c = true -> Dec.nonzero (Dec.Finite s c e) = true ->
  Dec.len c <= Dec.prec -> Dec.Etiny <= e -> Dec.adjusted c e <= Dec.Emax ->
  exists (c' : str) (k : nat),
    Dec.normalize (Dec.Finite s c e) = Ok (Dec.Finite s c' (e + Z.of_nat k))
    /\ c = c' ++ repeat "0"%char k
    /\ (exists x r, c' = x :: r /\ eqc x "0" = false)
    /\ forallb isdigit c' = true
    /\ (e + Z.of_nat k < 0 ->
        exists y u, c' = u ++ [y] /\ eqc y "0" = false).
Proof.
  intros Hwf Hnz Hlen Hlo Hhi.
  destruct (wf_nonzero_head s c e Hwf Hnz) as (x & r & Hc & Hx & Hd).
  unfold Dec.normalize. rewrite (fix_unchanged s c e Hnz Hlen Hlo Hhi).
  cbn [bind]. rewrite Hnz. cbn [negb].
  destruct (drop_trailing_zeros_spec (rev c) e) as (k & H1 & H2 & H3).
  destruct (Dec.drop_trailing_zeros (rev c) e) as [rc e'] eqn:E.
  cbn [fst snd] in *. subst e'.
  exists (rev rc), k.
  assert (Hcc : c = rev rc ++ repeat "0"%char k).
  { apply (f_equal (@rev ascii)) in H1.
    rewrite rev_involutive, rev_app_distr, rev_repeat in H1. exact H1. }
  assert (Hdig : forallb isdigit (rev rc) = true).
  { rewrite Hcc, forallb_app in Hd. now apply andb_true_iff in Hd as [? _]. }
  repeat split; try assumption.
  - destruct (rev rc) as [|y u] eqn:R.
    + exfalso. rewrite Hc in Hcc. cbn [app] in Hcc.
      destruct k; [discriminate Hcc|]. cbn [repeat] in Hcc.
      injection Hcc as -> _. discriminate Hx.
    + exists y, u. split; [reflexivity|].
      rewrite Hc in Hcc. injection Hcc as -> _. exact Hx.
  - intros Hneg. destruct rc as [|y u].
    + exfalso. rewrite Hc in Hcc. cbn [rev app] in Hcc.
      destruct k; [discriminate Hcc|]. cbn [repeat] in Hcc.
      injection Hcc as -> _. discriminate Hx.
    + exists y, (rev u). split; [reflexivity|].
      destruct H3 as [H3|H3]; [exact H3|].
      unfold Dec.Emax in H3. lia.
Qed.
(** ** Formatting a normalised number *)

Local Open Scope Z_scope.

Lemma eqc_sym (a b : ascii) : eqc a b = eqc b a.
Proof. apply Ascii.eqb_sym. Qed.

Lemma strip_leading_zeros_head (k : nat) (x : ascii) (r : str) :
  eqc x "0" = false ->
  Dec.strip_leading_zeros (repeat "0"%char k ++ x :: r) = x :: r.
Proof.
  intros Hx. unfold Dec.strip_leading_zeros.
  induction k as [|k IH]; cbn [repeat app dropwhile].
  - now rewrite eqc_sym, Hx.
  - exact IH.
Qed.

Lemma rstrip_char_keep (c y : ascii) (u : str) :
  eqc c y = false -> rstrip_char c (u ++ [y]) = u ++ [y].
Proof.
  intros H. unfold rstrip_char. rewrite rev_app_distr. cbn [rev app dropwhile].
  rewrite H. change (y :: rev u) with (rev [y] ++ rev u).
  now rewrite <- rev_app_distr, rev_involutive.
Qed.

Lemma has_char_digits (c : ascii) (ds : str) :
  isdigit c = false -> forallb isdigit ds = true -> has_char c ds = false.
Proof.
  intros Hc. unfold has_char. induction ds as [|d ds IH]; [reflexivity|].
  cbn [forallb existsb]. intros H. apply andb_true_iff in H as [Hd Hds].
  rewrite (IH Hds), orb_false_r.
  destruct (eqc c d) eqn:E; [|reflexivity].
  apply eqc_eq in E. congruence.
Qed.

(** What [_fmt_decimal] does to the text after [format]. *)
Lemma fmt_post_plain (s : bool) (ip fp : str) :
  forallb isdigit ip = true -> forallb isdigit fp = true -> ip <> [] ->
  (fp = [] \/ exists u y, fp = u ++ [y] /\ eqc y "0" = false) ->
  let t := Dec.sign_text s ++ ip
           ++ match fp with [] => [] | _ => lit "." ++ fp end in
  let s := if has_char "." t then rstrip_char "." (rstrip_char "0" t) else t in
  match s with
  | [] => lit "0"
  | _ => s
  end = t.
Proof.
  intros Hip Hfp Hne Hlast t. cbv zeta.
  assert (Hnil : t <> []).
  { unfold t. destruct s, ip; try congruence; discriminate. }
  destruct Hlast as [-> | (u & y & -> & Hy)].
  - assert (Hno : has_char "." t = false).
    { unfold t, has_char. rewrite app_nil_r, existsb_app.
      fold (has_char "." ip). rewrite (has_char_digits "." ip eq_refl Hip).
      now destruct s. }
    rewrite Hno. destruct t; [congruence | reflexivity].
  - assert (Hdy : isdigit y = true).
    { rewrite forallb_app in Hfp. apply andb_true_iff in Hfp as [_ Hy'].
      cbn [forallb] in Hy'. now rewrite andb_true_r in Hy'. }
    assert (Ht : t = (Dec.sign_text s ++ ip ++ lit "." ++ u) ++ [y]).
    { unfold t. destruct (u ++ [y]) eqn:E; [now destruct u|].
      rewrite <- E. now rewrite <- !app_assoc. }
    assert (Hdot : eqc "." y = false).
    { rewrite eqc_sym. now apply isdigit_facts in Hdy. }
    assert (Hhas : has_char "." t = true).
    { rewrite Ht. unfold has_char. rewrite !existsb_app.
      change (existsb (eqc ".") (lit ".")) with true.
      cbn [orb]. now rewrite !orb_true_r. }
    rewrite Hhas, Ht.
    rewrite (rstrip_char_keep "0" y) by now rewrite eqc_sym.
    rewrite (rstrip_char_keep "." y) by exact Hdot.
    destruct ((Dec.sign_text s ++ ip ++ lit "." ++ u) ++ [y]) eqn:E;
      [|reflexivity].
    now destruct (Dec.sign_text s ++ ip ++ lit "." ++ u).
Qed.
Local Open Scope Z_scope.

Lemma forallb_zeros (n : Z) : forallb isdigit (Dec.zeros n) = true.
Proof.
  unfold Dec.zeros. induction (Z.to_nat n) as [|k IH]; [reflexivity|].
  cbn [repeat forallb]. now rewrite IH.
Qed.

(** The text [format(d, "f")] writes for a normalised number: a sign, an
    integer part and a fraction that, when present, does not end in a zero
    digit. *)
Lemma format_f_shape (s : bool) (c : str) (e : Z) :
  (exists x r, c = x :: r /\ eqc x "0" = false) ->
  forallb isdigit c = true ->
  (e < 0 -> exists y u, c = u ++ [y] /\ eqc y "0" = false) ->
  exists ip fp : str,
    Dec.format_f (Dec.Finite s c e)
    = Dec.sign_text s ++ ip ++ match fp with [] => [] | _ => lit "." ++ fp end
    /\ forallb isdigit ip = true /\ forallb isdigit fp = true /\ ip <> []
    /\ (fp = [] \/ exists u y, fp = u ++ [y] /\ eqc y "0" = false)
    /\ ((Dec.strip_leading_zeros (ip ++ fp) = c /\ - Dec.len fp = e)
        \/ (0 < e /\ fp = [] /\ ip = c ++ Dec.zeros e)).
Proof.
  intros (x & r & Hc & Hx) Hd Hlast.
  assert (Hnz : Dec.nonzero (Dec.Finite s c e) = true)
    by (rewrite Hc; now apply nonzero_head).
  assert (Hlen : 0 < Dec.len c) by (rewrite Hc; unfold Dec.len; simpl; lia).
  unfold Dec.format_f. rewrite Hnz. cbn [negb andb].
  destruct (Z.ltb_spec (e + Dec.len c) 0) as [H1|H1].
  - (* the point lies left of the digits *)
    exists (lit "0"), (Dec.zeros (- (e + Dec.len c)) ++ c).
    destruct (Hlast ltac:(lia)) as (y & u & Hu & Hy).
    repeat split.
    + rewrite forallb_app, forallb_zeros. exact Hd.
    + discriminate.
    + right. exists (Dec.zeros (- (e + Dec.len c)) ++ u), y.
      split; [|exact Hy]. rewrite <- app_assoc. f_equal. exact Hu.
    + left. split.
      * rewrite Hc. unfold Dec.zeros.
        change (lit "0" ++ repeat "0"%char (Z.to_nat (- (e + Dec.len (x :: r))))
                ++ x :: r)
          with (repeat "0"%char (S (Z.to_nat (- (e + Dec.len (x :: r)))))
                ++ x :: r).
        now apply strip_leading_zeros_head.
      * rewrite len_app, len_zeros by lia. lia.
  - destruct (Z.ltb_spec (Dec.len c) (e + Dec.len c)) as [H2|H2].
    + (* the point lies right of the digits *)
      exists (c ++ Dec.zeros (e + Dec.len c - Dec.len c)), [].
      repeat split.
      * rewrite forallb_app, forallb_zeros. now rewrite Hd.
      * rewrite Hc. discriminate.
      * now left.
      * right. repeat split; [lia|]. f_equal. f_equal. lia.
    + (* the point lies within the digits *)
      set (n := Z.to_nat (e + Dec.len c)).
      assert (Hn : (n <= length c)%nat) by (unfold Dec.len in *; lia).
      assert (Hdf : forallb isdigit (firstn n c) = true
                    /\ forallb isdigit (skipn n c) = true).
      { rewrite <- (firstn_skipn n c), forallb_app in Hd.
        now apply andb_true_iff in Hd. }
      destruct Hdf as [Hdf Hds].
      assert (Hfrac : - Dec.len (skipn n c) = e).
      { unfold Dec.len in *. rewrite length_skipn. lia. }
      assert (Hfl : skipn n c = []
                    \/ exists u y, skipn n c = u ++ [y] /\ eqc y "0" = false).
      { destruct (Nat.eq_dec n (length c)) as [En|En].
        - left. rewrite En. apply skipn_all.
        - right. assert (He : e < 0) by (unfold Dec.len in *; lia).
          destruct (Hlast He) as (y & u & Hu & Hy).
          exists (skipn n u), y. split; [|exact Hy].
          rewrite Hu, skipn_app.
          assert (Hlu : length c = S (length u))
            by (rewrite Hu, length_app; simpl; lia).
          replace (n - length u)%nat with O by lia. reflexivity. }
      destruct n as [|m] eqn:En.
      * exists (lit "0"), c. cbn [firstn skipn] in *.
        repeat split; try assumption; [discriminate|].
        left. split; [|exact Hfrac].
        rewrite Hc. now apply (strip_leading_zeros_head 1).
      * exists (firstn (S m) c), (skipn (S m) c).
        assert (Hf : firstn (S m) c <> []) by (rewrite Hc; discriminate).
        repeat split; try assumption.
        -- destruct (firstn (S m) c); [congruence | reflexivity].
        -- left. split; [|exact Hfrac].
           rewrite firstn_skipn, Hc.
           now apply (strip_leading_zeros_head 0).
Qed.
(** ** The round trip through text *)

Local Open Scope Z_scope.

Lemma eq_same_padding (s : bool) (c1 c2 : str) (e1 e2 : Z) :
  Dec.nonzero (Dec.Finite s c1 e1) = true ->
  Dec.nonzero (Dec.Finite s c2 e2) = true ->
  c1 ++ Dec.zeros (e1 - e2) = c2 ++ Dec.zeros (e2 - e1) ->
  Dec.eq (Dec.Finite s c1 e1) (Dec.Finite s c2 e2) = Ok true.
Proof.
  intros H1 H2 Hpad.
  assert (Hadj : Dec.adjusted c1 e1 = Dec.adjusted c2 e2).
  { apply (f_equal Dec.len) in Hpad. rewrite !len_app in Hpad.
    unfold Dec.adjusted.
    destruct (Z.le_gt_cases e2 e1).
    - rewrite (len_zeros (e1 - e2)), (zeros_nonpos (e2 - e1)) in Hpad by lia.
      unfold Dec.len in *. simpl in Hpad. lia.
    - rewrite (zeros_nonpos (e1 - e2)), (len_zeros (e2 - e1)) in Hpad by lia.
      unfold Dec.len in *. simpl in Hpad. lia. }
  unfold Dec.eq. cbn [Dec.is_snan Dec.is_nan orb]. f_equal.
  unfold Dec._cmp. rewrite H1, H2. cbn [negb].
  replace (negb s && s) with false by now destruct s.
  rewrite Hadj, Z.eqb_refl, Hpad, eqs_refl. reflexivity.
Qed.

(** The text [_fmt_decimal] writes for a representable number other than
    zero: a sign, digits and an optional fraction, which read as the same
    number up to the zeros at the end of the coefficient. *)
Lemma fmt_shape (s : bool) (c : str) (e : Z) :
  Dec.wf_coeff c = true -> Dec.nonzero (Dec.Finite s c e) = true ->
  Dec.len c <= Dec.prec -> Dec.Etiny <= e -> Dec.adjusted c e <= Dec.Emax ->
  exists ip fp : str,
    _fmt_decimal (Dec.Finite s c e)
    = Ok (Dec.sign_text s ++ ip
          ++ match fp with [] => [] | _ => lit "." ++ fp end)
    /\ forallb isdigit ip = true /\ forallb isdigit fp = true /\ ip <> []
    /\ Dec.nonzero
         (Dec.Finite s (Dec.strip_leading_zeros (ip ++ fp)) (- Dec.len fp))
       = true
    /\ Dec.strip_leading_zeros (ip ++ fp) ++ Dec.zeros (- Dec.len fp - e)
       = c ++ Dec.zeros (e - - Dec.len fp).
Proof.
  intros Hwf Hnz Hlen Hlo Hhi.
  destruct (normalize_representable s c e Hwf Hnz Hlen Hlo Hhi)
    as (c' & k & Hnorm & Hc & Hhead & Hdig & Hlast).
  destruct (format_f_shape s c' (e + Z.of_nat k) Hhead Hdig Hlast)
    as (ip & fp & Hfmt & Hip & Hfp & Hne & Hfl & Hval).
  exists ip, fp. split; [|repeat split; try assumption].
  - unfold _fmt_decimal. rewrite Hnorm. cbn [bind]. rewrite Hfmt.
    f_equal. now apply (fmt_post_plain s ip fp).
  - destruct Hhead as (x & r & Hc' & Hx).
    destruct Hval as [[Hs He] | (Hpos & -> & ->)].
    + rewrite Hs, Hc'. now apply nonzero_head.
    + rewrite app_nil_r, Hc'.
      change ((x :: r) ++ Dec.zeros (e + Z.of_nat k))
        with (repeat "0"%char 0 ++ x :: (r ++ Dec.zeros (e + Z.of_nat k))).
      rewrite (strip_leading_zeros_head 0 x _ Hx). now apply nonzero_head.
  - destruct Hhead as (x & r & Hc' & Hx).
    destruct Hval as [[Hs He] | (Hpos & -> & ->)].
    + rewrite Hs, He.
      replace (e + Z.of_nat k - e) with (Z.of_nat k) by lia.
      rewrite zeros_of_nat, (zeros_nonpos (e - (e + Z.of_nat k))) by lia.
      now rewrite app_nil_r, Hc.
    + rewrite app_nil_r.
      assert (Hs : Dec.strip_leading_zeros (c' ++ Dec.zeros (e + Z.of_nat k))
                   = c' ++ Dec.zeros (e + Z.of_nat k)).
      { rewrite Hc'. now apply (strip_leading_zeros_head 0). }
      rewrite Hs. change (- Dec.len []) with 0.
      rewrite Hc, <- !app_assoc. f_equal.
      rewrite <- zeros_of_nat.
      destruct (Z.le_gt_cases 0 e).
      * rewrite (zeros_nonpos (0 - e)), app_nil_r by lia.
        replace (e - 0) with e by lia.
        rewrite <- zeros_add by lia. f_equal. lia.
      * rewrite (zeros_nonpos (e - 0)), app_nil_r by lia.
        rewrite <- zeros_add by lia. f_equal. lia.
Qed.

(** A representable decimal comes back from its text. *)
Lemma roundtrip_representable (d : Dec.decimal) :
  Dec.representable d = true ->
  exists t : str,
    _fmt_decimal d = Ok t /\ Dec.eq (_parse_decimal t) d = Ok true.
Proof.
  destruct d as [s c e | s | sg s p]; cbn [Dec.representable];
    [| intros _ | discriminate].
  - intros H. apply andb_true_iff in H as [Hwf H].
    destruct (Dec.nonzero (Dec.Finite s c e)) eqn:Hnz; cbn [negb orb] in H.
    + (* a number other than zero *)
      apply andb_true_iff in H as [H Hhi]. apply andb_true_iff in H as [Hlen Hlo].
      apply Z.leb_le in Hlen, Hlo, Hhi.
      destruct (fmt_shape s c e Hwf Hnz Hlen Hlo Hhi)
        as (ip & fp & Hfmt & Hip & Hfp & Hne & Hnz' & Hpad).
      eexists. split; [exact Hfmt|].
      rewrite (parse_decimal_plain s ip fp Hip Hfp Hne).
      now apply eq_same_padding.
    + (* a zero, of either sign and any exponent *)
      assert (Hc : c = lit "0").
      { unfold Dec.nonzero in Hnz. apply negb_false_iff in Hnz.
        now apply eqs_eq in Hnz. }
      subst c. exists (Dec.sign_text s ++ lit "0"). split.
      * unfold _fmt_decimal, Dec.normalize, Dec._fix. rewrite Hnz. cbn [negb].
        destruct (Z.min (Z.max e Dec.Etiny) Dec.Emax =? e); now destruct s.
      * now destruct s.
  - exists (Dec.sign_text s ++ lit "Infinity"). now destruct s.
Qed.

(** C5 (amended): for every zero, every infinity and every finite decimal
    of at most 28 digits whose exponent is at least Etiny and whose
    adjusted exponent is at most Emax, [_fmt_decimal] returns a text and
    [_parse_decimal] of that text equals the decimal. *)
Theorem fmt_parse_roundtrip (d : Dec.decimal) :
  Dec.representable d = true ->
  exists t : str,
    _fmt_decimal d = Ok t /\ Dec.eq (_parse_decimal t) d = Ok true.
Proof. apply roundtrip_representable. Qed.

Lemma fmt_parse_roundtrip_witness :
  exists t : str,
    _fmt_decimal (Dec.Finite false (lit "2550") (-2)) = Ok t
    /\ Dec.eq (_parse_decimal t) (Dec.Finite false (lit "2550") (-2)) = Ok true.
Proof.
  apply (fmt_parse_roundtrip (Dec.Finite false (lit "2550") (-2))).
  reflexivity.
Defined.

(** C5, as stated, fails: a decimal of thirty significant digits, which
    [_parse_decimal] builds from its text without rounding, is rounded to
    the context's 28 digits by [normalize], so the text that comes back
    parses to a different number. *)
Lemma fmt_parse_roundtrip_counterexample :
  let d := Dec.Finite false (lit "100000000000000000000000000001") (-29) in
  _parse_decimal (lit "1.00000000000000000000000000001") = d
  /\ _fmt_decimal d = Ok (lit "1")
  /\ Dec.eq (_parse_decimal (lit "1")) d = Ok false.
Proof. repeat split; vm_compute; reflexivity. Qed.

(** A quiet NaN is another: it formats to "NaN", and no NaN equals
    anything. *)
Example fmt_parse_nan :
  _fmt_decimal (Dec.NaN false false []) = Ok (lit "NaN")
  /\ Dec.eq (_parse_decimal (lit "NaN")) (Dec.NaN false false []) = Ok false.
Proof. split; reflexivity. Qed.

(** ** The week-ending normaliser *)

Example parse_weekending_two_digit :
  _parse_weekending (lit "05/03/25") = lit "2025-03-05".
Proof. reflexivity. Qed.

Example parse_weekending_iso :
  _parse_weekending (lit "2024-12-31") = lit "2024-12-31".
Proof. reflexivity. Qed.

Example parse_weekending_passthrough :
  _parse_weekending (lit "  not a date ") = lit "not a date".
Proof. reflexivity. Qed.

(** The day/month/four-digit-year reading is tried first and wins. *)
Lemma parse_weekending_first_format (s : str) (d : Cal.date) :
  Cal.strptime_dmY (strip s) = Some d ->
  _parse_weekending s = Cal.isoformat d.
Proof.
  intros H. unfold _parse_weekending. rewrite H.
  destruct (strip s); [discriminate H | reflexivity].
Qed.

(** When no reading applies the trimmed text comes back unchanged. *)
Lemma parse_weekending_fallback (s : str) :
  Cal.strptime_dmY (strip s) = None -> Cal.strptime_dmy (strip s) = None ->
  Cal.fromisoformat (strip s) = None ->
  _parse_weekending s = strip s.
Proof.
  intros H1 H2 H3. unfold _parse_weekending. rewrite H1, H2, H3.
  now destruct (strip s).
Qed.

(** The pivot of [%y], on the fifth of March of every two-digit year: up
    to 68 the year is 20YY, from 69 on it is 19YY. *)
Lemma parse_weekending_pivot :
  forallb
    (fun yy : Z =>
       eqs (_parse_weekending
              (lit "05/03/" ++ [Cal.digit_char (yy / 10); Cal.digit_char yy]))
           (Cal.isoformat
              (Cal.Date (if yy <=? 68 then 2000 + yy else 1900 + yy) 3 5)))
    (map Z.of_nat (seq 0 100)) = true.
Proof. vm_compute. reflexivity. Qed.

(** C4: the formats are tried in the stated order and an unmatched text
    comes back trimmed, but a two-digit year does not always expand into
    the 2000s: "05/03/69" becomes 1969-03-05, where the analyser's
    [parse_date] gives 2069-03-05. *)
Theorem parse_weekending_year_69 :
  _parse_weekending (lit "05/03/69") = lit "1969-03-05"
  /\ parse_date (lit "05/03/69") = Some (lit "2069-03-05")
  /\ _parse_weekending (lit "05/03/68") = lit "2068-03-05".
Proof. repeat split; reflexivity. Qed.

(** ** The conversion engine *)

Local Open Scope Z_scope.

Lemma ne0_representable (d : Dec.decimal) :
  Dec.representable d = true -> ne0 d = Ok (Dec.nonzero d).
Proof.
  destruct d as [s c e | s | sg s p]; cbn [Dec.representable];
    [intros _ | intros _ | discriminate].
  - unfold ne0, Dec.ne, Dec.eq. cbn [Dec.is_snan Dec.is_nan orb bind].
    f_equal. unfold Dec._cmp.
    destruct (Dec.nonzero (Dec.Finite s c e)); cbn [negb].
    + change (Dec.nonzero Dec.zero) with false. cbn [negb]. now destruct s.
    + reflexivity.
  - now destruct s.
Qed.

Lemma hours_lines_spec (prefix : str) (ident : list str)
    (client job weekending : str) (hours rate : Dec.decimal) :
  Dec.representable hours = true -> Dec.representable rate = true ->
  exists L, hours_lines prefix ident client job hours rate weekending = Ok L
            /\ hours_part prefix ident client job weekending hours rate L.
Proof.
  intros Hh Hr. unfold hours_lines, hours_part.
  rewrite (ne0_representable _ Hh). cbn [bind].
  destruct (Dec.nonzero hours); cbn [andb].
  - rewrite (ne0_representable _ Hr). cbn [bind].
    destruct (Dec.nonzero rate).
    + destruct (roundtrip_representable _ Hh) as (a & Ha & Hae).
      destruct (roundtrip_representable _ Hr) as (b & Hb & Hbe).
      rewrite Ha, Hb. cbn [bind]. eexists. split; [reflexivity|].
      exists a, b. auto.
    + eexists. split; reflexivity.
  - cbn [bind]. eexists. split; reflexivity.
Qed.

(** C3 (amended): for a row that passes the validity check and whose
    numeric columns hold decimals the context keeps unrounded,
    [convert_rows] returns, in this order, the Expenses line exactly when
    the expenses are not zero (amount "1", rate the expenses value), the
    Std Hrs line exactly when standard hours and rate are both not zero,
    and the OT1 Hrs line exactly when overtime hours and rate are both not
    zero, each with the hours as amount and the rate as rate. *)
Theorem convert_rows_lines (r : row) :
  valid_detail_row r = true -> numeric_ok r = true ->
  let ident := [_norm_spaces (get_col r "Candidate RefNo");
                _norm_spaces (get_col r "Candidate Forename");
                _norm_spaces (get_col r "Candidate Surname")] in
  let client := get_col r "Client Name" in
  let job := get_col r "Contract JobTitle" in
  let weekending := _parse_weekending (get_col r "Weekending") in
  exists E S O : list (list str),
    convert_rows [r] = Ok (E ++ S ++ O)
    /\ expense_part ident client job weekending
         (_parse_decimal (get_col r "Expenses")) E
    /\ hours_part (lit "Std Hrs") ident client job weekending
         (_parse_decimal (get_col r "Std1 Hrs"))
         (_parse_decimal (get_col r "Std Rate")) S
    /\ hours_part (lit "OT1 Hrs") ident client job weekending
         (_parse_decimal (get_col r "OT1 Hrs"))
         (_parse_decimal (get_col r "OT1 Rate")) O.
Proof.
  intros Hvalid Hnum. cbv zeta.
  set (ident := [_norm_spaces (get_col r "Candidate RefNo");
                 _norm_spaces (get_col r "Candidate Forename");
                 _norm_spaces (get_col r "Candidate Surname")]).
  set (client := get_col r "Client Name").
  set (job := get_col r "Contract JobTitle").
  set (weekending := _parse_weekending (get_col r "Weekending")).
  unfold valid_detail_row in Hvalid. cbv zeta in Hvalid.
  apply andb_true_iff in Hvalid as [Hgate Hhdr].
  apply negb_true_iff in Hgate, Hhdr.
  unfold numeric_ok in Hnum. cbn [forallb] in Hnum.
  apply andb_true_iff in Hnum as [Hsh Hnum].
  apply andb_true_iff in Hnum as [Hoh Hnum].
  apply andb_true_iff in Hnum as [Hsr Hnum].
  apply andb_true_iff in Hnum as [Hor Hnum].
  apply andb_true_iff in Hnum as [He _].
  destruct (hours_lines_spec (lit "Std Hrs") ident client job weekending
              _ _ Hsh Hsr) as (S & HS & HSp).
  destruct (hours_lines_spec (lit "OT1 Hrs") ident client job weekending
              _ _ Hoh Hor) as (O & HO & HOp).
  assert (HE : exists E,
             (do e <- ne0 (_parse_decimal (get_col r "Expenses"));
              if e then
                do x <- _fmt_decimal (_parse_decimal (get_col r "Expenses"));
                Ok [ident ++ [_desc (lit "Expenses") client job; lit "1"; x;
                              weekending; lit "expense"]]
              else Ok []) = Ok E
             /\ expense_part ident client job weekending
                  (_parse_decimal (get_col r "Expenses")) E).
  { unfold expense_part. rewrite (ne0_representable _ He). cbn [bind].
    destruct (Dec.nonzero (_parse_decimal (get_col r "Expenses"))).
    - destruct (roundtrip_representable _ He) as (x & Hx & Hxe).
      rewrite Hx. cbn [bind]. eexists. split; [reflexivity|]. exists x. auto.
    - eexists. split; reflexivity. }
  destruct HE as (E & HE & HEp).
  exists E, S, O. split; [|auto].
  cbn [convert_rows]. unfold convert_row. cbv zeta.
  fold weekending in Hgate. fold ident client job weekending.
  rewrite Hgate, Hhdr.
  unfold bind at 1 in HE.
  destruct (ne0 (_parse_decimal (get_col r "Expenses"))) as [e|x];
    [|discriminate HE].
  cbn [bind] in *. rewrite HE. cbn [bind]. rewrite HS, HO. cbn [bind].
  now rewrite app_nil_r.
Qed.

Lemma convert_rows_lines_witness :
  exists E S O : list (list str),
    convert_rows [sample_row] = Ok (E ++ S ++ O)
    /\ expense_part
         [_norm_spaces (get_col sample_row "Candidate RefNo");
          _norm_spaces (get_col sample_row "Candidate Forename");
          _norm_spaces (get_col sample_row "Candidate Surname")]
         (get_col sample_row "Client Name")
         (get_col sample_row "Contract JobTitle")
         (_parse_weekending (get_col sample_row "Weekending"))
         (_parse_decimal (get_col sample_row "Expenses")) E
    /\ hours_part (lit "Std Hrs")
         [_norm_spaces (get_col sample_row "Candidate RefNo");
          _norm_spaces (get_col sample_row "Candidate Forename");
          _norm_spaces (get_col sample_row "Candidate Surname")]
         (get_col sample_row "Client Name")
         (get_col sample_row "Contract JobTitle")
         (_parse_weekending (get_col sample_row "Weekending"))
         (_parse_decimal (get_col sample_row "Std1 Hrs"))
         (_parse_decimal (get_col sample_row "Std Rate")) S
    /\ hours_part (lit "OT1 Hrs")
         [_norm_spaces (get_col sample_row "Candidate RefNo");
          _norm_spaces (get_col sample_row "Candidate Forename");
          _norm_spaces (get_col sample_row "Candidate Surname")]
         (get_col sample_row "Client Name")
         (get_col sample_row "Contract JobTitle")
         (_parse_weekending (get_col sample_row "Weekending"))
         (_parse_decimal (get_col sample_row "OT1 Hrs"))
         (_parse_decimal (get_col sample_row "OT1 Rate")) O.
Proof. apply (convert_rows_lines sample_row); vm_compute; reflexivity. Defined.

(** The example of the specification: two lines, Expenses then Std Hrs. *)
Example convert_rows_sample :
  convert_rows [sample_row]
  = Ok [ [lit "E1"; lit "Ann"; lit "Lee"; lit "Expenses - Acme Ltd - Fitter";
          lit "1"; lit "25.5"; lit "2025-03-05"; lit "expense"];
         [lit "E1"; lit "Ann"; lit "Lee"; lit "Std Hrs - Acme Ltd - Fitter";
          lit "37.5"; lit "12"; lit "2025-03-05"; lit "hours"] ].
Proof. vm_compute. reflexivity. Qed.

(** Negative expenses are written as well. *)
Example convert_rows_negative_expenses :
  convert_rows [negative_expenses_row]
  = Ok [ [lit "E1"; lit "Ann"; lit "Lee"; lit "Expenses - Acme Ltd - Fitter";
          lit "1"; lit "-5"; lit "2025-03-05"; lit "expense"] ].
Proof. vm_compute. reflexivity. Qed.

(** C3, as stated, fails on a valid record whose expenses have thirty
    significant digits: the line is written, but its rate is the value
    rounded to 28 digits, not the expenses value. *)
Lemma convert_rows_lines_counterexample :
  valid_detail_row long_expenses_row = true
  /\ convert_rows [long_expenses_row]
     = Ok [ [lit "E1"; lit "Ann"; lit "Lee";
             lit "Expenses - Acme Ltd - Fitter";
             lit "1"; lit "1"; lit "2025-03-05"; lit "expense"] ]
  /\ Dec.eq (_parse_decimal (lit "1"))
            (_parse_decimal (get_col long_expenses_row "Expenses"))
     = Ok false.
Proof. repeat split; vm_compute; reflexivity. Qed.

(** A signalling NaN in a numeric column ends the conversion with an
    exception, so no line is written for an expenses value that is not
    equal to zero. *)
Example convert_rows_snan :
  valid_detail_row snan_expenses_row = true
  /\ convert_rows [snan_expenses_row] = Raise InvalidOperation.
Proof. split; vm_compute; reflexivity. Qed.
(** ** Grouping *)

Section GroupingFacts.

Context {K V : Type} (eqk : K -> K -> bool).
Hypothesis eqk_eq : forall a b, eqk a b = true -> a = b.

Lemma weight_cons (P : K -> bool) (k : K) (vs : list V) (g : list (K * list V)) :
  weight P ((k, vs) :: g)
  = ((if P k then length vs else 0) + weight P g)%nat.
Proof. reflexivity. Qed.

Lemma weight_group_add (P : K -> bool) (k : K) (v : V) (g : list (K * list V)) :
  weight P (group_add eqk k v g) = (weight P g + if P k then 1 else 0)%nat.
Proof.
  induction g as [|[k' vs] g IH]; cbn [group_add].
  - rewrite weight_cons. unfold weight. simpl. destruct (P k); reflexivity.
  - destruct (eqk k' k) eqn:E; rewrite !weight_cons.
    + apply eqk_eq in E. subst k'. destruct (P k); [|lia].
      rewrite length_app. simpl. lia.
    + rewrite IH. lia.
Qed.

Lemma weight_fold (P : K -> bool) (key : V -> K) (vs : list V)
    (g : list (K * list V)) :
  weight P (fold_left (fun g v => group_add eqk (key v) v g) vs g)
  = (weight P g + length (List.filter (fun v => P (key v)) vs))%nat.
Proof.
  revert g. induction vs as [|v vs IH]; intros g; cbn [fold_left List.filter].
  - simpl. lia.
  - rewrite IH, weight_group_add. destruct (P (key v)); simpl; lia.
Qed.

Lemma weight_group_by (P : K -> bool) (key : V -> K) (vs : list V) :
  weight P (group_by eqk key vs) = length (List.filter (fun v => P (key v)) vs).
Proof. unfold group_by. now rewrite weight_fold. Qed.

(** The values filed under a key are those that have it, in order. *)
Lemma group_get_add (k k0 : K) (v : V) (g : list (K * list V)) :
  group_get eqk k0 (group_add eqk k v g)
  = group_get eqk k0 g ++ (if eqk k k0 then [v] else []).
Proof.
  induction g as [|[k' vs] g IH]; cbn [group_add group_get].
  - destruct (eqk k k0); reflexivity.
  - destruct (eqk k' k) eqn:E; cbn [group_get].
    + apply eqk_eq in E. subst k'. destruct (eqk k k0); [reflexivity|].
      now rewrite app_nil_r.
    + destruct (eqk k' k0) eqn:E0; [|exact IH].
      destruct (eqk k k0) eqn:E1; [|now rewrite app_nil_r].
      pose proof (eqk_eq _ _ E0). pose proof (eqk_eq _ _ E1). subst.
      congruence.
Qed.

Lemma group_get_fold (key : V -> K) (k0 : K) (vs : list V)
    (g : list (K * list V)) :
  group_get eqk k0 (fold_left (fun g v => group_add eqk (key v) v g) vs g)
  = group_get eqk k0 g ++ List.filter (fun v => eqk (key v) k0) vs.
Proof.
  revert g. induction vs as [|v vs IH]; intros g; cbn [fold_left List.filter].
  - now rewrite app_nil_r.
  - rewrite IH, group_get_add, <- app_assoc. f_equal.
    destruct (eqk (key v) k0); reflexivity.
Qed.

Lemma group_get_group_by (key : V -> K) (k0 : K) (vs : list V) :
  group_get eqk k0 (group_by eqk key vs)
  = List.filter (fun v => eqk (key v) k0) vs.
Proof. unfold group_by. now rewrite group_get_fold. Qed.

End GroupingFacts.
(** ** [compare_outputs] *)

Lemma eq_key3_eq (a b : key3) : eq_key3 a b = true -> a = b.
Proof.
  destruct a as [[a1 a2] a3], b as [[b1 b2] b3]. cbn [eq_key3]. intros H.
  apply andb_true_iff in H as [H H3]. apply andb_true_iff in H as [H1 H2].
  apply eqs_eq in H1, H2, H3. now subst.
Qed.

Lemma compare_outputs_groups (expected : list expected_line) (label : str)
    (g : list (key3 * list row)) :
  let out :=
    flat_map
      (fun '(key, actual_lines) =>
         match List.filter (matches_key key) expected, actual_lines with
         | [], _ :: _ => map (extra_line label (fst (fst key))) actual_lines
         | _, _ => []
         end) g in
  length out = weight (unmatched expected) g
  /\ Forall (fun d => d_type d = lit "EXTRA_LINE") out.
Proof.
  cbv zeta. induction g as [|[key lines] g [IHl IHf]]; [split; [reflexivity|constructor]|].
  cbn [flat_map]. rewrite length_app, weight_cons, IHl.
  split.
  - f_equal. unfold unmatched.
    destruct (List.filter (matches_key key) expected);
      destruct lines; rewrite ?length_map; reflexivity.
  - apply Forall_app. split; [|exact IHf].
    destruct (List.filter (matches_key key) expected); [|constructor].
    destruct lines as [|l lines]; [constructor|].
    apply List.Forall_forall. intros d Hd. apply in_map_iff in Hd as (al & <- & _).
    reflexivity.
Qed.

(** C2 (amended): [compare_outputs] emits no MISSING_LINE anomaly. Every
    anomaly it emits is an EXTRA_LINE, and there is one for each actual
    line whose key (employee, week-ending, type) no expected line matches;
    a key present only in the expected set yields nothing. *)
Theorem compare_outputs_extra_only (expected : list expected_line)
    (actual_rows : list row) (label : str) :
  Forall (fun d => d_type d = lit "EXTRA_LINE")
    (compare_outputs expected actual_rows label)
  /\ length (compare_outputs expected actual_rows label)
     = length (List.filter (fun r => unmatched expected (actual_key r))
                 actual_rows)
  /\ compare_outputs expected [] label = [].
Proof.
  pose proof (compare_outputs_groups expected label
                (group_by eq_key3 actual_key actual_rows)) as [Hl Hf].
  repeat split.
  - exact Hf.
  - unfold compare_outputs. rewrite Hl.
    apply (weight_group_by eq_key3 eq_key3_eq).
Qed.

(** C2, as stated, fails: the line expected from the sample record has no
    counterpart in an empty actual set, and no anomaly at all is emitted
    for its key. *)
Lemma compare_outputs_missing_counterexample :
  length (fst (analyze_input [sample_row])) = 2%nat
  /\ compare_outputs (fst (analyze_input [sample_row])) [] (lit "actual") = [].
Proof. split; vm_compute; reflexivity. Qed.
(** ** The checks on the output rows *)

Lemma startswith_app (p s : str) : startswith p (p ++ s) = true.
Proof.
  induction p as [|x p IH]; [now destruct s|].
  cbn [app startswith]. now rewrite eqc_refl, IH.
Qed.

Lemma startswith_split (p s : str) :
  startswith p s = true -> exists r, s = p ++ r.
Proof.
  revert s. induction p as [|x p IH]; intros s H.
  - now exists s.
  - destruct s as [|y s]; [discriminate H|].
    cbn [startswith] in H. apply andb_true_iff in H as [Hx Hp].
    apply eqc_eq in Hx. subst y. destruct (IH s Hp) as [r ->]. now exists r.
Qed.

Lemma contains_cons (p : str) (x : ascii) (s : str) :
  contains p s = true -> contains p (x :: s) = true.
Proof. intros H. cbn [contains]. rewrite H. apply orb_true_r. Qed.

Lemma contains_middle (a p b : str) : contains p (a ++ p ++ b) = true.
Proof.
  induction a as [|x a IH]; cbn [app].
  - destruct (p ++ b) eqn:E; cbn [contains]; rewrite <- E, startswith_app;
      reflexivity.
  - now apply contains_cons.
Qed.


Lemma eq_key2_eq (a b : key2) : eq_key2 a b = true -> a = b.
Proof.
  destruct a as [a1 [a2|]], b as [b1 [b2|]]; unfold eq_key2; cbn [fst snd];
    intros H; apply andb_true_iff in H as [H1 H2]; try discriminate;
    apply eqs_eq in H1; subst; [apply eqs_eq in H2; now subst | reflexivity].
Qed.

(** The rows consulted for an output row are the input rows sharing its
    key, in their order. *)
Lemma input_data_shares (input_rows : list row) (out : row) :
  input_data input_rows out = List.filter (shares_key out) input_rows.
Proof.
  unfold input_data. now rewrite (group_get_group_by eq_key2 eq_key2_eq).
Qed.





(** The line of the witness is flagged twice, once per input record of its
    employee and week; with its columns the right way round it is not. *)
Example swapped_twice :
  length (List.filter is_swapped
            (check_row [sample_row; no_overtime_row]
               (output_row "Std Hrs - Acme Ltd - Fitter" "150" "8"))) = 2%nat
  /\ check_row [sample_row; no_overtime_row]
       (output_row "Std Hrs - Acme Ltd - Fitter" "37.5" "12") = [].
Proof. split; vm_compute; reflexivity. Qed.
Lemma zero_driver_against (out inp : row) :
  length (List.filter is_zero_driver (check_against out inp))
  = ((if contains (lit "OT1 Hrs") (get_col out "description")
         && Flt.eq_int (parse_num (get_or_zero inp "OT1 Hrs")) 0
      then 1 else 0)
     + (if contains (lit "Expenses") (get_col out "description")
           && Flt.eq_int (parse_num (get_or_zero inp "Expenses")) 0
        then 1 else 0))%nat.
Proof.
  unfold check_against. cbv zeta.
  rewrite !List.filter_app, !length_app.
  destruct (contains (lit "OT1 Hrs") (get_col out "description")
            && Flt.eq_int (parse_num (get_or_zero inp "OT1 Hrs")) 0);
  destruct (contains (lit "Expenses") (get_col out "description")
            && Flt.eq_int (parse_num (get_or_zero inp "Expenses")) 0);
  cbn [List.filter is_zero_driver f_issue length Nat.add];
  (destruct (Flt.of_str (strip (get_col out "amount"))) as [amt|];
   [|reflexivity]);
  (destruct (Flt.of_str (strip (get_col out "rate"))) as [rt|];
   [|reflexivity]);
  destruct (Flt.gt_int amt amount_threshold && Flt.le_int rt rate_threshold
            && contains (lit "Hrs") (get_col out "description"));
  reflexivity.
Qed.

(** An OT1 Hrs line that meets exactly one input record, whose overtime
    hours are zero, gets one finding for the overtime line, and a second
    zero-driver finding when the word "Expenses" occurs anywhere in its
    description and the input expenses are zero. *)
Lemma zero_driver_count (input_rows : list row) (out inp : row) :
  line_type (get_col out "description") = lit "OT1 Hrs" ->
  List.filter (shares_key out) input_rows = [inp] ->
  Flt.eq_int (parse_num (get_or_zero inp "OT1 Hrs")) 0 = true ->
  length (List.filter is_zero_driver (check_row input_rows out))
  = (1 + if contains (lit "Expenses") (get_col out "description")
            && Flt.eq_int (parse_num (get_or_zero inp "Expenses")) 0
         then 1 else 0)%nat.
Proof.
  intros Ht Hone Hz.
  assert (Hc : contains (lit "OT1 Hrs") (get_col out "description") = true).
  { unfold line_type in Ht.
    destruct (startswith (lit "Std Hrs") (get_col out "description"));
      [discriminate Ht|].
    destruct (startswith (lit "OT1 Hrs") (get_col out "description")) eqn:E.
    - apply startswith_split in E as [r ->].
      apply (contains_middle [] (lit "OT1 Hrs") r).
    - destruct (startswith (lit "OT2 Hrs") (get_col out "description"));
        [discriminate Ht|].
      destruct (startswith (lit "OT3 Hrs") (get_col out "description"));
        [discriminate Ht|].
      destruct (startswith (lit "Expenses") (get_col out "description"));
        discriminate Ht. }
  unfold check_row. rewrite input_data_shares, Hone.
  cbn [flat_map]. rewrite app_nil_r, zero_driver_against, Hc, Hz.
  reflexivity.
Qed.

(** C7: an OT1 Hrs line for an employee and week whose only input record
    has zero overtime hours should yield exactly one zero-driver finding;
    for a job title that contains the word "Expenses" the checks yield two,
    the second one reporting an Expenses line that does not exist. *)
Theorem zero_driver_twice :
  let out := output_row "OT1 Hrs - Acme Ltd - Expenses Clerk" "5" "18" in
  line_type (get_col out "description") = lit "OT1 Hrs"
  /\ List.filter (shares_key out) [no_overtime_row] = [no_overtime_row]
  /\ Flt.eq_int (parse_num (get_or_zero no_overtime_row "OT1 Hrs")) 0 = true
  /\ map f_issue (find_issues [no_overtime_row] [out])
     = [OT1_without_hours (parse_num (lit "18"));
        Expenses_without_expenses (parse_num (lit "18"))]
  /\ length (List.filter is_zero_driver (find_issues [no_overtime_row] [out]))
     = 2%nat.
Proof. cbv zeta. repeat split; vm_compute; reflexivity. Qed.

(** The same line under a job title without that word yields the one
    finding. *)
Example zero_driver_once :
  map f_issue
    (find_issues [no_overtime_row]
       [output_row "OT1 Hrs - Acme Ltd - Fitter" "5" "18"])
  = [OT1_without_hours (parse_num (lit "18"))].
Proof. vm_compute. reflexivity. Qed.
(** ** Decimal texts as numbers *)

Local Open Scope Z_scope.

Lemma int_of_digits_snoc (c : str) (x : ascii) :
  Dec.int_of_digits (c ++ [x]) = 10 * Dec.int_of_digits c + Dec.digit_val x.
Proof. unfold Dec.int_of_digits. now rewrite fold_left_app. Qed.




Lemma int_of_digits_app (a b : str) :
  Dec.int_of_digits (a ++ b)
  = Dec.int_of_digits a * 10 ^ Dec.len b + Dec.int_of_digits b.
Proof.
  induction b as [|x b IH] using rev_ind.
  - rewrite app_nil_r. change (Dec.len []) with 0.
    change (Dec.int_of_digits []) with 0. lia.
  - rewrite app_assoc, !int_of_digits_snoc, IH, len_app.
    change (Dec.len [x]) with 1.
    rewrite Z.pow_add_r by (pose proof (len_nonneg b); lia). lia.
Qed.



Lemma int_of_digits_strip (c : str) :
  Dec.int_of_digits (Dec.strip_leading_zeros c) = Dec.int_of_digits c.
Proof.
  unfold Dec.strip_leading_zeros.
  induction c as [|x c IH]; [reflexivity|].
  cbn [dropwhile]. destruct (eqc "0" x) eqn:E; [|now destruct c].
  apply eqc_eq in E. subst x.
  change ("0"%char :: c) with ([ "0"%char ] ++ c).
  rewrite int_of_digits_app. change (Dec.int_of_digits ["0"%char]) with 0.
  rewrite IH. lia.
Qed.
(** ** Floats of positive fractions *)

Local Open Scope Z_scope.




(** ** The float of a decimal, whatever its padding *)

Local Open Scope Z_scope.




(** ** Plain texts read as floats *)

Local Open Scope Z_scope.


Lemma dropwhile_none (p : ascii -> bool) (t : str) :
  forallb (fun c => negb (p c)) t = true -> dropwhile p t = t.
Proof.
  destruct t as [|c t]; [reflexivity|]. cbn [forallb dropwhile].
  intros H. apply andb_true_iff in H as [H _].
  apply negb_true_iff in H. now rewrite H.
Qed.




(** ** The float of a formatted number *)


(** ** Numeric columns read by both programs *)

Local Open Scope Z_scope.














(** ** The analyser against the converter *)

Local Open Scope Z_scope.

Lemma parse_weekending_empty (s : str) :
  is_empty (_parse_weekending s) = is_empty (strip s).
Proof.
  unfold _parse_weekending. destruct (strip s) as [|c t]; [reflexivity|].
  destruct (Cal.strptime_dmY (c :: t)); [reflexivity|].
  destruct (Cal.strptime_dmy (c :: t)); [reflexivity|].
  destruct (Cal.fromisoformat (c :: t)); reflexivity.
Qed.









(** The texts differ as well when a client is written with two spaces:
    the converter collapses them, the analyser keeps them. *)
Example analyze_description_differs :
  map e_description (fst (analyze_input [sample_row]))
  = [lit "Expenses - Acme  Ltd - Fitter"; lit "Std Hrs - Acme  Ltd - Fitter"]
  /\ (do lines <- convert_rows [sample_row];
      Ok (map (fun l => nth 3 l []) lines))
     = Ok [lit "Expenses - Acme Ltd - Fitter"; lit "Std Hrs - Acme Ltd - Fitter"].
Proof. split; vm_compute; reflexivity. Qed.

(** * Further properties of the code *)

(** ** Blank texts *)

Lemma forallb_dropwhile_back (p : ascii -> bool) (s : str) :
  forallb p (dropwhile p s) = true -> forallb p s = true.
Proof.
  induction s as [|c s IH]; [reflexivity|]. cbn [dropwhile forallb].
  destruct (p c) eqn:E; [exact IH|]. cbn [forallb]. now rewrite E.
Qed.

Lemma strip_nil_iff (s : str) : strip s = [] <-> blank s = true.
Proof.
  unfold blank. split; intros H.
  - apply rstrip_nil_all in H. now apply forallb_dropwhile_back in H.
  - unfold strip, lstrip. now rewrite (dropwhile_all _ _ H).
Qed.

Lemma is_empty_iff (s : str) : is_empty s = true <-> s = [].
Proof. destruct s; split; intros H; try reflexivity; discriminate H. Qed.

Lemma norm_spaces_nil_iff (s : str) : _norm_spaces s = [] <-> blank s = true.
Proof.
  rewrite <- strip_nil_iff. unfold _norm_spaces. split; intros H.
  - destruct (strip s) as [|c t]; [reflexivity|].
    cbn [sub_ws] in H. destruct (isspace c); discriminate H.
  - now rewrite H.
Qed.

Lemma parse_weekending_nil_iff (s : str) :
  _parse_weekending s = [] <-> blank s = true.
Proof.
  rewrite <- strip_nil_iff, <- !is_empty_iff.
  now rewrite parse_weekending_empty.
Qed.

(** X1: [_parse_weekending] returns the empty text exactly for the texts
    of white space only (the empty one included); so the validity check of
    [convert_rows] fails on the week-ending exactly when it is blank. *)
Theorem parse_weekending_blank (s : str) :
  _parse_weekending s = [] <-> blank s = true.
Proof. apply parse_weekending_nil_iff. Qed.

(** ** Rows that [convert_rows] skips *)

Lemma bind_ok_nil {A : Type} (r : result (list A)) :
  (do b <- r; Ok ([] ++ b)) = r.
Proof. now destruct r. Qed.

(** X2: a record whose employee reference, forename, surname or
    week-ending is blank, or whose employee reference is the header text
    "candidate refno" in any case and spacing, adds no line and raises
    nothing, whatever its other columns hold: the numeric columns are not
    even parsed. *)
Theorem invalid_row_skipped (r : row) (rs : list row) :
  blank (get_col r "Candidate RefNo") = true
  \/ blank (get_col r "Candidate Forename") = true
  \/ blank (get_col r "Candidate Surname") = true
  \/ blank (get_col r "Weekending") = true
  \/ lower (_norm_spaces (get_col r "Candidate RefNo")) = lit "candidate refno" ->
  convert_rows (r :: rs) = convert_rows rs.
Proof.
  intros H. cbn [convert_rows].
  assert (Hrow : convert_row r = Ok []).
  { unfold convert_row. cbv zeta.
    destruct H as [H | [H | [H | [H | H]]]].
    - apply norm_spaces_nil_iff in H. now rewrite H.
    - apply norm_spaces_nil_iff in H. rewrite H. cbn [is_empty].
      now rewrite orb_true_r.
    - apply norm_spaces_nil_iff in H. rewrite H. cbn [is_empty].
      now rewrite !orb_true_r.
    - apply parse_weekending_nil_iff in H. rewrite H. cbn [is_empty].
      now rewrite !orb_true_r.
    - rewrite H, eqs_refl.
      now destruct (_ || _). }
  rewrite Hrow. cbn [bind]. apply bind_ok_nil.
Qed.

Lemma invalid_row_skipped_witness :
  convert_rows (blank_surname_row :: [plain_sample_row])
  = convert_rows [plain_sample_row].
Proof.
  apply (invalid_row_skipped blank_surname_row [plain_sample_row]).
  right. right. left. vm_compute. reflexivity.
Defined.

(** X3: [convert_rows] works record by record: the lines of two lists of
    records put end to end are the lines of the first followed by the lines
    of the second, and an exception of either is the exception of the
    whole, that of the first list first. *)
Theorem convert_rows_app (a b : list row) :
  convert_rows (a ++ b)
  = (do x <- convert_rows a; do y <- convert_rows b; Ok (x ++ y)).
Proof.
  induction a as [|r a IH]; cbn [app convert_rows bind].
  - symmetry. apply bind_ok_nil.
  - rewrite IH. destruct (convert_row r) as [l|e]; cbn [bind]; [|reflexivity].
    destruct (convert_rows a) as [x|e]; cbn [bind]; [|reflexivity].
    destruct (convert_rows b) as [y|e]; cbn [bind]; [|reflexivity].
    now rewrite app_assoc.
Qed.

(** ** The lines of [convert_rows] *)

Lemma fmt_nonempty (d : Dec.decimal) (t : str) :
  _fmt_decimal d = Ok t -> t <> [].
Proof.
  unfold _fmt_decimal. destruct (Dec.normalize d) as [n|e]; cbn [bind];
    [|discriminate].
  intros H. injection H as <-.
  destruct (if has_char "." (Dec.format_f n)
            then rstrip_char "." (rstrip_char "0" (Dec.format_f n))
            else Dec.format_f n); discriminate.
Qed.

Lemma desc_line_type (client job : str) :
  line_type (_desc (lit "Expenses") client job) = lit "Expenses"
  /\ line_type (_desc (lit "Std Hrs") client job) = lit "Std Hrs"
  /\ line_type (_desc (lit "OT1 Hrs") client job) = lit "OT1 Hrs".
Proof. repeat split. Qed.

Lemma hours_lines_ok (prefix id fn sn client job we : str)
    (hours rate : Dec.decimal) (L : list (list str)) :
  id <> [] -> fn <> [] -> sn <> [] -> we <> [] ->
  line_type (_desc prefix client job) = lit "Std Hrs"
  \/ line_type (_desc prefix client job) = lit "OT1 Hrs" ->
  hours_lines prefix [id; fn; sn] client job hours rate we = Ok L ->
  Forall output_line_ok L.
Proof.
  intros Hid Hfn Hsn Hwe Ht. unfold hours_lines.
  destruct (ne0 hours) as [h|e]; cbn [bind]; [|discriminate].
  destruct (if h then ne0 rate else Ok false) as [both|e]; cbn [bind];
    [|discriminate].
  destruct both; [|intros H; injection H as <-; constructor].
  destruct (_fmt_decimal hours) as [a|e] eqn:Ea; cbn [bind]; [|discriminate].
  destruct (_fmt_decimal rate) as [b|e] eqn:Eb; cbn [bind]; [|discriminate].
  intros H. injection H as <-. constructor; [|constructor].
  exists id, fn, sn, (_desc prefix client job), a, b, we, (lit "hours").
  repeat split; try assumption; try (now apply fmt_nonempty in Ea);
    try (now apply fmt_nonempty in Eb).
  right. split; [reflexivity | exact Ht].
Qed.

Lemma convert_row_ok (r : row) (L : list (list str)) :
  convert_row r = Ok L -> Forall output_line_ok L.
Proof.
  unfold convert_row. cbv zeta.
  set (id := _norm_spaces (get_col r "Candidate RefNo")).
  set (fn := _norm_spaces (get_col r "Candidate Forename")).
  set (sn := _norm_spaces (get_col r "Candidate Surname")).
  set (client := get_col r "Client Name").
  set (job := get_col r "Contract JobTitle").
  set (we := _parse_weekending (get_col r "Weekending")).
  destruct (is_empty id || is_empty fn || is_empty sn || is_empty we) eqn:G;
    [intros H; injection H as <-; constructor|].
  apply orb_false_iff in G as [G Hwe]. apply orb_false_iff in G as [G Hsn].
  apply orb_false_iff in G as [Hid Hfn].
  assert (Nid : id <> []) by (intros E; now rewrite E in Hid).
  assert (Nfn : fn <> []) by (intros E; now rewrite E in Hfn).
  assert (Nsn : sn <> []) by (intros E; now rewrite E in Hsn).
  assert (Nwe : we <> []) by (intros E; now rewrite E in Hwe).
  destruct (eqs (lower id) (lit "candidate refno"));
    [intros H; injection H as <-; constructor|].
  destruct (desc_line_type client job) as (_ & TS & TO).
  destruct (ne0 _) as [e|x]; cbn [bind]; [|discriminate].
  destruct (if e then _ else _) as [LE|x] eqn:EE; cbn [bind]; [|discriminate].
  destruct (hours_lines (lit "Std Hrs") _ _ _ _ _ _) as [LS|x] eqn:ES;
    cbn [bind]; [|discriminate].
  destruct (hours_lines (lit "OT1 Hrs") _ _ _ _ _ _) as [LO|x] eqn:EO;
    cbn [bind]; [|discriminate].
  intros H. injection H as <-.
  apply Forall_app. split; [|apply Forall_app; split].
  - destruct e; [|injection EE as <-; constructor].
    destruct (_fmt_decimal _) as [x|x] eqn:Ex; cbn [bind] in EE;
      [|discriminate EE].
    injection EE as <-. constructor; [|constructor].
    exists id, fn, sn, (_desc (lit "Expenses") client job), (lit "1"), x, we,
      (lit "expense").
    repeat split; try assumption; try discriminate.
    + now apply fmt_nonempty in Ex.
    + left. repeat split.
  - apply (hours_lines_ok _ _ _ _ _ _ _ _ _ _ Nid Nfn Nsn Nwe (or_introl TS) ES).
  - apply (hours_lines_ok _ _ _ _ _ _ _ _ _ _ Nid Nfn Nsn Nwe (or_intror TO) EO).
Qed.

(** X4: every line [convert_rows] returns has exactly the eight fields of
    the header that [main] writes, with a non-empty employee, forename,
    surname, week-ending, amount and rate; its unit is "expense", with the
    amount "1" and a description that starts with "Expenses", or "hours",
    with a description that starts with "Std Hrs" or "OT1 Hrs". *)
Theorem convert_rows_lines_ok (rows : list row) (lines : list (list str)) :
  convert_rows rows = Ok lines ->
  Forall output_line_ok lines
  /\ Forall (fun l => length l = length header) lines.
Proof.
  intros H.
  assert (Hok : Forall output_line_ok lines).
  { revert lines H. induction rows as [|r rows IH]; intros lines;
      cbn [convert_rows].
    - intros H. injection H as <-. constructor.
    - destruct (convert_row r) as [a|e] eqn:Ea; cbn [bind]; [|discriminate].
      destruct (convert_rows rows) as [b|e]; cbn [bind]; [|discriminate].
      intros H. injection H as <-. apply Forall_app. split.
      + now apply convert_row_ok in Ea.
      + now apply IH. }
  split; [exact Hok|].
  revert Hok. apply List.Forall_impl.
  intros l (id & fn & sn & desc & amount & rate & we & unit & -> & _).
  reflexivity.
Qed.

Lemma convert_rows_lines_ok_witness :
  Forall output_line_ok
    [[lit "E1"; lit "Ann"; lit "Lee"; lit "Expenses - Acme Ltd - Fitter";
      lit "1"; lit "25.5"; lit "2025-03-05"; lit "expense"];
     [lit "E1"; lit "Ann"; lit "Lee"; lit "Std Hrs - Acme Ltd - Fitter";
      lit "37.5"; lit "1200"; lit "2025-03-05"; lit "hours"]]
  /\ Forall (fun l => length l = length header)
       [[lit "E1"; lit "Ann"; lit "Lee"; lit "Expenses - Acme Ltd - Fitter";
         lit "1"; lit "25.5"; lit "2025-03-05"; lit "expense"];
        [lit "E1"; lit "Ann"; lit "Lee"; lit "Std Hrs - Acme Ltd - Fitter";
         lit "37.5"; lit "1200"; lit "2025-03-05"; lit "hours"]].
Proof.
  apply (convert_rows_lines_ok [plain_sample_row; totals_row]).
  vm_compute. reflexivity.
Defined.

(** ** The expected lines of [analyze_input] *)

Lemma parse_date_nonempty (s : str) :
  strip s <> [] -> exists w : str, parse_date (strip s) = Some w /\ w <> [].
Proof.
  intros H. unfold parse_date. rewrite strip_idempotent.
  destruct (strip s) as [|c t] eqn:E; [congruence|].
  destruct (iso_shaped (c :: t)); [now eexists|].
  destruct (split "/" (c :: t)) as [|day [|month [|year [|? ?]]]];
    try (now eexists).
  eexists. split; [reflexivity|]. unfold reassemble.
  destruct (if (length year =? 2)%nat then lit "20" ++ year else year);
    discriminate.
Qed.

Lemma analyze_row_ok (i : nat) (r : row) :
  Forall expected_line_ok (fst (analyze_row i r)).
Proof.
  unfold analyze_row. cbv zeta.
  set (refno := strip (get_col r "Candidate RefNo")).
  set (forename := strip (get_col r "Candidate Forename")).
  set (surname := strip (get_col r "Candidate Surname")).
  set (we := strip (get_col r "Weekending")).
  destruct (is_empty refno || is_empty forename || is_empty surname
            || is_empty we) eqn:G; [constructor|].
  apply orb_false_iff in G as [G Hwe]. apply orb_false_iff in G as [G Hsn].
  apply orb_false_iff in G as [Hid Hfn].
  assert (Nid : refno <> []) by (intros E; now rewrite E in Hid).
  assert (Nfn : forename <> []) by (intros E; now rewrite E in Hfn).
  assert (Nsn : surname <> []) by (intros E; now rewrite E in Hsn).
  assert (Nwe : exists w : str, parse_date we = Some w /\ w <> []).
  { apply parse_date_nonempty. intros E. fold we in E. now rewrite E in Hwe. }
  cbn [fst]. apply Forall_app. split; [|apply Forall_app; split].
  - destruct (Flt.gt_int _ 0) eqn:E; constructor; [|constructor].
    repeat split; try assumption. left. repeat split.
  - match goal with
    | |- Forall _ (if ?b && ?c then _ else _) =>
        destruct b eqn:E1; cbn [andb]; [destruct c eqn:E2|]
    end; constructor; [|constructor].
    repeat split; try assumption. right. split; [now left|].
    split; [reflexivity|]. now eexists.
  - match goal with
    | |- Forall _ (if ?b && ?c then _ else _) =>
        destruct b eqn:E1; cbn [andb]; [destruct c eqn:E2|]
    end; constructor; [|constructor].
    repeat split; try assumption. right. split; [now right|].
    split; [reflexivity|]. now eexists.
Qed.

Lemma analyze_from_fst (i : nat) (r : row) (rs : list row) :
  fst (analyze_from i (r :: rs))
  = fst (analyze_row i r) ++ fst (analyze_from (S i) rs).
Proof.
  cbn [analyze_from]. destruct (analyze_row i r), (analyze_from (S i) rs).
  reflexivity.
Qed.

Lemma analyze_from_snd (i : nat) (r : row) (rs : list row) :
  snd (analyze_from i (r :: rs))
  = snd (analyze_row i r) ++ snd (analyze_from (S i) rs).
Proof.
  cbn [analyze_from]. destruct (analyze_row i r), (analyze_from (S i) rs).
  reflexivity.
Qed.

(** X5: every expected line of [analyze_input] has a non-empty employee,
    forename, surname and week-ending and a rate above zero; its
    description starts with its type, so that [compare_outputs] files it
    under that type; and it is an Expenses line with unit "expense" and
    amount 1, or a Std Hrs or OT1 Hrs line with unit "hours" and an amount
    above zero. *)
Theorem analyze_input_lines_ok (rows : list row) :
  Forall expected_line_ok (fst (analyze_input rows)).
Proof.
  unfold analyze_input. generalize 2%nat.
  induction rows as [|r rows IH]; intros i; [constructor|].
  rewrite analyze_from_fst. apply Forall_app. split.
  - apply analyze_row_ok.
  - apply IH.
Qed.

(** ** The row numbers of [analyze_input] *)

Lemma analyze_row_number (i : nat) (r : row) :
  Forall (fun e => e_input_row e = i) (fst (analyze_row i r))
  /\ Forall (fun x => ii_row x = i) (snd (analyze_row i r)).
Proof.
  unfold analyze_row. cbv zeta.
  destruct (_ || _); [split; constructor|]. cbn [fst snd]. split.
  - repeat (apply Forall_app; split);
      repeat match goal with
             | |- Forall _ (if ?b then _ else _) => destruct b
             end; repeat constructor.
  - destruct (_ && _); repeat constructor.
Qed.

Lemma analyze_from_number (rows : list row) (i : nat) :
  Forall (fun e => exists (k : nat) (r : row),
            nth_error rows k = Some r /\ e_input_row e = (i + k)%nat
            /\ In e (fst (analyze_row (i + k) r)))
    (fst (analyze_from i rows))
  /\ Forall (fun x => exists (k : nat) (r : row),
               nth_error rows k = Some r /\ ii_row x = (i + k)%nat
               /\ In x (snd (analyze_row (i + k) r)))
       (snd (analyze_from i rows)).
Proof.
  revert i. induction rows as [|r rows IH]; intros i; [split; constructor|].
  rewrite analyze_from_fst, analyze_from_snd.
  destruct (IH (S i)) as [IH1 IH2].
  destruct (analyze_row_number i r) as [N1 N2].
  split; apply Forall_app; split.
  - apply List.Forall_forall. intros e He. exists O, r.
    rewrite Nat.add_0_r. repeat split; [|exact He].
    rewrite List.Forall_forall in N1. now apply N1.
  - revert IH1. apply List.Forall_impl. intros e (k & r' & Hk & Hn & Hin).
    exists (S k), r'. replace (i + S k)%nat with (S i + k)%nat by lia. auto.
  - apply List.Forall_forall. intros e He. exists O, r.
    rewrite Nat.add_0_r. repeat split; [|exact He].
    rewrite List.Forall_forall in N2. now apply N2.
  - revert IH2. apply List.Forall_impl. intros e (k & r' & Hk & Hn & Hin).
    exists (S k), r'. replace (i + S k)%nat with (S i + k)%nat by lia. auto.
Qed.

(** X6: the row number [analyze_input] gives to an expected line and to a
    potential issue is the place of its record in the input counted from
    2, the line of the record in a file whose first line is the header:
    the line or issue of number k + 2 comes from the record at index k. *)
Theorem analyze_input_numbering (rows : list row) :
  Forall (fun e => exists (k : nat) (r : row),
            nth_error rows k = Some r /\ e_input_row e = (2 + k)%nat
            /\ In e (fst (analyze_row (2 + k) r)))
    (fst (analyze_input rows))
  /\ Forall (fun x => exists (k : nat) (r : row),
               nth_error rows k = Some r /\ ii_row x = (2 + k)%nat
               /\ In x (snd (analyze_row (2 + k) r)))
       (snd (analyze_input rows)).
Proof. apply analyze_from_number. Qed.

Lemma analyze_from_app (a b : list row) (i : nat) :
  analyze_from i (a ++ b)
  = (fst (analyze_from i a) ++ fst (analyze_from (i + length a) b),
     snd (analyze_from i a) ++ snd (analyze_from (i + length a) b)).
Proof.
  revert i. induction a as [|r a IH]; intros i.
  - cbn [app length analyze_from fst snd]. rewrite Nat.add_0_r.
    now destruct (analyze_from i b).
  - cbn [app length]. cbn [analyze_from]. rewrite IH.
    replace (S i + length a)%nat with (i + S (length a))%nat by lia.
    destruct (analyze_row i r), (analyze_from (S i) a). cbn [fst snd].
    now rewrite !app_assoc.
Qed.

(** X7: [analyze_input] works record by record: on two lists of records
    put end to end, the expected lines and the potential issues are those
    of the first list followed by those of the second, the records of the
    second being numbered after those of the first. *)
Theorem analyze_input_app (a b : list row) :
  analyze_input (a ++ b)
  = (fst (analyze_input a) ++ fst (analyze_from (2 + length a) b),
     snd (analyze_input a) ++ snd (analyze_from (2 + length a) b)).
Proof. apply analyze_from_app. Qed.

(** ** Potential issues against expected lines *)

Lemma eq_int_not_gt (f : Flt.float) (n : Z) :
  Flt.eq_int f n = true -> Flt.gt_int f n = false.
Proof.
  unfold Flt.eq_int, Flt.gt_int.
  destruct (Flt.compare_int f n) as [[| |]|]; intros H;
    try reflexivity; discriminate H.
Qed.

Lemma analyze_row_issue (i : nat) (r : row) (x : input_issue) :
  In x (snd (analyze_row i r)) ->
  Flt.gt_int (ii_ot1_rate x) 0 = true
  /\ forall e : expected_line,
       In e (fst (analyze_row i r)) -> e_type e <> lit "OT1 Hrs".
Proof.
  unfold analyze_row. cbv zeta.
  destruct (_ || _); [intros []|]. cbn [fst snd].
  match goal with
  | |- In _ (if ?b && ?c then _ else _) -> _ =>
      destruct b eqn:Hrate; cbn [andb]; [destruct c eqn:Hhrs|];
        try (intros []; fail)
  end.
  intros [<- | []]. cbn [ii_ot1_rate]. split; [exact Hrate|]. intros e He.
  apply eq_int_not_gt in Hhrs.
  apply in_app_or in He as [He | He]; [|apply in_app_or in He as [He | He]].
  - match type of He with
    | In _ (if ?b then _ else _) => destruct b; [|destruct He]
    end.
    destruct He as [<- | []]. discriminate.
  - match type of He with
    | In _ (if ?b then _ else _) => destruct b; [|destruct He]
    end.
    destruct He as [<- | []]. discriminate.
  - rewrite Hhrs in He. destruct He.
Qed.

(** X8: a record that [analyze_input] reports as a potential issue (an
    overtime rate above zero with overtime hours equal to zero) has no
    expected OT1 Hrs line: no expected line with the row number of an
    issue is of the type OT1 Hrs, and the rate the issue quotes is above
    zero. *)
Theorem issue_excludes_overtime (rows : list row) :
  Forall (fun x =>
            Flt.gt_int (ii_ot1_rate x) 0 = true
            /\ Forall (fun e => e_input_row e = ii_row x ->
                                e_type e <> lit "OT1 Hrs")
                 (fst (analyze_input rows)))
    (snd (analyze_input rows)).
Proof.
  destruct (analyze_from_number rows 2) as [N1 N2].
  apply List.Forall_forall. intros x Hx.
  rewrite List.Forall_forall in N2.
  destruct (N2 x Hx) as (k & r & Hk & Hn & Hin).
  destruct (analyze_row_issue _ _ _ Hin) as [Hrate Hno].
  split; [exact Hrate|].
  apply List.Forall_forall. intros e He Hrow.
  rewrite List.Forall_forall in N1.
  destruct (N1 e He) as (k' & r' & Hk' & Hn' & Hin').
  assert (k' = k) by lia. subst k'.
  assert (r' = r) by congruence. subst r'.
  now apply Hno.
Qed.

(** The record with an overtime rate and no overtime hours is reported,
    and its only expected line is the Std Hrs line. *)
Example issue_for_no_overtime :
  map ii_row (snd (analyze_input [no_overtime_row])) = [2%nat]
  /\ map e_type (fst (analyze_input [no_overtime_row])) = [lit "Std Hrs"].
Proof. split; vm_compute; reflexivity. Qed.

(** ** The dictionary of input rows in [main] *)

(** X9: the dictionary [main] builds from the input rows gives, for an
    output row, exactly the input rows whose trimmed employee reference is
    the row's trimmed employeeid and whose week-ending, normalised by
    [parse_date], is the row's trimmed weekending, in the order of the
    input; the output row is checked against these rows only, and against
    none when there is none. *)
Theorem input_lookup (input_rows : list row) (out : row) :
  let same inp :=
    eqs (strip (get_col inp "Candidate RefNo")) (strip (get_col out "employeeid"))
    && opt_eqs (parse_date (strip (get_col inp "Weekending")))
         (strip (get_col out "weekending")) in
  input_data input_rows out = List.filter same input_rows
  /\ check_row input_rows out
     = flat_map (check_against out) (List.filter same input_rows)
  /\ (List.filter same input_rows = [] -> check_row input_rows out = []).
Proof.
  cbv zeta.
  assert (H : input_data input_rows out
              = List.filter
                  (fun inp =>
                     eqs (strip (get_col inp "Candidate RefNo"))
                       (strip (get_col out "employeeid"))
                     && opt_eqs (parse_date (strip (get_col inp "Weekending")))
                          (strip (get_col out "weekending"))) input_rows).
  { rewrite input_data_shares. apply filter_ext. intros inp.
    unfold shares_key, eq_key2, input_key, opt_eqs. cbn [fst snd].
    reflexivity. }
  unfold check_row. rewrite H. repeat split. now intros ->.
Qed.

(** ** The text of [_fmt_decimal] *)

(** X10: for a finite decimal the context holds unrounded, [_fmt_decimal]
    returns a sign "-" for a negative number, then digits, then
    optionally a point and more digits of which the last is not "0": no
    exponent is written, no zero ends the fraction and no point ends the
    text. *)
Theorem fmt_decimal_text (s : bool) (c : str) (e : Z) :
  Dec.representable (Dec.Finite s c e) = true ->
  exists ip fp : str,
    _fmt_decimal (Dec.Finite s c e)
    = Ok (Dec.sign_text s ++ ip
          ++ match fp with [] => [] | _ => lit "." ++ fp end)
    /\ forallb isdigit ip = true /\ forallb isdigit fp = true /\ ip <> []
    /\ (fp = [] \/ exists u y, fp = u ++ [y] /\ eqc y "0" = false).
Proof.
  cbn [Dec.representable]. intros H. apply andb_true_iff in H as [Hwf H].
  destruct (Dec.nonzero (Dec.Finite s c e)) eqn:Hnz; cbn [negb orb] in H.
  - apply andb_true_iff in H as [H Hhi]. apply andb_true_iff in H as [Hlen Hlo].
    apply Z.leb_le in Hlen, Hlo, Hhi.
    destruct (normalize_representable s c e Hwf Hnz Hlen Hlo Hhi)
      as (c' & k & Hnorm & Hc & Hhead & Hdig & Hlast).
    destruct (format_f_shape s c' (e + Z.of_nat k) Hhead Hdig Hlast)
      as (ip & fp & Hfmt & Hip & Hfp & Hne & Hfl & _).
    exists ip, fp. repeat split; try assumption.
    unfold _fmt_decimal. rewrite Hnorm. cbn [bind]. rewrite Hfmt.
    f_equal. now apply (fmt_post_plain s ip fp).
  - assert (Hc : c = lit "0").
    { unfold Dec.nonzero in Hnz. apply negb_false_iff in Hnz.
      now apply eqs_eq in Hnz. }
    subst c. exists (lit "0"), []. repeat split; [|discriminate|now left].
    unfold _fmt_decimal, Dec.normalize, Dec._fix. rewrite Hnz. cbn [negb].
    destruct (Z.min (Z.max e Dec.Etiny) Dec.Emax =? e); now destruct s.
Qed.

Lemma fmt_decimal_text_witness :
  exists ip fp : str,
    _fmt_decimal (Dec.Finite true (lit "120500") (-3))
    = Ok (Dec.sign_text true ++ ip
          ++ match fp with [] => [] | _ => lit "." ++ fp end)
    /\ forallb isdigit ip = true /\ forallb isdigit fp = true /\ ip <> []
    /\ (fp = [] \/ exists u y, fp = u ++ [y] /\ eqc y "0" = false).
Proof.
  apply (fmt_decimal_text true (lit "120500") (-3)). reflexivity.
Defined.

(** A number with a positive exponent is written out in full. *)
Example fmt_decimal_exponent :
  _fmt_decimal (_parse_decimal (lit "1.2E+3")) = Ok (lit "1200")
  /\ _fmt_decimal (_parse_decimal (lit "-0.00")) = Ok (lit "-0").
Proof. split; reflexivity. Qed.

(** ** The description [_desc] writes *)

Lemma no_trailing_snoc (a : str) :
  a <> [] -> no_trailing_ws a = true ->
  exists (u : str) (x : ascii), a = u ++ [x] /\ isspace x = false.
Proof.
  intros Hne H. unfold no_trailing_ws in H.
  destruct (rev a) as [|x u] eqn:E.
  - apply (f_equal (@rev ascii)) in E. rewrite rev_involutive in E.
    now subst a.
  - exists (rev u), x. split.
    + apply (f_equal (@rev ascii)) in E. now rewrite rev_involutive in E.
    + cbn [no_leading_ws] in H. now apply negb_true_iff in H.
Qed.

Lemma sub_ws_app (k : bool) (a b : str) :
  a <> [] -> no_trailing_ws a = true ->
  sub_ws k (a ++ b) = sub_ws k a ++ sub_ws false b.
Proof.
  intros Hne H. destruct (no_trailing_snoc a Hne H) as (u & x & -> & Hx).
  clear Hne H. revert k. induction u as [|y u IH]; intros k.
  - cbn [app sub_ws]. now rewrite Hx.
  - cbn [app sub_ws]. destruct (isspace y); [destruct k|]; now rewrite IH.
Qed.

Lemma norm_spaces_facts (s : str) :
  blank s = false ->
  _norm_spaces s <> [] /\ no_leading_ws (_norm_spaces s) = true
  /\ no_trailing_ws (_norm_spaces s) = true
  /\ sub_ws false (_norm_spaces s) = _norm_spaces s.
Proof.
  intros H. repeat split.
  - intros E. apply norm_spaces_nil_iff in E. congruence.
  - apply sub_ws_no_leading, strip_no_leading.
  - apply sub_ws_no_trailing, strip_no_trailing.
  - apply sub_ws_fixed.
Qed.

(** X11: when the type, the client and the job title are not blank, the
    description [_desc] writes is normalised as a whole: [_norm_spaces]
    leaves it unchanged, and it has no leading, trailing or doubled white
    space. *)
Theorem desc_normalised (prefix client job : str) :
  blank prefix = false -> blank client = false -> blank job = false ->
  _norm_spaces (_desc prefix client job) = _desc prefix client job
  /\ no_leading_ws (_desc prefix client job) = true
  /\ no_trailing_ws (_desc prefix client job) = true
  /\ no_double_ws (_desc prefix client job) = true.
Proof.
  intros Hp Hc Hj.
  destruct (norm_spaces_facts prefix Hp) as (Pn & Pl & Pt & Pf).
  destruct (norm_spaces_facts client Hc) as (Cn & Cl & Ct & Cf).
  destruct (norm_spaces_facts job Hj) as (Jn & Jl & Jt & Jf).
  unfold _desc.
  set (P := _norm_spaces prefix) in *. set (C := _norm_spaces client) in *.
  set (J := _norm_spaces job) in *.
  assert (Hl : no_leading_ws (P ++ lit " - " ++ C ++ lit " - " ++ J) = true).
  { destruct P; [congruence | exact Pl]. }
  assert (Ht : no_trailing_ws (P ++ lit " - " ++ C ++ lit " - " ++ J) = true).
  { unfold no_trailing_ws in *. rewrite !rev_app_distr.
    destruct (rev J) as [|x u] eqn:E; [|exact Jt].
    apply (f_equal (@rev ascii)) in E. rewrite rev_involutive in E.
    now subst J. }
  assert (Hfix : _norm_spaces (P ++ lit " - " ++ C ++ lit " - " ++ J)
                 = P ++ lit " - " ++ C ++ lit " - " ++ J).
  { unfold _norm_spaces at 1. rewrite (strip_fixed _ Hl Ht).
    rewrite (sub_ws_app false P _ Pn Pt), Pf. f_equal.
    change (sub_ws false (lit " - " ++ C ++ lit " - " ++ J))
      with (lit " - " ++ sub_ws true (C ++ lit " - " ++ J)).
    f_equal. rewrite (sub_ws_app true C _ Cn Ct).
    rewrite (sub_ws_true_false C Cl), Cf. f_equal.
    change (sub_ws false (lit " - " ++ J)) with (lit " - " ++ sub_ws true J).
    f_equal. now rewrite (sub_ws_true_false J Jl). }
  split; [exact Hfix|]. split; [exact Hl|]. split; [exact Ht|].
  rewrite <- Hfix. apply sub_ws_no_double.
Qed.

Lemma desc_normalised_witness :
  _norm_spaces (_desc (lit "Std Hrs") (lit " Acme   Ltd ") (lit "Site  Fitter"))
  = _desc (lit "Std Hrs") (lit " Acme   Ltd ") (lit "Site  Fitter")
  /\ no_leading_ws
       (_desc (lit "Std Hrs") (lit " Acme   Ltd ") (lit "Site  Fitter")) = true
  /\ no_trailing_ws
       (_desc (lit "Std Hrs") (lit " Acme   Ltd ") (lit "Site  Fitter")) = true
  /\ no_double_ws
       (_desc (lit "Std Hrs") (lit " Acme   Ltd ") (lit "Site  Fitter")) = true.
Proof.
  apply (desc_normalised (lit "Std Hrs") (lit " Acme   Ltd ")
           (lit "Site  Fitter")); reflexivity.
Defined.

(** A blank client leaves two spaces side by side. *)
Example desc_blank_client :
  _desc (lit "Expenses") [] (lit "Fitter") = lit "Expenses -  - Fitter"
  /\ no_double_ws (_desc (lit "Expenses") [] (lit "Fitter")) = false.
Proof. split; reflexivity. Qed.

(** ** Dates written by [isoformat] *)

Lemma digit_of_nat (k : nat) :
  (k < 10)%nat ->
  isdigit (ascii_of_nat (48 + k)) = true
  /\ Dec.digit_val (ascii_of_nat (48 + k)) = Z.of_nat k.
Proof.
  intros H. do 10 (destruct k as [|k]; [split; reflexivity|]). lia.
Qed.

Lemma digit_char_facts (n : Z) :
  isdigit (Cal.digit_char n) = true
  /\ Dec.digit_val (Cal.digit_char n) = n mod 10.
Proof.
  unfold Cal.digit_char.
  assert (H : 0 <= n mod 10 < 10) by (apply Z.mod_pos_bound; lia).
  destruct (digit_of_nat (Z.to_nat (n mod 10)) ltac:(lia)) as [H1 H2].
  split; [exact H1|]. rewrite H2. lia.
Qed.

Lemma digit_not_slash (c : ascii) :
  isdigit c = true -> eqc "/" c = false /\ isspace c = false.
Proof.
  intros H.
  pose proof (ascii_forall
    (fun c => implb (isdigit c) (negb (eqc "/" c) && negb (isspace c)))
    eq_refl c) as F.
  cbv beta in F. rewrite H in F. cbn [implb] in F.
  destruct (eqc "/" c), (isspace c); try discriminate F; auto.
Qed.

Lemma isoformat_shape (d : Cal.date) :
  exists y1 y2 y3 y4 m1 m2 d1 d2 : ascii,
    Cal.isoformat d = [y1; y2; y3; y4; "-"; m1; m2; "-"; d1; d2]%char
    /\ forallb isdigit [y1; y2; y3; y4; m1; m2; d1; d2] = true
    /\ Dec.int_of_digits [y1; y2; y3; y4]
       = 1000 * ((Cal.year d / 1000) mod 10) + 100 * ((Cal.year d / 100) mod 10)
         + 10 * ((Cal.year d / 10) mod 10) + Cal.year d mod 10
    /\ Dec.int_of_digits [m1; m2]
       = 10 * ((Cal.month d / 10) mod 10) + Cal.month d mod 10
    /\ Dec.int_of_digits [d1; d2]
       = 10 * ((Cal.day d / 10) mod 10) + Cal.day d mod 10.
Proof.
  do 8 eexists. split; [reflexivity|].
  unfold Dec.int_of_digits. cbn [forallb fold_left].
  repeat match goal with
         | |- context [Cal.digit_char ?n] =>
             let H1 := fresh in let H2 := fresh in
             destruct (digit_char_facts n) as [H1 H2];
             rewrite ?H1, ?H2; clear H1 H2;
             generalize (Cal.digit_char n); intro
         end.
  repeat split; lia.
Qed.

Lemma make_date_valid (y m dd : Z) (d : Cal.date) :
  Cal.make_date y m dd = Some d ->
  d = Cal.Date y m dd /\ 1 <= y <= 9999 /\ 1 <= m <= 12 /\ 1 <= dd <= 31
  /\ Cal.make_date (Cal.year d) (Cal.month d) (Cal.day d) = Some d.
Proof.
  unfold Cal.make_date.
  destruct (_ && _) eqn:E; [|discriminate]. intros H. injection H as <-.
  cbn [Cal.year Cal.month Cal.day]. rewrite E.
  repeat (apply andb_true_iff in E as [E ?]).
  assert (Cal.days_in_month y m <= 31).
  { unfold Cal.days_in_month.
    destruct (m =? 2); [destruct (Cal.is_leap y); lia|].
    destruct (_ || _); lia. }
  repeat split; lia.
Qed.

Lemma fromisoformat_isoformat (d : Cal.date) :
  Cal.make_date (Cal.year d) (Cal.month d) (Cal.day d) = Some d ->
  Cal.fromisoformat (Cal.isoformat d) = Some d.
Proof.
  intros H. pose proof (make_date_valid _ _ _ _ H) as (_ & Hy & Hm & Hd & _).
  destruct (isoformat_shape d)
    as (y1 & y2 & y3 & y4 & m1 & m2 & d1 & d2 & -> & Hdig & Iy & Im & Id).
  unfold Cal.fromisoformat. rewrite Hdig. cbn [andb eqc Ascii.eqb Bool.eqb].
  rewrite Iy, Im, Id.
  replace (1000 * ((Cal.year d / 1000) mod 10)
           + 100 * ((Cal.year d / 100) mod 10)
           + 10 * ((Cal.year d / 10) mod 10) + Cal.year d mod 10)
    with (Cal.year d) by (Z.div_mod_to_equations; lia).
  replace (10 * ((Cal.month d / 10) mod 10) + Cal.month d mod 10)
    with (Cal.month d) by (Z.div_mod_to_equations; lia).
  replace (10 * ((Cal.day d / 10) mod 10) + Cal.day d mod 10)
    with (Cal.day d) by (Z.div_mod_to_equations; lia).
  exact H.
Qed.

(** ** [strptime] on a text that starts with three digits *)

Lemma match_pattern_split (p : Cal.pattern) (s m r : str) :
  Cal.match_pattern p s = Some (m, r) -> s = m ++ r /\ length m = length p.
Proof.
  revert s m r. induction p as [|cls p IH]; intros s m r.
  - cbn [Cal.match_pattern]. intros H. injection H as <- <-. now split.
  - destruct s as [|c s]; cbn [Cal.match_pattern]; [discriminate|].
    destruct (cls c); [|discriminate].
    destruct (Cal.match_pattern p s) as [[m' r']|] eqn:E; [|discriminate].
    intros H. injection H as <- <-. destruct (IH _ _ _ E) as [-> Hl].
    split; [reflexivity | cbn [length]; now rewrite Hl].
Qed.

Lemma in_alternation (ps : list Cal.pattern) (s m r : str) :
  In (m, r) (Cal.alternation ps s) ->
  exists p, In p ps /\ s = m ++ r /\ length m = length p.
Proof.
  unfold Cal.alternation. rewrite in_flat_map. intros (p & Hp & Hin).
  destruct (Cal.match_pattern p s) as [[m' r']|] eqn:E; [|destruct Hin].
  destruct Hin as [Heq | []]. injection Heq as -> ->.
  exists p. split; [exact Hp|]. now apply match_pattern_split.
Qed.

Lemma flat_map_nil {A B : Type} (f : A -> list B) (l : list A) :
  (forall x, In x l -> f x = []) -> flat_map f l = [].
Proof.
  induction l as [|x l IH]; intros H; [reflexivity|]. cbn [flat_map].
  rewrite (H x (or_introl eq_refl)), IH; [reflexivity|].
  intros y Hy. apply H. now right.
Qed.

(** The day of [%d] takes one or two characters, and a digit is no "/". *)
Lemma match_dmy_digits (gy : list Cal.pattern) (a b c : ascii) (rest : str) :
  isdigit b = true -> isdigit c = true ->
  Cal.match_dmy gy (a :: b :: c :: rest) = None.
Proof.
  intros Hb Hc. unfold Cal.match_dmy. rewrite flat_map_nil; [reflexivity|].
  intros [d r1] Hin. apply in_alternation in Hin as (p & Hp & Hs & Hl).
  assert (Hr : r1 = b :: c :: rest \/ r1 = c :: rest).
  { unfold Cal.group_d in Hp. cbn [In] in Hp.
    destruct Hp as [<- | [<- | [<- | [<- | [<- | []]]]]]; cbn [length] in Hl;
      destruct d as [|x1 [|x2 [|x3 d]]]; try discriminate Hl;
      injection Hs as -> ->; auto; try (injection H as ->; auto). }
  destruct (digit_not_slash b Hb) as [Sb _].
  destruct (digit_not_slash c Hc) as [Sc _].
  destruct Hr as [-> | ->]; cbn [Cal.literal flat_map];
    [rewrite Sb | rewrite Sc]; reflexivity.
Qed.

(** ** [_parse_weekending] on its own results *)

Lemma isoformat_passthrough (d : Cal.date) :
  Cal.make_date (Cal.year d) (Cal.month d) (Cal.day d) = Some d ->
  _parse_weekending (Cal.isoformat d) = Cal.isoformat d.
Proof.
  intros H. pose proof (fromisoformat_isoformat d H) as Hiso.
  destruct (isoformat_shape d)
    as (y1 & y2 & y3 & y4 & m1 & m2 & d1 & d2 & E & Hdig & _).
  rewrite E in *. cbn [forallb] in Hdig.
  repeat (apply andb_true_iff in Hdig as [? Hdig]).
  assert (Hs : strip [y1; y2; y3; y4; "-"; m1; m2; "-"; d1; d2]%char
               = [y1; y2; y3; y4; "-"; m1; m2; "-"; d1; d2]%char).
  { apply strip_plain. cbn [forallb].
    repeat match goal with
           | Hd : isdigit ?c = true |- context [plain_char ?c] =>
               let P := fresh in
               destruct (isdigit_facts c Hd) as (_ & _ & _ & P);
               rewrite P; clear P
           end.
    reflexivity. }
  unfold _parse_weekending. rewrite Hs.
  unfold Cal.strptime_dmY, Cal.strptime_dmy.
  rewrite !match_dmy_digits by assumption.
  now rewrite Hiso.
Qed.

Lemma strptime_valid (s : str) (d : Cal.date) :
  Cal.strptime_dmY s = Some d \/ Cal.strptime_dmy s = Some d
  \/ Cal.fromisoformat s = Some d ->
  Cal.make_date (Cal.year d) (Cal.month d) (Cal.day d) = Some d.
Proof.
  intros [H | [H | H]].
  - unfold Cal.strptime_dmY in H.
    destruct (Cal.match_dmy Cal.group_Y s) as [[[[dd m] y] [|? ?]]|];
      try discriminate H.
    now apply make_date_valid in H.
  - unfold Cal.strptime_dmy in H.
    destruct (Cal.match_dmy Cal.group_y s) as [[[[dd m] y] [|? ?]]|];
      try discriminate H.
    cbv zeta in H. now apply make_date_valid in H.
  - unfold Cal.fromisoformat in H.
    destruct s as [|y1 [|y2 [|y3 [|y4 [|h1 [|m1 [|m2 [|h2 [|d1 [|d2 [|? ?]]]]]]]]]]];
      try discriminate H.
    destruct (_ && _); [|discriminate H].
    now apply make_date_valid in H.
Qed.

(** X12: [_parse_weekending] is idempotent: a week-ending it has
    normalised is returned unchanged when normalised again. The ISO text
    it writes for a date is read back by [date.fromisoformat] as the same
    date, and a text none of the three formats accepts is only trimmed. *)
Theorem parse_weekending_idempotent (s : str) :
  _parse_weekending (_parse_weekending s) = _parse_weekending s.
Proof.
  unfold _parse_weekending at 2 3.
  destruct (strip s) as [|c t] eqn:Es; [reflexivity|].
  destruct (Cal.strptime_dmY (c :: t)) as [d|] eqn:E1.
  { apply isoformat_passthrough, (strptime_valid (c :: t)). now left. }
  destruct (Cal.strptime_dmy (c :: t)) as [d|] eqn:E2.
  { apply isoformat_passthrough, (strptime_valid (c :: t)). now right; left. }
  destruct (Cal.fromisoformat (c :: t)) as [d|] eqn:E3.
  { apply isoformat_passthrough, (strptime_valid (c :: t)). now right; right. }
  unfold _parse_weekending.
  assert (Hs : strip (c :: t) = c :: t) by (rewrite <- Es; apply strip_idempotent).
  now rewrite Hs, E1, E2, E3.
Qed.

(** ** The two date normalisers on day/month/year texts *)

Lemma digit_classes (c : ascii) :
  isdigit c = true ->
  eqc "3" c = (Dec.digit_val c =? 3) /\ eqc "0" c = (Dec.digit_val c =? 0)
  /\ eqc "1" c = (Dec.digit_val c =? 1) /\ eqc " " c = false
  /\ Cal.between "0" "1" c = (Dec.digit_val c <=? 1)
  /\ Cal.between "1" "2" c
     = ((1 <=? Dec.digit_val c) && (Dec.digit_val c <=? 2))
  /\ Cal.between "1" "9" c = (1 <=? Dec.digit_val c)
  /\ Cal.between "0" "2" c = (Dec.digit_val c <=? 2)
  /\ 0 <= Dec.digit_val c <= 9
  /\ Cal.digit_char (Dec.digit_val c) = c.
Proof.
  intros H.
  pose proof (ascii_forall
    (fun c => implb (isdigit c)
       (Bool.eqb (eqc "3" c) (Dec.digit_val c =? 3)
        && Bool.eqb (eqc "0" c) (Dec.digit_val c =? 0)
        && Bool.eqb (eqc "1" c) (Dec.digit_val c =? 1)
        && negb (eqc " " c)
        && Bool.eqb (Cal.between "0" "1" c) (Dec.digit_val c <=? 1)
        && Bool.eqb (Cal.between "1" "2" c)
             ((1 <=? Dec.digit_val c) && (Dec.digit_val c <=? 2))
        && Bool.eqb (Cal.between "1" "9" c) (1 <=? Dec.digit_val c)
        && Bool.eqb (Cal.between "0" "2" c) (Dec.digit_val c <=? 2)
        && (0 <=? Dec.digit_val c) && (Dec.digit_val c <=? 9)
        && eqc (Cal.digit_char (Dec.digit_val c)) c))
    eq_refl c) as F.
  cbv beta in F. rewrite H in F. cbn [implb] in F.
  repeat (apply andb_true_iff in F as [F ?]).
  repeat match goal with
         | X : Bool.eqb _ _ = true |- _ => apply Bool.eqb_prop in X
         | X : negb _ = true |- _ => apply negb_true_iff in X
         | X : (_ <=? _) = true |- _ => apply Z.leb_le in X
         | X : eqc _ _ = true |- _ => apply eqc_eq in X
         end.
  repeat split; assumption.
Qed.

Ltac digit_cases :=
  repeat (match goal with
          | |- context [?x =? ?y] => destruct (Z.eqb_spec x y)
          | |- context [?x <=? ?y] => destruct (Z.leb_spec x y)
          end; try lia; cbn [andb]).

(** The first alternative of [%d] that matches a day of one or two digits
    followed by "/" takes the whole day. *)
Lemma alternation_day (dt rest : str) :
  forallb isdigit dt = true -> (length dt = 1 \/ length dt = 2)%nat ->
  1 <= Dec.int_of_digits dt <= 31 ->
  exists tl, Cal.alternation Cal.group_d (dt ++ "/"%char :: rest)
             = (dt, "/"%char :: rest) :: tl.
Proof.
  intros Hd Hl Hv.
  destruct dt as [|a [|b [|? ?]]]; cbn [length] in Hl; try lia;
    cbn [forallb] in Hd.
  - rewrite andb_true_r in Hd.
    destruct (digit_classes a Hd) as (A3 & A0 & A1 & As & A01 & A12 & A19 & _).
    change (Dec.int_of_digits [a]) with (10 * 0 + Dec.digit_val a) in Hv.
    unfold Cal.alternation, Cal.group_d.
    cbn [flat_map Cal.match_pattern app].
    rewrite A3, A0, As, A12, A19.
    digit_cases; eexists; reflexivity.
  - apply andb_true_iff in Hd as [Ha Hb]. rewrite andb_true_r in Hb.
    destruct (digit_classes a Ha) as (A3 & A0 & A1 & As & A01 & A12 & A19 & _).
    destruct (digit_classes b Hb) as (_ & _ & _ & _ & B01 & _ & B19 & _ & Bv & _).
    change (Dec.int_of_digits [a; b])
      with (10 * (10 * 0 + Dec.digit_val a) + Dec.digit_val b) in Hv.
    unfold Cal.alternation, Cal.group_d.
    cbn [flat_map Cal.match_pattern app].
    rewrite A3, A0, As, A12, A19, B01, B19, Hb.
    digit_cases; eexists; reflexivity.
Qed.

Lemma alternation_month (mt rest : str) :
  forallb isdigit mt = true -> (length mt = 1 \/ length mt = 2)%nat ->
  1 <= Dec.int_of_digits mt <= 12 ->
  exists tl, Cal.alternation Cal.group_m (mt ++ "/"%char :: rest)
             = (mt, "/"%char :: rest) :: tl.
Proof.
  intros Hd Hl Hv.
  destruct mt as [|a [|b [|? ?]]]; cbn [length] in Hl; try lia;
    cbn [forallb] in Hd.
  - rewrite andb_true_r in Hd.
    destruct (digit_classes a Hd) as (A3 & A0 & A1 & As & A01 & A12 & A19 & _).
    change (Dec.int_of_digits [a]) with (10 * 0 + Dec.digit_val a) in Hv.
    unfold Cal.alternation, Cal.group_m.
    cbn [flat_map Cal.match_pattern app].
    rewrite A0, A1, A19.
    digit_cases; eexists; reflexivity.
  - apply andb_true_iff in Hd as [Ha Hb]. rewrite andb_true_r in Hb.
    destruct (digit_classes a Ha) as (A3 & A0 & A1 & As & A01 & A12 & A19 & _).
    destruct (digit_classes b Hb)
      as (_ & _ & _ & _ & _ & _ & B19 & B02 & Bv & _).
    change (Dec.int_of_digits [a; b])
      with (10 * (10 * 0 + Dec.digit_val a) + Dec.digit_val b) in Hv.
    unfold Cal.alternation, Cal.group_m.
    cbn [flat_map Cal.match_pattern app].
    rewrite A0, A1, A19, B19, B02.
    digit_cases; eexists; reflexivity.
Qed.

Lemma literal_slash (r : str) : Cal.literal "/" ("/"%char :: r) = [r].
Proof. reflexivity. Qed.

Lemma int_of_group_digits (t : str) :
  forallb isdigit t = true -> Cal.int_of_group t = Dec.int_of_digits t.
Proof.
  intros H. unfold Cal.int_of_group. f_equal. apply dropwhile_none.
  revert H. apply forallb_impl. intros c Hc.
  apply digit_not_slash in Hc as [_ Hc]. now rewrite Hc.
Qed.

Lemma alternation_year (yt : str) :
  forallb isdigit yt = true -> length yt = 4%nat ->
  Cal.alternation Cal.group_Y yt = [(yt, [])].
Proof.
  intros Hd Hl.
  destruct yt as [|y1 [|y2 [|y3 [|y4 [|? ?]]]]]; try discriminate Hl.
  cbn [forallb] in Hd. repeat (apply andb_true_iff in Hd as [? Hd]).
  unfold Cal.alternation, Cal.group_Y. cbn [flat_map Cal.match_pattern].
  repeat match goal with X : isdigit _ = true |- _ => rewrite X; clear X end.
  reflexivity.
Qed.

(** [strptime] with "%d/%m/%Y" on a day and a month of one or two digits
    and a year of four digits that make a date. *)
Lemma strptime_dmY_text (dt mt yt : str) (d : Cal.date) :
  forallb isdigit dt = true -> forallb isdigit mt = true ->
  forallb isdigit yt = true ->
  (length dt = 1 \/ length dt = 2)%nat -> (length mt = 1 \/ length mt = 2)%nat ->
  length yt = 4%nat ->
  Cal.make_date (Dec.int_of_digits yt) (Dec.int_of_digits mt)
    (Dec.int_of_digits dt) = Some d ->
  Cal.strptime_dmY (dt ++ "/"%char :: mt ++ "/"%char :: yt) = Some d.
Proof.
  intros Hd Hm Hy Ld Lm Ly Hdate.
  destruct (make_date_valid _ _ _ _ Hdate) as (_ & _ & Vm & Vd & _).
  destruct (alternation_day dt (mt ++ "/"%char :: yt) Hd Ld Vd) as [tl1 E1].
  destruct (alternation_month mt yt Hm Lm Vm) as [tl2 E2].
  unfold Cal.strptime_dmY, Cal.match_dmy.
  rewrite E1. cbn [flat_map]. rewrite literal_slash. cbn [flat_map].
  rewrite E2. cbn [flat_map]. rewrite literal_slash. cbn [flat_map].
  rewrite (alternation_year yt Hy Ly). cbn [map app head].
  now rewrite !int_of_group_digits.
Qed.

Lemma digit_char_eq (c : ascii) (n : Z) :
  isdigit c = true -> n mod 10 = Dec.digit_val c -> Cal.digit_char n = c.
Proof.
  intros Hc Hn.
  destruct (digit_classes c Hc) as (_ & _ & _ & _ & _ & _ & _ & _ & Hv & E).
  transitivity (Cal.digit_char (Dec.digit_val c)); [|exact E].
  unfold Cal.digit_char. rewrite Hn.
  now rewrite (Z.mod_small (Dec.digit_val c) 10) by lia.
Qed.

Lemma digit_char_zero (n : Z) : n mod 10 = 0 -> Cal.digit_char n = "0"%char.
Proof. intros H. unfold Cal.digit_char. now rewrite H. Qed.

Ltac digit_facts :=
  repeat match goal with
         | H : forallb isdigit (_ :: _) = true |- _ => cbn [forallb] in H
         | H : _ && _ = true |- _ => apply andb_true_iff in H as [? H]
         | H : true = true |- _ => clear H
         end;
  repeat match goal with
         | H : isdigit ?c = true |- _ =>
             let A := fresh in let B := fresh in let C := fresh in
             let D := fresh in let E := fresh in let F := fresh in
             destruct (isdigit_facts c H) as (A & B & _ & _);
             destruct (digit_not_slash c H) as (C & D);
             pose proof (digit_classes c H) as E;
             destruct E as (_ & _ & _ & _ & _ & _ & _ & _ & E & _);
             pose proof A as F; rewrite eqc_sym in F;
             revert H
         end; intros.

(** The ISO text of the date of a day/month/year text: the year, the
    month and the day of the text, the last two filled to two digits. *)
Lemma isoformat_of_text (dt mt yt : str) :
  forallb isdigit dt = true -> forallb isdigit mt = true ->
  forallb isdigit yt = true ->
  (length dt = 1 \/ length dt = 2)%nat -> (length mt = 1 \/ length mt = 2)%nat ->
  length yt = 4%nat ->
  Cal.isoformat (Cal.Date (Dec.int_of_digits yt) (Dec.int_of_digits mt)
                   (Dec.int_of_digits dt))
  = yt ++ lit "-" ++ zfill 2 mt ++ lit "-" ++ zfill 2 dt.
Proof.
  intros Hd Hm Hy Ld Lm Ly.
  destruct yt as [|y1 [|y2 [|y3 [|y4 [|? ?]]]]]; try discriminate Ly.
  assert (Hz : forall t, forallb isdigit t = true ->
                 (length t = 1 \/ length t = 2)%nat ->
                 zfill 2 t = [Cal.digit_char (Dec.int_of_digits t / 10);
                              Cal.digit_char (Dec.int_of_digits t)]).
  { intros t Ht Lt.
    destruct t as [|a [|b [|? ?]]]; cbn [length] in Lt; try lia; digit_facts.
    - unfold zfill. cbn [length Nat.sub repeat app].
      match goal with X : eqc a "+" = false |- _ => rewrite X end.
      match goal with X : eqc a "-" = false |- _ => rewrite X end.
      cbn [orb]. unfold Dec.int_of_digits. cbn [fold_left].
      rewrite digit_char_zero by (Z.div_mod_to_equations; lia).
      now rewrite (digit_char_eq a) by (assumption || (Z.div_mod_to_equations; lia)).
    - unfold zfill. cbn [length Nat.sub repeat app].
      match goal with X : eqc a "+" = false |- _ => rewrite X end.
      match goal with X : eqc a "-" = false |- _ => rewrite X end.
      cbn [orb]. unfold Dec.int_of_digits. cbn [fold_left].
      rewrite (digit_char_eq a) by (assumption || (Z.div_mod_to_equations; lia)).
      now rewrite (digit_char_eq b) by (assumption || (Z.div_mod_to_equations; lia)). }
  rewrite (Hz mt Hm Lm), (Hz dt Hd Ld). clear Hz Hd Hm Ld Lm.
  unfold Cal.isoformat. cbn [Cal.year Cal.month Cal.day app].
  change (lit "-") with [ "-"%char ]. cbn [app].
  digit_facts. unfold Dec.int_of_digits at 1 2 3 4. cbn [fold_left].
  rewrite (digit_char_eq y1), (digit_char_eq y2), (digit_char_eq y3),
    (digit_char_eq y4) by (assumption || (Z.div_mod_to_equations; lia)).
  reflexivity.
Qed.

Lemma split_field (c : ascii) (a r : str) :
  has_char c a = false -> split c (a ++ c :: r) = a :: split c r.
Proof.
  unfold has_char. induction a as [|x a IH]; cbn [app split existsb].
  - intros _. now rewrite eqc_refl.
  - intros H. apply orb_false_iff in H as [Hx Ha]. now rewrite Hx, (IH Ha).
Qed.

Lemma split_last (c : ascii) (a : str) :
  has_char c a = false -> split c a = [a].
Proof.
  unfold has_char. induction a as [|x a IH]; cbn [split existsb];
    [reflexivity|].
  intros H. apply orb_false_iff in H as [Hx Ha]. now rewrite Hx, (IH Ha).
Qed.

(** [parse_date] on a day/month/year text. *)
Lemma parse_date_text (dt mt yt : str) :
  forallb isdigit dt = true -> forallb isdigit mt = true ->
  forallb isdigit yt = true ->
  dt <> [] -> length yt = 4%nat ->
  parse_date (dt ++ "/"%char :: mt ++ "/"%char :: yt)
  = Some (yt ++ lit "-" ++ zfill 2 mt ++ lit "-" ++ zfill 2 dt).
Proof.
  intros Hd Hm Hy Nd Ly.
  set (s := dt ++ "/"%char :: mt ++ "/"%char :: yt).
  assert (Hdash : has_char "-" s = false).
  { unfold s, has_char. rewrite existsb_app. cbn [existsb].
    rewrite existsb_app. cbn [existsb].
    fold (has_char "-" dt) (has_char "-" mt) (has_char "-" yt).
    now rewrite !(has_char_digits "-") by (reflexivity || assumption). }
  assert (Hstrip : strip s = s).
  { apply strip_fixed.
    - unfold s. destruct dt as [|a dt]; [congruence|].
      cbn [forallb] in Hd. apply andb_true_iff in Hd as [Ha _].
      apply digit_not_slash in Ha as [_ Ha]. cbn [app no_leading_ws].
      now rewrite Ha.
    - unfold s, no_trailing_ws.
      destruct yt as [|y1 [|y2 [|y3 [|y4 [|? ?]]]]]; try discriminate Ly.
      rewrite rev_app_distr.
      change (rev ("/"%char :: mt ++ "/"%char :: [y1; y2; y3; y4]))
        with (rev (mt ++ "/"%char :: [y1; y2; y3; y4]) ++ [ "/"%char ]).
      rewrite rev_app_distr. cbn [rev app no_leading_ws].
      cbn [forallb] in Hy. repeat (apply andb_true_iff in Hy as [? Hy]).
      match goal with
      | X : isdigit y4 = true |- _ => apply digit_not_slash in X as [_ X];
                                       now rewrite X
      end. }
  assert (Hsplit : split "/" s = [dt; mt; yt]).
  { unfold s.
    rewrite split_field by (apply has_char_digits; [reflexivity | assumption]).
    rewrite split_field by (apply has_char_digits; [reflexivity | assumption]).
    now rewrite split_last
      by (apply has_char_digits; [reflexivity | assumption]). }
  unfold parse_date. rewrite Hstrip.
  assert (Hiso : iso_shaped s = false) by (unfold iso_shaped; now rewrite Hdash).
  rewrite Hiso, Hsplit. unfold reassemble. rewrite Ly.
  destruct s eqn:Es; [|reflexivity].
  unfold s in Es. destruct dt; [congruence | discriminate Es].
Qed.

(** X13: on a text that, once trimmed, is a day and a month of one or two
    digits and a year of four digits, separated by "/", and that names a
    date of the calendar, the converter's [_parse_weekending] and the
    analyser's [parse_date] return the same text: the ISO form of that
    date. *)
Theorem date_normalisers_agree (t dt mt yt : str) (d : Cal.date) :
  strip t = dt ++ lit "/" ++ mt ++ lit "/" ++ yt ->
  forallb isdigit dt = true -> forallb isdigit mt = true ->
  forallb isdigit yt = true ->
  (length dt = 1 \/ length dt = 2)%nat -> (length mt = 1 \/ length mt = 2)%nat ->
  length yt = 4%nat ->
  Cal.make_date (Dec.int_of_digits yt) (Dec.int_of_digits mt)
    (Dec.int_of_digits dt) = Some d ->
  _parse_weekending t = Cal.isoformat d
  /\ parse_date (strip t) = Some (Cal.isoformat d)
  /\ dates_agree t = true.
Proof.
  intros Hs Hd Hm Hy Ld Lm Ly Hdate.
  change (dt ++ lit "/" ++ mt ++ lit "/" ++ yt)
    with (dt ++ "/"%char :: mt ++ "/"%char :: yt) in Hs.
  pose proof (strptime_dmY_text dt mt yt d Hd Hm Hy Ld Lm Ly Hdate) as Hp.
  assert (Nd : dt <> []) by (destruct dt; [cbn in Ld; lia | discriminate]).
  pose proof (parse_date_text dt mt yt Hd Hm Hy Nd Ly) as Hq.
  rewrite <- (isoformat_of_text dt mt yt Hd Hm Hy Ld Lm Ly) in Hq.
  destruct (make_date_valid _ _ _ _ Hdate) as (Ed & _).
  rewrite <- Ed in Hq.
  assert (H1 : _parse_weekending t = Cal.isoformat d).
  { unfold _parse_weekending. rewrite Hs, Hp.
    destruct dt; [congruence | reflexivity]. }
  assert (H2 : parse_date (strip t) = Some (Cal.isoformat d))
    by now rewrite Hs.
  repeat split; try assumption.
  unfold dates_agree. rewrite H1, H2. cbn [opt_eqs]. rewrite eqs_refl.
  apply orb_true_r.
Qed.

Lemma date_normalisers_agree_witness :
  _parse_weekending (lit " 5/03/2025 ") = Cal.isoformat (Cal.Date 2025 3 5)
  /\ parse_date (strip (lit " 5/03/2025 "))
     = Some (Cal.isoformat (Cal.Date 2025 3 5))
  /\ dates_agree (lit " 5/03/2025 ") = true.
Proof.
  apply (date_normalisers_agree (lit " 5/03/2025 ") (lit "5") (lit "03")
           (lit "2025") (Cal.Date 2025 3 5));
    try reflexivity; (left; reflexivity) || (right; reflexivity).
Defined.

(** ** Day/month/year texts with a year of two digits *)

Lemma alternation_group_Y_short (yt : str) :
  (length yt < 4)%nat -> Cal.alternation Cal.group_Y yt = [].
Proof.
  intros H. unfold Cal.alternation, Cal.group_Y. cbn [flat_map].
  destruct (Cal.match_pattern [isdigit; isdigit; isdigit; isdigit] yt)
    as [[m r]|] eqn:E; [|reflexivity].
  apply match_pattern_split in E as [-> Hl]. rewrite length_app in H.
  cbn [length] in Hl. lia.
Qed.

Lemma literal_digit (c : ascii) (r : str) :
  isdigit c = true -> Cal.literal "/" (c :: r) = [].
Proof.
  intros H. apply digit_not_slash in H as [H _]. cbn [Cal.literal].
  now rewrite H.
Qed.

Lemma group_lengths (p : Cal.pattern) :
  In p Cal.group_d \/ In p Cal.group_m -> (length p = 1 \/ length p = 2)%nat.
Proof.
  unfold Cal.group_d, Cal.group_m. cbn [In].
  intros [H | H]; repeat (destruct H as [<- | H]; [cbn; lia|]); destruct H.
Qed.

(** What is left after a group of one or two characters is taken from the
    start of digits followed by "/": a text that starts with a digit, or
    the "/" and what follows it. *)
Lemma after_group (ps : list Cal.pattern) (t rest m r1 : str) :
  (forall p, In p ps -> (length p = 1 \/ length p = 2)%nat) ->
  forallb isdigit t = true -> (length t = 1 \/ length t = 2)%nat ->
  match rest with c :: _ => isdigit c = true | [] => False end ->
  In (m, r1) (Cal.alternation ps (t ++ "/"%char :: rest)) ->
  Cal.literal "/" r1 = [] \/ (m = t /\ r1 = "/"%char :: rest).
Proof.
  intros Hps Ht Lt Hrest Hin.
  apply in_alternation in Hin as (p & Hp & Hs & Hl).
  specialize (Hps p Hp). rewrite <- Hl in Hps. clear Hl Hp p.
  destruct rest as [|c rest]; [destruct Hrest|].
  destruct t as [|a [|b [|? ?]]]; cbn [length] in Lt; try lia;
    cbn [forallb] in Ht;
    destruct m as [|x1 [|x2 [|? ?]]]; cbn [length] in Hps; try lia;
    cbn [app] in Hs; injection Hs; intros; subst.
  - now right.
  - left. now apply literal_digit.
  - left. apply literal_digit.
    apply andb_true_iff in Ht as [_ Ht]. now rewrite andb_true_r in Ht.
  - now right.
Qed.

Lemma head_digit (t rest : str) :
  forallb isdigit t = true -> t <> [] ->
  match t ++ rest with c :: _ => isdigit c = true | [] => False end.
Proof.
  intros H N. destruct t as [|c t]; [congruence|]. cbn [app forallb] in *.
  now apply andb_true_iff in H as [H _].
Qed.

(** "%d/%m/%Y" rejects a text whose year has fewer than four digits. *)
Lemma strptime_dmY_short (dt mt yt : str) :
  forallb isdigit dt = true -> forallb isdigit mt = true ->
  forallb isdigit yt = true ->
  (length dt = 1 \/ length dt = 2)%nat -> (length mt = 1 \/ length mt = 2)%nat ->
  yt <> [] -> (length yt < 4)%nat ->
  Cal.strptime_dmY (dt ++ "/"%char :: mt ++ "/"%char :: yt) = None.
Proof.
  intros Hd Hm Hy Ld Lm Ny Ly.
  assert (Nm : mt <> []) by (destruct mt; [cbn in Lm; lia | discriminate]).
  unfold Cal.strptime_dmY, Cal.match_dmy.
  rewrite flat_map_nil; [reflexivity|].
  intros [m r1] Hin.
  destruct (after_group Cal.group_d dt (mt ++ "/"%char :: yt) m r1)
    as [Hlit | [-> ->]]; try assumption.
  { intros p Hp. apply group_lengths. now left. }
  { now apply head_digit. }
  { now rewrite Hlit. }
  rewrite literal_slash. cbn [flat_map]. rewrite app_nil_r.
  apply flat_map_nil. intros [m' r3] Hin'.
  destruct (after_group Cal.group_m mt yt m' r3) as [Hlit | [-> ->]];
    try assumption.
  { intros p Hp. apply group_lengths. now right. }
  { rewrite <- (app_nil_r yt). now apply head_digit. }
  { now rewrite Hlit. }
  rewrite literal_slash. cbn [flat_map].
  now rewrite alternation_group_Y_short.
Qed.

Lemma alternation_year2 (yt : str) :
  forallb isdigit yt = true -> length yt = 2%nat ->
  Cal.alternation Cal.group_y yt = [(yt, [])].
Proof.
  intros Hd Hl.
  destruct yt as [|y1 [|y2 [|? ?]]]; try discriminate Hl.
  cbn [forallb] in Hd. repeat (apply andb_true_iff in Hd as [? Hd]).
  unfold Cal.alternation, Cal.group_y. cbn [flat_map Cal.match_pattern].
  repeat match goal with X : isdigit _ = true |- _ => rewrite X; clear X end.
  reflexivity.
Qed.

(** "%d/%m/%y" on a day and a month of one or two digits and a year of two
    digits that make a date; the year is taken in the 2000s up to 68. *)
Lemma strptime_dmy_text (dt mt yt : str) (d : Cal.date) :
  forallb isdigit dt = true -> forallb isdigit mt = true ->
  forallb isdigit yt = true ->
  (length dt = 1 \/ length dt = 2)%nat -> (length mt = 1 \/ length mt = 2)%nat ->
  length yt = 2%nat ->
  Cal.make_date
    (if Dec.int_of_digits yt <=? 68 then Dec.int_of_digits yt + 2000
     else Dec.int_of_digits yt + 1900)
    (Dec.int_of_digits mt) (Dec.int_of_digits dt) = Some d ->
  Cal.strptime_dmy (dt ++ "/"%char :: mt ++ "/"%char :: yt) = Some d.
Proof.
  intros Hd Hm Hy Ld Lm Ly Hdate.
  destruct (make_date_valid _ _ _ _ Hdate) as (_ & _ & Vm & Vd & _).
  destruct (alternation_day dt (mt ++ "/"%char :: yt) Hd Ld Vd) as [tl1 E1].
  destruct (alternation_month mt yt Hm Lm Vm) as [tl2 E2].
  unfold Cal.strptime_dmy, Cal.match_dmy.
  rewrite E1. cbn [flat_map]. rewrite literal_slash. cbn [flat_map].
  rewrite E2. cbn [flat_map]. rewrite literal_slash. cbn [flat_map].
  rewrite (alternation_year2 yt Hy Ly). cbn [map app head]. cbv zeta.
  now rewrite !int_of_group_digits.
Qed.

Lemma parse_date_text2 (dt mt yt : str) :
  forallb isdigit dt = true -> forallb isdigit mt = true ->
  forallb isdigit yt = true ->
  dt <> [] -> length yt = 2%nat ->
  parse_date (dt ++ "/"%char :: mt ++ "/"%char :: yt)
  = Some ((lit "20" ++ yt) ++ lit "-" ++ zfill 2 mt ++ lit "-" ++ zfill 2 dt).
Proof.
  intros Hd Hm Hy Nd Ly.
  set (s := dt ++ "/"%char :: mt ++ "/"%char :: yt).
  assert (Hdash : has_char "-" s = false).
  { unfold s, has_char. rewrite existsb_app. cbn [existsb].
    rewrite existsb_app. cbn [existsb].
    fold (has_char "-" dt) (has_char "-" mt) (has_char "-" yt).
    now rewrite !(has_char_digits "-") by (reflexivity || assumption). }
  assert (Hstrip : strip s = s).
  { apply strip_fixed.
    - unfold s. destruct dt as [|a dt]; [congruence|].
      cbn [forallb] in Hd. apply andb_true_iff in Hd as [Ha _].
      apply digit_not_slash in Ha as [_ Ha]. cbn [app no_leading_ws].
      now rewrite Ha.
    - unfold s, no_trailing_ws.
      destruct yt as [|y1 [|y2 [|? ?]]]; try discriminate Ly.
      rewrite rev_app_distr.
      change (rev ("/"%char :: mt ++ "/"%char :: [y1; y2]))
        with (rev (mt ++ "/"%char :: [y1; y2]) ++ [ "/"%char ]).
      rewrite rev_app_distr. cbn [rev app no_leading_ws].
      cbn [forallb] in Hy. repeat (apply andb_true_iff in Hy as [? Hy]).
      match goal with
      | X : isdigit y2 = true |- _ => apply digit_not_slash in X as [_ X];
                                       now rewrite X
      end. }
  assert (Hsplit : split "/" s = [dt; mt; yt]).
  { unfold s.
    rewrite split_field by (apply has_char_digits; [reflexivity | assumption]).
    rewrite split_field by (apply has_char_digits; [reflexivity | assumption]).
    now rewrite split_last
      by (apply has_char_digits; [reflexivity | assumption]). }
  unfold parse_date. rewrite Hstrip.
  assert (Hiso : iso_shaped s = false) by (unfold iso_shaped; now rewrite Hdash).
  rewrite Hiso, Hsplit. unfold reassemble. rewrite Ly.
  destruct s eqn:Es; [|reflexivity].
  unfold s in Es. destruct dt; [congruence | discriminate Es].
Qed.

(** X14: on a text that, once trimmed, is a day and a month of one or two
    digits and a year of two digits up to 68, separated by "/", and that
    names a date of the calendar in the 2000s, [_parse_weekending] and
    [parse_date] return the same text, the ISO form of that date; the
    four-digit format is tried first and rejects the text. *)
Theorem date_normalisers_agree_short_year (t dt mt yt : str) (d : Cal.date) :
  strip t = dt ++ lit "/" ++ mt ++ lit "/" ++ yt ->
  forallb isdigit dt = true -> forallb isdigit mt = true ->
  forallb isdigit yt = true ->
  (length dt = 1 \/ length dt = 2)%nat -> (length mt = 1 \/ length mt = 2)%nat ->
  length yt = 2%nat -> Dec.int_of_digits yt <= 68 ->
  Cal.make_date (2000 + Dec.int_of_digits yt) (Dec.int_of_digits mt)
    (Dec.int_of_digits dt) = Some d ->
  _parse_weekending t = Cal.isoformat d
  /\ parse_date (strip t) = Some (Cal.isoformat d)
  /\ dates_agree t = true.
Proof.
  intros Hs Hd Hm Hy Ld Lm Ly Hyy Hdate.
  change (dt ++ lit "/" ++ mt ++ lit "/" ++ yt)
    with (dt ++ "/"%char :: mt ++ "/"%char :: yt) in Hs.
  assert (Ny : yt <> []) by (destruct yt; [discriminate Ly | discriminate]).
  assert (Nd : dt <> []) by (destruct dt; [cbn in Ld; lia | discriminate]).
  pose proof (strptime_dmY_short dt mt yt Hd Hm Hy Ld Lm Ny ltac:(lia)) as Hp1.
  assert (Hp2 : Cal.strptime_dmy (dt ++ "/"%char :: mt ++ "/"%char :: yt)
                = Some d).
  { apply strptime_dmy_text; try assumption.
    apply Z.leb_le in Hyy. rewrite Hyy.
    now rewrite Z.add_comm. }
  pose proof (parse_date_text2 dt mt yt Hd Hm Hy Nd Ly) as Hq.
  assert (Hy' : forallb isdigit (lit "20" ++ yt) = true)
    by (cbn [lit list_ascii_of_string app forallb]; now rewrite Hy).
  assert (Ly' : length (lit "20" ++ yt) = 4%nat)
    by (cbn [lit list_ascii_of_string app length]; now rewrite Ly).
  rewrite <- (isoformat_of_text dt mt (lit "20" ++ yt) Hd Hm Hy' Ld Lm Ly') in Hq.
  assert (Hint : Dec.int_of_digits (lit "20" ++ yt) = 2000 + Dec.int_of_digits yt).
  { rewrite int_of_digits_app. unfold Dec.len. rewrite Ly.
    change (Dec.int_of_digits (lit "20")) with 20.
    change (10 ^ Z.of_nat 2) with 100. lia. }
  rewrite Hint in Hq.
  destruct (make_date_valid _ _ _ _ Hdate) as (Ed & _).
  rewrite <- Ed in Hq.
  assert (H1 : _parse_weekending t = Cal.isoformat d).
  { unfold _parse_weekending. rewrite Hs, Hp1, Hp2.
    destruct dt; [congruence | reflexivity]. }
  assert (H2 : parse_date (strip t) = Some (Cal.isoformat d))
    by now rewrite Hs.
  repeat split; try assumption.
  unfold dates_agree. rewrite H1, H2. cbn [opt_eqs]. rewrite eqs_refl.
  apply orb_true_r.
Qed.

Lemma date_normalisers_agree_short_year_witness :
  _parse_weekending (lit "05/03/25") = Cal.isoformat (Cal.Date 2025 3 5)
  /\ parse_date (strip (lit "05/03/25"))
     = Some (Cal.isoformat (Cal.Date 2025 3 5))
  /\ dates_agree (lit "05/03/25") = true.
Proof.
  apply (date_normalisers_agree_short_year (lit "05/03/25") (lit "05")
           (lit "03") (lit "25") (Cal.Date 2025 3 5));
    try reflexivity; try (right; reflexivity).
  vm_compute. discriminate.
Defined.

(** ** What [compare_outputs] reports *)

Section GroupingContents.

Context {K V : Type} (eqk : K -> K -> bool).
Hypothesis eqk_eq : forall a b, eqk a b = true -> a = b.

Lemma group_add_contents (k : K) (v : V) (g : list (K * list V)) :
  Permutation (flat_map snd (group_add eqk k v g)) (v :: flat_map snd g).
Proof.
  induction g as [|[k' vs] g IH]; cbn [group_add flat_map snd].
  - reflexivity.
  - destruct (eqk k' k); cbn [flat_map snd].
    + rewrite <- app_assoc. cbn [app]. symmetry. apply Permutation_middle.
    + rewrite IH. symmetry. apply Permutation_middle.
Qed.

Lemma group_add_keys (key : V -> K) (v : V) (g : list (K * list V)) :
  Forall (fun kv => Forall (fun x => key x = fst kv) (snd kv)) g ->
  Forall (fun kv => Forall (fun x => key x = fst kv) (snd kv))
    (group_add eqk (key v) v g).
Proof.
  induction g as [|[k' vs] g IH]; cbn [group_add]; intros H.
  - repeat constructor.
  - apply List.Forall_cons_iff in H as [Hv Hg]. cbn [fst snd] in Hv.
    destruct (eqk k' (key v)) eqn:E.
    + constructor; [|exact Hg]. cbn [fst snd]. apply Forall_app. split;
        [exact Hv|]. constructor; [|constructor].
      symmetry. now apply eqk_eq.
    + constructor; [exact Hv | now apply IH].
Qed.

Lemma group_fold_contents (key : V -> K) (vs : list V) (g0 : list (K * list V)) :
  Forall (fun kv => Forall (fun x => key x = fst kv) (snd kv)) g0 ->
  Permutation
    (flat_map snd (fold_left (fun g v => group_add eqk (key v) v g) vs g0))
    (flat_map snd g0 ++ vs)
  /\ Forall (fun kv => Forall (fun x => key x = fst kv) (snd kv))
       (fold_left (fun g v => group_add eqk (key v) v g) vs g0).
Proof.
  revert g0. induction vs as [|v vs IH]; intros g0 H0; cbn [fold_left].
  - rewrite app_nil_r. now split.
  - destruct (IH _ (group_add_keys key v g0 H0)) as [P F].
    split; [|exact F].
    rewrite P, group_add_contents. cbn [app]. apply Permutation_middle.
Qed.

(** The groups of [group_by] hold the values once each, every value under
    its own key. *)
Lemma group_by_contents (key : V -> K) (vs : list V) :
  Permutation (flat_map snd (group_by eqk key vs)) vs
  /\ Forall (fun kv => Forall (fun x => key x = fst kv) (snd kv))
       (group_by eqk key vs).
Proof. apply (group_fold_contents key vs []). constructor. Qed.

End GroupingContents.

Lemma filter_permutation {A : Type} (P : A -> bool) (l l' : list A) :
  Permutation l l' -> Permutation (List.filter P l) (List.filter P l').
Proof.
  induction 1 as [|x l l' _ IH|x y l|l l' l'' _ IH1 _ IH2]; cbn [List.filter].
  - constructor.
  - destruct (P x); [now constructor | exact IH].
  - destruct (P x), (P y); try reflexivity. constructor.
  - now rewrite IH1.
Qed.

Lemma filter_same {A : Type} (P : A -> bool) (b : bool) (l : list A) :
  Forall (fun x => P x = b) l -> List.filter P l = if b then l else [].
Proof.
  induction 1 as [|x l Hx _ IH]; cbn [List.filter]; [now destruct b|].
  rewrite Hx, IH. now destruct b.
Qed.

(** X15: [compare_outputs] reports every actual row whose key (trimmed
    employeeid, trimmed weekending, type of the description) matches no
    expected line, once and with the row's own description, amount, rate
    and weekending, and it reports nothing else: its result is a
    rearrangement, by key, of the EXTRA_LINE entries of these rows. Amount
    and rate are never compared with the expected ones. *)
Theorem compare_outputs_reports (expected : list expected_line)
    (actual_rows : list row) (label : str) :
  Permutation (compare_outputs expected actual_rows label)
    (map (fun r => extra_line label (strip (get_col r "employeeid")) r)
       (List.filter (fun r => unmatched expected (actual_key r)) actual_rows)).
Proof.
  destruct (group_by_contents eq_key3 eq_key3_eq actual_key actual_rows)
    as [Hperm Hkeys].
  rewrite <- (filter_permutation _ _ _ Hperm). clear Hperm.
  unfold compare_outputs.
  induction Hkeys as [|[k vs] g Hk _ IH]; [reflexivity|].
  cbn [flat_map snd]. rewrite List.filter_app, map_app.
  apply Permutation_app; [|exact IH]. cbn [fst snd] in Hk.
  assert (Hf : List.filter (fun r => unmatched expected (actual_key r)) vs
               = if unmatched expected k then vs else []).
  { apply filter_same. revert Hk. apply List.Forall_impl.
    now intros r ->. }
  rewrite Hf. unfold unmatched.
  destruct (List.filter (matches_key k) expected).
  - assert (Hm : map (extra_line label (fst (fst k))) vs
                 = map (fun r => extra_line label
                                   (strip (get_col r "employeeid")) r) vs).
    { apply map_ext_Forall. revert Hk. apply List.Forall_impl.
      now intros r <-. }
    rewrite <- Hm. now destruct vs.
  - reflexivity.
Qed.

(** Two rows of one key and a row of another key that the expected lines
    match: the first two are reported, in their order. *)
Example compare_outputs_reports_sample :
  map d_description
    (compare_outputs (fst (analyze_input [sample_row]))
       [output_row "OT1 Hrs - Acme Ltd - Fitter" "5" "18";
        output_row "Std Hrs - Acme Ltd - Fitter" "37.5" "12";
        output_row "OT1 Hrs - Acme Ltd - Welder" "2" "18"] (lit "test"))
  = [lit "OT1 Hrs - Acme Ltd - Fitter"; lit "OT1 Hrs - Acme Ltd - Welder"].
Proof. vm_compute. reflexivity. Qed.

(** ** The date check of [main] *)

Lemma date_check_facts (inp out : row) :
  (length (date_check inp out) <= 1)%nat
  /\ Forall (fun r =>
               dr_weekending r = strip (get_col out "weekending")
               /\ startswith (lit "2025-") (dr_weekending r) = true
               /\ dr_input_we r <> Some (dr_weekending r)
               /\ dr_dob r = get_col inp "Candidate DOB")
       (date_check inp out).
Proof.
  unfold date_check. cbv zeta.
  destruct (opt_eqs _ _) eqn:E; [split; [cbn; lia | constructor]|].
  destruct (get_col inp "Candidate DOB") as [|c dob];
    [split; [cbn; lia | constructor]|].
  destruct (split "/" (c :: dob)) as [|d0 [|d1 parts]];
    try (split; [cbn; lia | constructor]).
  destruct (eqs _ _) eqn:Ew; [|split; [cbn; lia | constructor]].
  split; [cbn; lia|]. constructor; [|constructor].
  cbn [dr_weekending dr_input_we dr_dob]. repeat split.
  - apply eqs_eq in Ew. rewrite Ew. apply startswith_app.
  - intros H. rewrite H in E. cbn [opt_eqs] in E. now rewrite eqs_refl in E.
Qed.

(** X16: the date check of [main] prints at most one line for each row of
    the expected result, and only for a row whose trimmed week-ending
    starts with "2025-" and differs from the normalised week-ending of the
    first input record of its employee: a week-ending taken from a date of
    birth is never reported in another year. *)
Theorem date_issues_year (input_rows expected_result : list row) :
  (length (date_issues input_rows expected_result)
   <= length expected_result)%nat
  /\ Forall (fun r => startswith (lit "2025-") (dr_weekending r) = true
                      /\ dr_input_we r <> Some (dr_weekending r))
       (date_issues input_rows expected_result).
Proof.
  unfold date_issues.
  induction expected_result as [|out outs [IHl IHf]];
    [split; [cbn; lia | constructor]|].
  cbn [flat_map length]. rewrite length_app.
  destruct (List.find _ input_rows) as [inp|].
  - destruct (date_check_facts inp out) as [Hl Hf]. split; [lia|].
    apply Forall_app. split; [|exact IHf].
    revert Hf. apply List.Forall_impl. tauto.
  - split; [cbn; lia | exact IHf].
Qed.

(** A row of the expected result whose week-ending is the day and month
    of the employee's date of birth in 2025 is reported. *)
Example date_issues_sample :
  date_issues [dob_row] [dob_result_row]
  = [DateReport (lit "E1") (lit "2025-11-07") (lit "7/11/1990")
       (Some (lit "2025-03-05"))].
Proof. vm_compute. reflexivity. Qed.

(** ** Records that [analyze_input] skips *)

(** X17: [analyze_input] skips a record whose employee reference,
    forename, surname or week-ending is blank: it adds no expected line and
    no issue, and the record still counts in the row numbers of the
    records after it. These are the records [convert_rows] skips for a
    blank field; [analyze_input] has no check for the header text. *)
Theorem analyze_blank_skipped (r : row) (rs : list row) :
  blank (get_col r "Candidate RefNo") = true
  \/ blank (get_col r "Candidate Forename") = true
  \/ blank (get_col r "Candidate Surname") = true
  \/ blank (get_col r "Weekending") = true ->
  analyze_input (r :: rs) = analyze_from 3 rs.
Proof.
  intros H. unfold analyze_input. cbn [analyze_from].
  assert (Hrow : analyze_row 2 r = ([], [])).
  { unfold analyze_row. cbv zeta.
    destruct H as [H | [H | [H | H]]]; apply strip_nil_iff in H; rewrite H;
      cbn [is_empty]; now rewrite ?orb_true_r. }
  rewrite Hrow. now destruct (analyze_from 3 rs).
Qed.

Lemma analyze_blank_skipped_witness :
  analyze_input (blank_surname_row :: [plain_sample_row])
  = analyze_from 3 [plain_sample_row].
Proof.
  apply (analyze_blank_skipped blank_surname_row [plain_sample_row]).
  right. right. left. vm_compute. reflexivity.
Defined.

(** A record that repeats the header in its employee reference is skipped
    by [convert_rows] and not by [analyze_input]. *)
Example header_row_expected :
  convert_rows [header_like_row] = Ok []
  /\ map e_type (fst (analyze_input [header_like_row])) = [lit "Std Hrs"].
Proof. split; vm_compute; reflexivity. Qed.

(** ** Overtime hours that cannot be read *)

(** X18: in the checks of [main], overtime hours of the input that are
    missing or that [float] cannot read count as zero: an output row whose
    description contains "OT1 Hrs" is then reported as an OT1 line without
    hours against every input row of its key. *)
Theorem unreadable_hours_flagged (out inp : row) :
  contains (lit "OT1 Hrs") (get_col out "description") = true ->
  inp !! "OT1 Hrs" = None
  \/ (exists v : str, inp !! "OT1 Hrs" = Some v
                      /\ Flt.of_str (remove_char "," (strip v)) = None) ->
  exists f : finding,
    In f (check_against out inp)
    /\ f_issue f = OT1_without_hours (parse_num (get_or_zero inp "OT1 Rate")).
Proof.
  intros Hc Hin.
  assert (Hz : Flt.eq_int (parse_num (get_or_zero inp "OT1 Hrs")) 0 = true).
  { unfold get_or_zero. destruct Hin as [-> | (v & -> & Hv)]; [reflexivity|].
    cbn [default from_option id]. unfold parse_num. rewrite Hv.
    now destruct v. }
  unfold check_against. cbv zeta. rewrite Hc, Hz. cbn [andb].
  eexists. split; [left; reflexivity | reflexivity].
Qed.

Lemma unreadable_hours_flagged_witness :
  exists f : finding,
    In f (check_against (output_row "OT1 Hrs - Acme Ltd - Fitter" "5" "18")
            unreadable_hours_row)
    /\ f_issue f
       = OT1_without_hours (parse_num (get_or_zero unreadable_hours_row "OT1 Rate")).
Proof.
  apply (unreadable_hours_flagged
           (output_row "OT1 Hrs - Acme Ltd - Fitter" "5" "18")
           unreadable_hours_row).
  - vm_compute. reflexivity.
  - right. exists (lit "n/a"). split; vm_compute; reflexivity.
Defined.

(** ** One line per component *)

Lemma hours_lines_types (prefix id fn sn client job we : str)
    (hours rate : Dec.decimal) (L : list (list str)) :
  line_type (_desc prefix client job) = prefix ->
  hours_lines prefix [id; fn; sn] client job hours rate we = Ok L ->
  exists b : bool, line_types L = if b then [prefix] else [].
Proof.
  intros Ht. unfold hours_lines.
  destruct (ne0 hours) as [h|e]; cbn [bind]; [|discriminate].
  destruct (if h then ne0 rate else Ok false) as [both|e]; cbn [bind];
    [|discriminate].
  destruct both; [|intros H; injection H as <-; now exists false].
  destruct (_fmt_decimal hours) as [a|e]; cbn [bind]; [|discriminate].
  destruct (_fmt_decimal rate) as [b|e]; cbn [bind]; [|discriminate].
  intros H. injection H as <-. exists true.
  unfold line_types. cbn [map app nth]. now rewrite Ht.
Qed.

Lemma line_types_app (a b : list (list str)) :
  line_types (a ++ b) = line_types a ++ line_types b.
Proof. apply map_app. Qed.

Lemma convert_row_types (r : row) (L : list (list str)) :
  convert_row r = Ok L -> component_shape (line_types L).
Proof.
  unfold convert_row. cbv zeta.
  destruct (_ || _);
    [intros H; injection H as <-; now exists false, false, false|].
  destruct (eqs _ _);
    [intros H; injection H as <-; now exists false, false, false|].
  destruct (ne0 _) as [e|x]; cbn [bind]; [|discriminate].
  destruct (if e then _ else _) as [LE|x] eqn:EE; cbn [bind]; [|discriminate].
  destruct (hours_lines (lit "Std Hrs") _ _ _ _ _ _) as [LS|x] eqn:ES;
    cbn [bind]; [|discriminate].
  destruct (hours_lines (lit "OT1 Hrs") _ _ _ _ _ _) as [LO|x] eqn:EO;
    cbn [bind]; [|discriminate].
  intros H. injection H as <-.
  apply hours_lines_types in ES as [bs Hs]; [|reflexivity].
  apply hours_lines_types in EO as [bo Ho]; [|reflexivity].
  assert (He : exists be : bool,
             line_types LE = if be then [lit "Expenses"] else []).
  { destruct e; [|injection EE as <-; now exists false].
    destruct (_fmt_decimal _) as [x|x]; cbn [bind] in EE; [|discriminate EE].
    injection EE as <-. now exists true. }
  destruct He as [be He]. exists be, bs, bo.
  now rewrite !line_types_app, He, Hs, Ho.
Qed.

(** X19: [convert_rows] writes one line per component: its result is the
    lines of the records one after the other, and the lines of one record
    are at most one Expenses line, one Std Hrs line and one OT1 Hrs line,
    in this order, whatever the record holds. *)
Theorem convert_rows_components (rows : list row) (lines : list (list str)) :
  convert_rows rows = Ok lines ->
  exists per_row : list (list (list str)),
    lines = concat per_row
    /\ Forall2 (fun r L => convert_row r = Ok L
                           /\ component_shape (line_types L)) rows per_row.
Proof.
  revert lines. induction rows as [|r rows IH]; intros lines;
    cbn [convert_rows].
  - intros H. injection H as <-. exists []. split; [reflexivity|constructor].
  - destruct (convert_row r) as [a|e] eqn:Ea; cbn [bind]; [|discriminate].
    destruct (convert_rows rows) as [b|e]; cbn [bind]; [|discriminate].
    intros H. injection H as <-.
    destruct (IH b eq_refl) as (per & -> & Hper).
    exists (a :: per). split; [reflexivity|].
    constructor; [|exact Hper]. split; [exact Ea|].
    now apply (convert_row_types r).
Qed.

Lemma convert_rows_components_witness :
  exists per_row : list (list (list str)),
    [[lit "E1"; lit "Ann"; lit "Lee"; lit "Expenses - Acme Ltd - Fitter";
      lit "1"; lit "25.5"; lit "2025-03-05"; lit "expense"];
     [lit "E1"; lit "Ann"; lit "Lee"; lit "Std Hrs - Acme Ltd - Fitter";
      lit "37.5"; lit "1200"; lit "2025-03-05"; lit "hours"]]
    = concat per_row
    /\ Forall2 (fun r L => convert_row r = Ok L
                           /\ component_shape (line_types L))
         [plain_sample_row; totals_row] per_row.
Proof.
  apply (convert_rows_components [plain_sample_row; totals_row]).
  vm_compute. reflexivity.
Defined.

(** X20: [analyze_input] expects one line per component: the expected
    lines are those of the records one after the other, and one record
    gives at most one Expenses line, one Std Hrs line and one OT1 Hrs
    line, in this order. *)
Theorem analyze_input_components (rows : list row) :
  exists per_row : list (list expected_line),
    fst (analyze_input rows) = concat per_row
    /\ length per_row = length rows
    /\ Forall (fun E => component_shape (map e_type E)) per_row.
Proof.
  unfold analyze_input. generalize 2%nat.
  induction rows as [|r rows IH]; intros i.
  - exists []. repeat split. constructor.
  - destruct (IH (S i)) as (per & Hc & Hl & Hper).
    exists (fst (analyze_row i r) :: per). split; [|split].
    + rewrite analyze_from_fst. cbn [concat]. now rewrite Hc.
    + cbn [length]. now rewrite Hl.
    + constructor; [|exact Hper].
      unfold analyze_row. cbv zeta.
      destruct (_ || _); [now exists false, false, false|]. cbn [fst].
      rewrite !map_app.
      match goal with
      | |- component_shape
             (map _ (if ?a then _ else _) ++ map _ (if ?b then _ else _)
              ++ map _ (if ?c then _ else _)) =>
          exists a, b, c; destruct a, b, c; reflexivity
      end.
Qed.

(** ** The exceptions of [convert_rows] *)







